(** * Human agent fallback: escalation, matching and assignment

    A shallow embedding of [human_agent_fallback.py]: the escalation
    classifier, the agent roster, the queue of escalated queries, the
    matcher ([find_best_agent]), the assignment pass
    ([assign_pending_queries]), [resolve_query], [update_agent_status],
    [get_agent_response], the dashboard and the wait-time estimator,
    followed by the properties of the specification that are about them and
    by further properties of the same code. *)

From Stdlib Require Import ZArith QArith Lia Lqa Bool List Ascii String.
From Stdlib Require Import DecimalFacts DecimalNat DecimalString.
From Stdlib Require Import Sorted.
From Stdlib Require Import Floats.SpecFloat.
From stdpp Require Import base list.

Local Open Scope string_scope.
Local Open Scope Z_scope.

(** ** Python built-ins used by the module *)

Module Py.

(** [str.lower] on ASCII text: the letters A-Z are mapped to a-z, every
    other byte is kept. *)
Definition lower_ascii (c : ascii) : ascii :=
  let n := nat_of_ascii c in
  if (Nat.leb 65 n && Nat.leb n 90)%bool then ascii_of_nat (n + 32) else c.

Fixpoint lower (s : string) : string :=
  match s with
  | EmptyString => EmptyString
  | String c s' => String (lower_ascii c) (lower s')
  end.

(** [sub in s] on strings: [sub] occurs in [s] as a contiguous slice. *)
Fixpoint contains (sub s : string) : bool :=
  match s with
  | EmptyString => String.prefix sub s
  | String _ s' => String.prefix sub s || contains sub s'
  end.

(** [s.split(sep)] for a one-character separator. *)
Fixpoint split (sep : ascii) (s : string) : list string :=
  match s with
  | EmptyString => [EmptyString]
  | String c s' =>
      if Ascii.eqb c sep then EmptyString :: split sep s'
      else match split sep s' with
           | w :: ws => String c w :: ws
           | [] => [String c EmptyString]
           end
  end.

(** [x in l] on a list of strings. *)
Definition str_in (x : string) (l : list string) : bool :=
  existsb (String.eqb x) l.

(** [enumerate(l, k)]: every element with its position, counted from [k]. *)
Fixpoint enumerate_from {A : Type} (k : nat) (l : list A) : list (nat * A) :=
  match l with
  | [] => []
  | x :: l' => (k, x) :: enumerate_from (S k) l'
  end.

Definition enumerate {A : Type} (l : list A) : list (nat * A) :=
  enumerate_from 0 l.

(** [str(n)] for an integer. *)
Definition str_of_int (n : Z) : string :=
  NilZero.string_of_int (Z.to_int n).

Fixpoint zeros (n : nat) : string :=
  match n with
  | O => EmptyString
  | S n' => String "0" (zeros n')
  end.

(** Decimal rendering of a natural number, zero-padded to [w] digits (the
    [%02d]-like fields of [strftime] and [isoformat]). *)
Definition zfill (w : nat) (n : nat) : string :=
  let d := NilZero.string_of_uint (Nat.to_uint n) in
  zeros (w - String.length d) ++ d.

(** A reading of [datetime.now()]. *)
Record datetime : Type := mk_datetime {
  year : nat; month : nat; day : nat;
  hour : nat; minute : nat; second : nat;
  microsecond : nat
}.

(** [d.strftime('%Y%m%d%H%M%S')] *)
Definition strftime_YmdHMS (d : datetime) : string :=
  zfill 4 (year d) ++ zfill 2 (month d) ++ zfill 2 (day d) ++
  zfill 2 (hour d) ++ zfill 2 (minute d) ++ zfill 2 (second d).

(** [d.isoformat()]: the microseconds are printed only when non-zero. *)
Definition isoformat (d : datetime) : string :=
  zfill 4 (year d) ++ "-" ++ zfill 2 (month d) ++ "-" ++ zfill 2 (day d) ++
  "T" ++ zfill 2 (hour d) ++ ":" ++ zfill 2 (minute d) ++ ":" ++
  zfill 2 (second d) ++
  (if Nat.eqb (microsecond d) 0 then "" else "." ++ zfill 6 (microsecond d)).

End Py.

(** ** IEEE 754 binary64, the arithmetic of Python's [float] *)

Module F64.

Definition prec : Z := 53.
Definition emax : Z := 1024.

(** [float(n)] for an integer [n]: rounded to nearest, ties to even. *)
Definition of_int (n : Z) : spec_float := binary_normalize prec emax n 0 false.

Definition mul : spec_float -> spec_float -> spec_float := SFmul prec emax.
Definition div : spec_float -> spec_float -> spec_float := SFdiv prec emax.
Definition ltb : spec_float -> spec_float -> bool := SFltb.

(** [int(x)]: truncation toward zero; Python raises on an infinity or a
    NaN, which is [None] here. *)
Definition to_int (x : spec_float) : option Z :=
  match x with
  | S754_zero _ => Some 0
  | S754_finite s m e => Some (cond_Zopp s (Z.shiftl (Zpos m) e))
  | S754_infinity _ | S754_nan => None
  end.

(** The literals [0.0], [0.7] and [1.5] as binary64 values. *)
Definition lit_0_0 : spec_float := S754_zero false.
Definition lit_0_7 : spec_float := S754_finite false 6305039478318694 (-53).
Definition lit_1_5 : spec_float := S754_finite false 6755399441055744 (-52).

(** A mantissa [m] with exponent [e] lies within [K] when its exponent is
    at least [-K] and its value is below [2 ^ K]. *)
Definition fits (K m e : Z) : Prop := - K <= e /\ e + Zdigits2 m <= K.

(** What may come out of a rounding: a zero, or a finite number whose
    mantissa and exponent lie within [K]. *)
Definition within (K : Z) (x : spec_float) : Prop :=
  match x with
  | S754_zero _ => True
  | S754_finite _ m e => fits K (Z.pos m) e
  | _ => False
  end.

Definition finite_within (K : Z) (x : spec_float) : Prop :=
  match x with
  | S754_finite _ m e => fits K (Z.pos m) e
  | _ => False
  end.

End F64.

(** ** Data model *)

Inductive QueryComplexity : Type := SIMPLE | MODERATE | COMPLEX | CRITICAL.

Inductive AgentStatus : Type := AVAILABLE | BUSY | OFFLINE | BREAK.

Inductive EscalationReason : Type :=
  | TECHNICAL_ISSUE | COMPLEX_QUERY | CUSTOMER_COMPLAINT | PRICE_NEGOTIATION
  | CUSTOM_REQUIREMENTS | LANGUAGE_BARRIER | EMERGENCY.

(** [reason.value] *)
Definition reason_value (r : EscalationReason) : string :=
  match r with
  | TECHNICAL_ISSUE => "technical_issue"
  | COMPLEX_QUERY => "complex_query"
  | CUSTOMER_COMPLAINT => "customer_complaint"
  | PRICE_NEGOTIATION => "price_negotiation"
  | CUSTOM_REQUIREMENTS => "custom_requirements"
  | LANGUAGE_BARRIER => "language_barrier"
  | EMERGENCY => "emergency"
  end.

Definition AgentStatus_eqb (a b : AgentStatus) : bool :=
  match a, b with
  | AVAILABLE, AVAILABLE | BUSY, BUSY | OFFLINE, OFFLINE | BREAK, BREAK => true
  | _, _ => false
  end.

Record HumanAgent : Type := mk_agent {
  a_id : string;
  a_name : string;
  a_email : string;
  a_phone : string;
  expertise : list string;
  languages : list string;
  a_status : AgentStatus;
  current_chats : Z;
  max_chats : Z;
  last_activity : string
}.

(** The dataclass declares no [language] field; [q_language] is the
    instance attribute of that name, [None] while the attribute is absent
    (what [hasattr(query, 'language')] tests). *)
Record EscalatedQuery : Type := mk_query {
  q_id : string;
  customer_id : string;
  q_query : string;
  complexity : QueryComplexity;
  reason : EscalationReason;
  agent_id : string;
  q_status : string;
  created_time : string;
  assigned_time : string;
  resolved_time : string;
  priority : Z;
  notes : string;
  q_language : option string
}.

Record Thresholds : Type := mk_thresholds {
  max_retries : Z;
  confidence_threshold : spec_float;
  response_time_threshold : Z
}.

(** The state of a [HumanAgentFallback] instance, with the number of
    [datetime.now()] readings taken so far. *)
Record State : Type := mk_state {
  agents : list HumanAgent;
  escalated_queries : list EscalatedQuery;
  complexity_thresholds : Thresholds;
  clock_reads : nat
}.

Definition default_thresholds : Thresholds :=
  mk_thresholds 3 F64.lit_0_7 30.

(** ** Escalation classifier *)

Definition escalation_keywords : list string :=
  ["speak to human"; "talk to agent"; "customer service"; "complaint";
   "not satisfied"; "wrong information"; "confused"; "help me";
   "emergency"; "urgent"; "problem"; "issue"; "broken"; "not working"].

Definition financial_keywords : list string :=
  ["negotiate"; "discount"; "bargain"; "lower price"; "best price";
   "offer"; "deal"; "finance"; "loan"; "emi"; "installment"].

Definition custom_keywords : list string :=
  ["custom"; "modify"; "special"; "specific"; "particular";
   "requirement"; "need"; "want"; "looking for"; "prefer"].

Definition technical_keywords : list string :=
  ["not working"; "broken"; "error"; "problem"; "issue";
   "malfunction"; "defect"; "damage"; "repair"; "fix"].

Definition emergency_keywords : list string :=
  ["emergency"; "urgent"; "immediately"; "asap"; "help";
   "accident"; "stuck"; "stranded"; "danger"; "safety"].

(** [any(keyword in query.lower() for keyword in keywords)] *)
Definition any_keyword (keywords : list string) (query : string) : bool :=
  existsb (fun keyword => Py.contains keyword (Py.lower query)) keywords.

Definition should_escalate_to_human (th : Thresholds)
    (query ai_response : string) (confidence response_time : spec_float)
  : bool * option EscalationReason :=
  if any_keyword escalation_keywords query then (true, Some CUSTOMER_COMPLAINT)
  else if any_keyword financial_keywords query then (true, Some PRICE_NEGOTIATION)
  else if any_keyword custom_keywords query then (true, Some CUSTOM_REQUIREMENTS)
  else if any_keyword technical_keywords query then (true, Some TECHNICAL_ISSUE)
  else if F64.ltb confidence (confidence_threshold th) then (true, Some COMPLEX_QUERY)
  else if F64.ltb (F64.of_int (response_time_threshold th)) response_time
       then (true, Some COMPLEX_QUERY)
  else if any_keyword emergency_keywords query then (true, Some EMERGENCY)
  else (false, None).

(** ** The stateful engine

    [now k] is the [k]-th reading of [datetime.now()] taken by the process;
    [notify_raises agent query] tells whether the notification step
    ([notify_agent_assignment], which prints) raises for that assignment. *)

Section Fallback.

Variable now : nat -> Py.datetime.
Variable notify_raises : HumanAgent -> EscalatedQuery -> bool.

(** [HumanAgent(...)] as called by [initialize_agents]: [status],
    [current_chats] and [last_activity] take their defaults, and
    [__post_init__] stamps [last_activity] with the reading [t]. *)
Definition new_agent (id name email phone : string)
    (expertise languages : list string) (max_chats : Z) (t : Py.datetime)
  : HumanAgent :=
  mk_agent id name email phone expertise languages AVAILABLE 0 max_chats
           (Py.isoformat t).

Definition initialize_agents (k : nat) : list HumanAgent :=
  [ new_agent "agent_1" "Rajesh Kumar" "rajesh@everylingua.com" "+91-9876543211"
      ["sales"; "test_rides"; "finance"] ["hi"; "en"; "mr"] 5 (now k);
    new_agent "agent_2" "Priya Sharma" "priya@everylingua.com" "+91-9876543212"
      ["service"; "maintenance"; "complaints"] ["en"; "hi"; "ta"] 4 (now (k + 1));
    new_agent "agent_3" "Amit Patel" "amit@everylingua.com" "+91-9876543213"
      ["sales"; "custom_requirements"; "price_negotiation"] ["en"; "hi"; "gu"] 6
      (now (k + 2));
    new_agent "agent_4" "Sneha Reddy" "sneha@everylingua.com" "+91-9876543214"
      ["service"; "emergency"; "complaints"] ["en"; "hi"; "te"; "kn"] 4
      (now (k + 3)) ].

(** [HumanAgentFallback()] *)
Definition initial_state : State :=
  mk_state (initialize_agents 0) [] default_thresholds 4.

(** *** Matcher *)

(** [agent.status == AgentStatus.AVAILABLE and agent.current_chats < agent.max_chats] *)
Definition is_available (agent : HumanAgent) : bool :=
  AgentStatus_eqb (a_status agent) AVAILABLE
  && (current_chats agent <? max_chats agent).

(** The agents that pass the filter, each with its position in
    [self.agents] (the reference the caller later mutates). *)
Definition available_agents (s : State) : list (nat * HumanAgent) :=
  List.filter (fun ia => is_available (snd ia)) (Py.enumerate (agents s)).

(** The score of one agent, as accumulated in the loop body: the four
    contributions, in the order in which the loop adds them.  Every value is
    a multiple of 0.5 and, for the loads a roster can have, binary64
    represents it exactly, so the rationals below are the floats of the
    source. *)
Definition expertise_score (query : EscalatedQuery) (agent : HumanAgent) : Q :=
  fold_left
    (fun score e => if Py.str_in e (expertise agent) then (score + 2)%Q else score)
    (Py.split "_" (reason_value (reason query))) 0%Q.

Definition language_score (query : EscalatedQuery) (agent : HumanAgent) : Q :=
  match q_language query with
  | Some l => if Py.str_in l (languages agent) then 1%Q else 0%Q
  | None => 0%Q
  end.

Definition priority_score (query : EscalatedQuery) : Q :=
  if priority query >=? 4 then 1%Q else 0%Q.

Definition capacity_score (agent : HumanAgent) : Q :=
  (inject_Z (max_chats agent - current_chats agent) * (1 # 2))%Q.

Definition agent_score (query : EscalatedQuery) (agent : HumanAgent) : Q :=
  (expertise_score query agent + language_score query agent
   + priority_score query + capacity_score agent)%Q.

(** One iteration of the selection loop over [(best_agent, best_score)]. *)
Definition best_step (query : EscalatedQuery)
    (best : option (nat * HumanAgent) * Q) (ia : nat * HumanAgent)
  : option (nat * HumanAgent) * Q :=
  let score := agent_score query (snd ia) in
  if negb (Qle_bool score (snd best)) then (Some ia, score) else best.

Definition find_best_agent (s : State) (query : EscalatedQuery)
  : option (nat * HumanAgent) :=
  match available_agents s with
  | [] => None
  | available => fst (fold_left (best_step query) available (None, (-1)%Q))
  end.

(** *** Assignment *)

Definition mark_assigned (agent : HumanAgent) (t : Py.datetime)
    (query : EscalatedQuery) : EscalatedQuery :=
  mk_query (q_id query) (customer_id query) (q_query query) (complexity query)
           (reason query) (a_id agent) "assigned" (created_time query)
           (Py.isoformat t) (resolved_time query) (priority query)
           (notes query) (q_language query).

Definition take_chat (t : Py.datetime) (agent : HumanAgent) : HumanAgent :=
  mk_agent (a_id agent) (a_name agent) (a_email agent) (a_phone agent)
           (expertise agent) (languages agent) (a_status agent)
           (current_chats agent + 1) (max_chats agent) (Py.isoformat t).

(** [assign_query_to_agent(query, agent)]; [qi] and [ai] are the positions
    of the two objects in [self.escalated_queries] and [self.agents] (the
    callers only pass positions of existing objects).  The query is marked,
    then the agent's count is incremented, then the notification is sent; an
    exception from it is caught and turns the result into [False]. *)
Definition assign_query_to_agent (s : State) (qi ai : nat) : bool * State :=
  match escalated_queries s !! qi, agents s !! ai with
  | Some query, Some agent =>
      let query' := mark_assigned agent (now (clock_reads s)) query in
      let agent' := take_chat (now (S (clock_reads s))) agent in
      let s' := mk_state (<[ai := agent']> (agents s))
                         (<[qi := query']> (escalated_queries s))
                         (complexity_thresholds s) (S (S (clock_reads s))) in
      if notify_raises agent' query' then (false, s') else (true, s')
  | _, _ => (false, s)
  end.

Definition is_pending (query : EscalatedQuery) : bool :=
  String.eqb (q_status query) "pending".

(** The snapshot [pending_queries], as positions in the queue. *)
Definition pending_queries (s : State) : list nat :=
  map fst (List.filter (fun iq => is_pending (snd iq))
                       (Py.enumerate (escalated_queries s))).

(** The body of the loop of [assign_pending_queries] for one query. *)
Definition assign_one (s : State) (qi : nat) : State :=
  match escalated_queries s !! qi with
  | Some query =>
      match find_best_agent s query with
      | Some (ai, _) => snd (assign_query_to_agent s qi ai)
      | None => s
      end
  | None => s
  end.

Definition assign_pending_queries (s : State) : State :=
  fold_left assign_one (pending_queries s) s.

(** *** Wait-time estimator *)

Definition available_count (s : State) : nat :=
  List.length (List.filter is_available (agents s)).

Definition pending_count (s : State) : nat :=
  List.length (List.filter is_pending (escalated_queries s)).

(** [(pending_queries / available_agents) * 10] *)
Definition wait_time (pending available : nat) : spec_float :=
  F64.mul (F64.div (F64.of_int (Z.of_nat pending))
                   (F64.of_int (Z.of_nat available)))
          (F64.of_int 10).

(** [f"{int(wait_time)}-{int(wait_time * 1.5)} minutes"]; [None] when one
    of the conversions raises. *)
Definition format_range (w : spec_float) : option string :=
  match F64.to_int w, F64.to_int (F64.mul w F64.lit_1_5) with
  | Some lo, Some hi =>
      Some (Py.str_of_int lo ++ "-" ++ Py.str_of_int hi ++ " minutes")
  | _, _ => None
  end.

Definition get_estimated_wait_time (s : State) : option string :=
  let available_agents := available_count s in
  let pending_queries := pending_count s in
  if Nat.eqb available_agents 0 then Some "15-30 minutes"
  else if Nat.eqb pending_queries 0 then Some "2-5 minutes"
  else format_range (wait_time pending_queries available_agents).

(** *** Escalation *)

(** The dictionary returned by [escalate_query]; the keys ["query_id"] and
    ["estimated_wait_time"] are present on success only. *)
Record EscalateResult : Type := mk_result {
  success : bool;
  query_id : option string;
  message : string;
  estimated_wait_time : option string
}.

(** [EscalatedQuery(id=..., customer_id=..., query=..., complexity=...,
    reason=..., priority=...)]: the other fields take their defaults and
    [__post_init__] stamps [created_time] with the reading [t]. *)
Definition new_query (id customer_id query : string) (c : QueryComplexity)
    (r : EscalationReason) (priority : Z) (t : Py.datetime) : EscalatedQuery :=
  mk_query id customer_id query c r "" "pending" (Py.isoformat t) "" "" priority
           "" None.

Definition set_language (language : string) (query : EscalatedQuery)
  : EscalatedQuery :=
  mk_query (q_id query) (customer_id query) (q_query query) (complexity query)
           (reason query) (agent_id query) (q_status query) (created_time query)
           (assigned_time query) (resolved_time query) (priority query)
           (notes query) (Some language).

Definition escalate_query (s : State) (customer_id query : string)
    (reason : EscalationReason) (priority : Z) (language : string)
  : EscalateResult * State :=
  let query_id := "ESC_" ++ Py.strftime_YmdHMS (now (clock_reads s)) in
  let escalated_query :=
    new_query query_id customer_id query
              (if priority >=? 4 then CRITICAL else COMPLEX) reason priority
              (now (S (clock_reads s))) in
  let escalated_query :=
    match q_language escalated_query with
    | Some _ => set_language language escalated_query
    | None => escalated_query
    end in
  let s' := mk_state (agents s) (escalated_queries s ++ [escalated_query])
                     (complexity_thresholds s) (S (S (clock_reads s))) in
  match get_estimated_wait_time s' with
  | Some w =>
      (mk_result true (Some query_id)
         "Query escalated to human agent. You will receive a response shortly."
         (Some w), s')
  | None =>
      (mk_result false None
         "Failed to escalate query. Please try again later." None, s')
  end.

(** The record that [escalate_query] appends. *)
Definition escalated (s : State) (customer_id query : string)
    (reason : EscalationReason) (priority : Z) : EscalatedQuery :=
  new_query ("ESC_" ++ Py.strftime_YmdHMS (now (clock_reads s)))
            customer_id query (if priority >=? 4 then CRITICAL else COMPLEX)
            reason priority (now (S (clock_reads s))).

(** *** Resolution and status updates *)

Definition mark_resolved (t : Py.datetime) (query : EscalatedQuery)
  : EscalatedQuery :=
  mk_query (q_id query) (customer_id query) (q_query query) (complexity query)
           (reason query) (agent_id query) "resolved" (created_time query)
           (assigned_time query) (Py.isoformat t) (priority query)
           (notes query) (q_language query).

Definition drop_chat (agent : HumanAgent) : HumanAgent :=
  mk_agent (a_id agent) (a_name agent) (a_email agent) (a_phone agent)
           (expertise agent) (languages agent) (a_status agent)
           (Z.max 0 (current_chats agent - 1)) (max_chats agent)
           (last_activity agent).

(** The inner loop of [resolve_query]: the first agent whose id is
    [aid] gives a chat back, then [break]. *)
Fixpoint release_agent (aid : string) (l : list HumanAgent) : list HumanAgent :=
  match l with
  | [] => []
  | agent :: rest =>
      if String.eqb (a_id agent) aid then drop_chat agent :: rest
      else agent :: release_agent aid rest
  end.

(** The outer loop of [resolve_query]: the first query whose id is
    [query_id] is marked; the result is the new queue with the [agent_id] of
    that query, or [None] when the loop falls through. *)
Fixpoint resolve_loop (query_id : string) (t : Py.datetime)
    (l : list EscalatedQuery) : option (list EscalatedQuery * string) :=
  match l with
  | [] => None
  | query :: rest =>
      if String.eqb (q_id query) query_id
      then Some (mark_resolved t query :: rest, agent_id query)
      else match resolve_loop query_id t rest with
           | Some (rest', aid) => Some (query :: rest', aid)
           | None => None
           end
  end.

Definition resolve_query (s : State) (query_id agent_response : string)
  : bool * State :=
  match resolve_loop query_id (now (clock_reads s)) (escalated_queries s) with
  | Some (queries', aid) =>
      (true, mk_state (release_agent aid (agents s)) queries'
                      (complexity_thresholds s) (S (clock_reads s)))
  | None => (false, s)
  end.

Definition set_status (status : AgentStatus) (t : Py.datetime)
    (agent : HumanAgent) : HumanAgent :=
  mk_agent (a_id agent) (a_name agent) (a_email agent) (a_phone agent)
           (expertise agent) (languages agent) status
           (current_chats agent) (max_chats agent) (Py.isoformat t).

Fixpoint update_loop (agent_id : string) (status : AgentStatus)
    (t : Py.datetime) (l : list HumanAgent) : option (list HumanAgent) :=
  match l with
  | [] => None
  | agent :: rest =>
      if String.eqb (a_id agent) agent_id
      then Some (set_status status t agent :: rest)
      else match update_loop agent_id status t rest with
           | Some rest' => Some (agent :: rest')
           | None => None
           end
  end.

Definition update_agent_status (s : State) (agent_id : string)
    (status : AgentStatus) : bool * State :=
  match update_loop agent_id status (now (clock_reads s)) (agents s) with
  | Some agents' =>
      (true, mk_state agents' (escalated_queries s) (complexity_thresholds s)
                      (S (clock_reads s)))
  | None => (false, s)
  end.

(** The dictionary returned by [get_agent_response]. *)
Record AgentResponse : Type := mk_response {
  r_query_id : string;
  response : string;
  agent_name : string;
  response_time : string
}.

(** [next((agent.name for agent in self.agents if agent.id == aid), "Unknown")] *)
Fixpoint agent_name_of (aid : string) (l : list HumanAgent) : string :=
  match l with
  | [] => "Unknown"
  | agent :: rest =>
      if String.eqb (a_id agent) aid then a_name agent
      else agent_name_of aid rest
  end.

Fixpoint response_loop (ags : list HumanAgent) (query_id : string)
    (l : list EscalatedQuery) : option AgentResponse :=
  match l with
  | [] => None
  | query :: rest =>
      if String.eqb (q_id query) query_id
         && String.eqb (q_status query) "resolved"
      then Some (mk_response query_id "Response from human agent"
                             (agent_name_of (agent_id query) ags)
                             (resolved_time query))
      else response_loop ags query_id rest
  end.

Definition get_agent_response (s : State) (query_id : string)
  : option AgentResponse :=
  response_loop (agents s) query_id (escalated_queries s).

(** *** Sequences of operations

    The calls that reach the instance: the four entry points that change
    it, [Tick] being one pass of the background loop.  Each runs to its end
    before the next one starts. *)

Inductive Op : Type :=
  | Escalate (customer_id query : string) (reason : EscalationReason)
             (priority : Z) (language : string)
  | Tick
  | Resolve (query_id agent_response : string)
  | UpdateStatus (agent_id : string) (status : AgentStatus).

Definition step (s : State) (op : Op) : State :=
  match op with
  | Escalate c q r p l => snd (escalate_query s c q r p l)
  | Tick => assign_pending_queries s
  | Resolve i r => snd (resolve_query s i r)
  | UpdateStatus i st => snd (update_agent_status s i st)
  end.

Definition run (ops : list Op) (s : State) : State := fold_left step ops s.

End Fallback.

(** ** The dashboard *)

(** [status.value] *)
Definition status_value (status : AgentStatus) : string :=
  match status with
  | AVAILABLE => "available"
  | BUSY => "busy"
  | OFFLINE => "offline"
  | BREAK => "break"
  end.

(** One entry of the list under the key ["agents"] of the dashboard. *)
Record AgentRow : Type := mk_row {
  row_id : string;
  row_name : string;
  row_status : string;
  row_current_chats : Z;
  row_expertise : list string
}.

(** The dictionary returned by [get_agent_dashboard_data]; the field
    [d_k] is the value under the key [k]. *)
Record Dashboard : Type := mk_dashboard {
  d_total_agents : nat;
  d_available_agents : nat;
  d_busy_agents : nat;
  d_total_queries : nat;
  d_pending_queries : nat;
  d_resolved_queries : nat;
  d_agents : list AgentRow
}.

Definition agent_row (agent : HumanAgent) : AgentRow :=
  mk_row (a_id agent) (a_name agent) (status_value (a_status agent))
         (current_chats agent) (expertise agent).

Definition get_agent_dashboard_data (s : State) : Dashboard :=
  mk_dashboard
    (List.length (agents s))
    (List.length
       (List.filter (fun a => AgentStatus_eqb (a_status a) AVAILABLE) (agents s)))
    (List.length
       (List.filter (fun a => AgentStatus_eqb (a_status a) BUSY) (agents s)))
    (List.length (escalated_queries s))
    (List.length
       (List.filter (fun q => String.eqb (q_status q) "pending")
                    (escalated_queries s)))
    (List.length
       (List.filter (fun q => String.eqb (q_status q) "resolved")
                    (escalated_queries s)))
    (map agent_row (agents s)).

(** ** Predicates kept by the updates *)

(** The load of an agent is within its capacity. *)
Definition load_ok (a : HumanAgent) : Prop :=
  0 <= current_chats a <= max_chats a.

(** A property of the single agents that the three agent updates keep
    holds of the whole roster in every reachable state. *)
Definition agent_update_closed (P : HumanAgent -> Prop) : Prop :=
  (forall t a, P a -> current_chats a < max_chats a -> P (take_chat t a))
  /\ (forall a, P a -> P (drop_chat a))
  /\ (forall st t a, P a -> P (set_status st t a)).

(** A property of the single queries that holds of every new record and
    that the two query updates keep holds of the whole queue in every
    reachable state. *)
Definition query_update_closed (Q : EscalatedQuery -> Prop) : Prop :=
  (forall id c q cx r p t, Q (new_query id c q cx r p t))
  /\ (forall agent t q, Q q -> Q (mark_assigned agent t q))
  /\ (forall t q, Q q -> Q (mark_resolved t q)).

(** ** Measures used in the statements about the pass and the loads *)

(** The chats an agent can still take: the room left under [max_chats]
    when the agent passes the availability filter, none otherwise. *)
Definition free_chats (agent : HumanAgent) : Z :=
  if is_available agent then max_chats agent - current_chats agent else 0.

(** The chats the whole roster can still take. *)
Definition free_capacity (s : State) : Z :=
  fold_right Z.add 0 (map free_chats (agents s)).


(** The items of a queue that are assigned to the agent [aid]. *)
Definition assigned_to (aid : string) (query : EscalatedQuery) : bool :=
  String.eqb (q_status query) "assigned" && String.eqb (agent_id query) aid.

Definition assigned_count (aid : string) (l : list EscalatedQuery) : Z :=
  Z.of_nat (List.length (List.filter (assigned_to aid) l)).

(** The items of the queue that are assigned, to whichever agent. *)
Definition assigned_items (s : State) : nat :=
  List.length (List.filter (fun q => String.eqb (q_status q) "assigned")
                           (escalated_queries s)).

(** The sum of the loads that the dashboard shows. *)
Definition shown_chats (d : Dashboard) : Z :=
  fold_right Z.add 0 (map row_current_chats (d_agents d)).

(** The load of every agent is covered by the items assigned to its id. *)
Definition loads_accounted (s : State) : Prop :=
  Forall (fun a => current_chats a
                   <= assigned_count (a_id a) (escalated_queries s))
         (agents s).

(** ** Relations between the states before and after operations *)

(** Every entry of [l] is still in [l'], at its position, changed at most
    as [R] allows; [l'] may be longer. *)
Definition extends {A : Type} (R : A -> A -> Prop) (l l' : list A) : Prop :=
  forall i x, l !! i = Some x -> exists x', l' !! i = Some x' /\ R x x'.

(** [a'] is the agent [a] at a later time: only the status, the load and
    the time of the last activity may differ. *)
Definition same_agent (a a' : HumanAgent) : Prop :=
  a_id a' = a_id a /\ a_name a' = a_name a /\ a_email a' = a_email a
  /\ a_phone a' = a_phone a /\ expertise a' = expertise a
  /\ languages a' = languages a /\ max_chats a' = max_chats a.


(** [a'] is the agent [a] after an assignment pass. *)
Definition after_pass_agent (a a' : HumanAgent) : Prop :=
  same_agent a a' /\ a_status a' = a_status a
  /\ current_chats a <= current_chats a'
  /\ (is_available a = false -> a' = a)
  /\ (current_chats a <= max_chats a -> current_chats a' <= max_chats a).

(** [q'] is the item [q] after an assignment pass. *)
Definition after_pass_item (q q' : EscalatedQuery) : Prop :=
  (is_pending q = false -> q' = q)
  /\ (q' = q \/ (q_status q' = "assigned" /\ resolved_time q' = resolved_time q)).

(** The operations that set the status of the agent [aid]. *)
Definition updates_status_of (aid : string) (op : Op) : bool :=
  match op with
  | UpdateStatus i _ => String.eqb i aid
  | _ => false
  end.

(** [a'] is the agent [a] with, at most, chats given back. *)
Definition idle_agent (a a' : HumanAgent) : Prop :=
  same_agent a a' /\ a_status a' = a_status a
  /\ last_activity a' = last_activity a
  /\ current_chats a' <= Z.max 0 (current_chats a).

(** The chats an agent can still take. *)
Definition spare_chats (agent : HumanAgent) : Z :=
  max_chats agent - current_chats agent.

(** The expertise lists of the roster of [initialize_agents], by agent id. *)
Definition roster_expertise : list (string * list string) :=
  [ ("agent_1", ["sales"; "test_rides"; "finance"]);
    ("agent_2", ["service"; "maintenance"; "complaints"]);
    ("agent_3", ["sales"; "custom_requirements"; "price_negotiation"]);
    ("agent_4", ["service"; "emergency"; "complaints"]) ].

(** The field ranges of a [datetime] for which [%Y] prints four digits. *)
Definition four_digit_year (d : Py.datetime) : Prop :=
  (1000 <= Py.year d < 100 * 100)%nat /\ (Py.month d <= 12)%nat
  /\ (Py.day d <= 31)%nat /\ (Py.hour d <= 23)%nat
  /\ (Py.minute d <= 59)%nat /\ (Py.second d <= 59)%nat.

(** Two readings of the clock fall in the same second. *)
Definition in_same_second (d d' : Py.datetime) : Prop :=
  Py.year d = Py.year d' /\ Py.month d = Py.month d' /\ Py.day d = Py.day d'
  /\ Py.hour d = Py.hour d' /\ Py.minute d = Py.minute d'
  /\ Py.second d = Py.second d'.

(** Reading a zero-padded decimal field back. *)
Definition read_field (s : string) : option nat :=
  option_map Nat.of_uint (NilZero.uint_of_string s).

(** The numerals of the [k] numbers that start at the one whose
    little-endian numeral is [d] have at most [w] digits. *)
Fixpoint digits_ok (w k : nat) (d : Decimal.uint) : bool :=
  match k with
  | O => true
  | S k' => Nat.leb (Decimal.nb_digits d) w && digits_ok w k' (Decimal.Little.succ d)
  end.

(** The technical keywords that are not complaint keywords as well, and the
    emergency keywords of which no complaint keyword is a part. *)
Definition live_technical_keywords : list string :=
  ["error"; "malfunction"; "defect"; "damage"; "repair"; "fix"].

Definition live_emergency_keywords : list string :=
  ["immediately"; "asap"; "help"; "accident"; "stuck"; "stranded";
   "danger"; "safety"].

(** The operations that are calls of [escalate_query]. *)
Definition is_escalate (op : Op) : bool :=
  match op with
  | Escalate _ _ _ _ _ => true
  | _ => false
  end.

(** ** The linear estimate as the specification words it

    [base = (pendingCount / availableAgentCount) * 10] minutes, reported as
    the range [[base, base * 1.5]] rounded to whole minutes: the two values
    are taken in exact arithmetic, and a rounding of a value to whole
    minutes is any whole number less than one minute away from it (the
    value itself when it is whole). *)

Definition spec_base (pending available : nat) : Q :=
  (inject_Z (Z.of_nat pending) / inject_Z (Z.of_nat available) * 10)%Q.

Definition whole_minutes (x : Q) (n : Z) : Prop :=
  (inject_Z n - 1 < x)%Q /\ (x < inject_Z n + 1)%Q.

Definition spec_linear_estimate (pending available : nat) (answer : string)
  : Prop :=
  exists lo hi : Z,
    whole_minutes (spec_base pending available) lo
    /\ whole_minutes (spec_base pending available * (3 # 2)) hi
    /\ answer = Py.str_of_int lo ++ "-" ++ Py.str_of_int hi ++ " minutes".

(** ** Concrete clocks, rosters and items used by the examples *)

Module Fixture.

(** A clock whose readings all fall in one second: the [k]-th reading is
    10:30:45 on 15 January 2024 plus [k] microseconds. *)
Definition same_second (k : nat) : Py.datetime :=
  Py.mk_datetime 2024 1 15 10 30 45 k.

Definition notify_ok (_ : HumanAgent) (_ : EscalatedQuery) : bool := false.
Definition notify_fails (_ : HumanAgent) (_ : EscalatedQuery) : bool := true.

(** The two agents of the matcher scenario. *)
Definition agent_A : HumanAgent :=
  mk_agent "A" "Agent A" "a@example.com" "1" ["sales"] ["en"] AVAILABLE 0 5 "".
Definition agent_B : HumanAgent :=
  mk_agent "B" "Agent B" "b@example.com" "2" ["sales"; "finance"] ["en"]
           AVAILABLE 0 5 "".

Definition two_agents : State :=
  mk_state [agent_A; agent_B] [] default_thresholds 0.

Definition negotiation_item : EscalatedQuery :=
  new_query "ESC_20240115103045" "customer" "can we talk about the price"
            COMPLEX PRICE_NEGOTIATION 2 (same_second 0).

(** The state of a new instance under that clock, the id every escalation
    of that second gets, and two escalations. *)
Definition fresh : State := initial_state same_second.

Definition the_id : string := "ESC_20240115103045".

Definition complaint : Op :=
  Escalate "customer_1" "my bike is not working" CUSTOMER_COMPLAINT 1 "en".

Definition second_complaint : Op :=
  Escalate "customer_2" "the brake is broken" CUSTOMER_COMPLAINT 1 "hi".

(** The third agent of the roster, as [initialize_agents] builds it. *)
Definition third_agent : HumanAgent :=
  new_agent "agent_3" "Amit Patel" "amit@everylingua.com" "+91-9876543213"
            ["sales"; "custom_requirements"; "price_negotiation"]
            ["en"; "hi"; "gu"] 6 (same_second 2).

(** Every agent of the roster goes [OFFLINE]. *)
Definition all_offline : list Op :=
  [UpdateStatus "agent_1" OFFLINE; UpdateStatus "agent_2" OFFLINE;
   UpdateStatus "agent_3" OFFLINE; UpdateStatus "agent_4" OFFLINE].

End Fixture.

(** ** Properties *)

(** *** The classifier *)

Lemma complaint_rule_first (th : Thresholds) (query ai_response : string)
    (confidence response_time : spec_float) :
  any_keyword escalation_keywords query = true ->
  should_escalate_to_human th query ai_response confidence response_time
  = (true, Some CUSTOMER_COMPLAINT).
Proof.
  intros H. unfold should_escalate_to_human. now rewrite H.
Qed.

Lemma technical_rule_needs_no_complaint_keyword (th : Thresholds)
    (query ai_response : string) (confidence response_time : spec_float) :
  should_escalate_to_human th query ai_response confidence response_time
  = (true, Some TECHNICAL_ISSUE) ->
  any_keyword escalation_keywords query = false
  /\ any_keyword technical_keywords query = true.
Proof.
  unfold should_escalate_to_human.
  destruct (any_keyword escalation_keywords query); [discriminate|].
  destruct (any_keyword financial_keywords query); [discriminate|].
  destruct (any_keyword custom_keywords query); [discriminate|].
  destruct (any_keyword technical_keywords query); [auto|].
  destruct (F64.ltb _ _); [discriminate|].
  destruct (F64.ltb _ _); [discriminate|].
  destruct (any_keyword emergency_keywords query); discriminate.
Qed.

(** C1, as the code has it: for the query text "my bike is not working"
    the classifier returns (true, CUSTOMER_COMPLAINT), whatever the
    thresholds, the confidence and the latency are: "not working" is in the
    first keyword list of the evaluation order (the complaint list), so the
    complaint rule fires before the technical-fault rule, whose list also
    matches, is reached. *)
Theorem C1_not_working_is_customer_complaint :
  forall (th : Thresholds) (ai_response : string)
         (confidence response_time : spec_float),
    should_escalate_to_human th "my bike is not working" ai_response
                             confidence response_time
    = (true, Some CUSTOMER_COMPLAINT)
    /\ any_keyword escalation_keywords "my bike is not working" = true
    /\ any_keyword technical_keywords "my bike is not working" = true.
Proof.
  intros. split; [|split]; [|reflexivity|reflexivity].
  apply complaint_rule_first. reflexivity.
Qed.

(** C1 as stated fails: with the default thresholds, a confidence of 1.0 and
    a latency of 0.0 (no confidence or latency trigger) the result is not
    (true, TECHNICAL_ISSUE). *)
Lemma C1_counterexample :
  should_escalate_to_human default_thresholds "my bike is not working" ""
                           (F64.of_int 1) F64.lit_0_0
  <> (true, Some TECHNICAL_ISSUE).
Proof.
  rewrite complaint_rule_first by reflexivity. discriminate.
Qed.

(** *** Positions in a list *)

Lemma In_enumerate_from {A : Type} (l : list A) (k i : nat) (a : A) :
  In (i, a) (Py.enumerate_from k l) <-> (k <= i)%nat /\ l !! (i - k)%nat = Some a.
Proof.
  revert k. induction l as [|x l IH]; intros k; simpl.
  - split; [tauto | intros [_ H]; discriminate].
  - rewrite IH. split.
    + intros [E | [Hk Hl]].
      * inversion E; subst. split; [lia|]. now rewrite Nat.sub_diag.
      * split; [lia|]. replace (i - k)%nat with (S (i - S k)) by lia. exact Hl.
    + intros [Hk Hl]. destruct (Nat.eq_dec i k) as [->|Hne].
      * left. rewrite Nat.sub_diag in Hl. simpl in Hl. congruence.
      * right. split; [lia|].
        replace (i - k)%nat with (S (i - S k)) in Hl by lia. exact Hl.
Qed.

Lemma In_enumerate {A : Type} (l : list A) (i : nat) (a : A) :
  In (i, a) (Py.enumerate l) <-> l !! i = Some a.
Proof.
  unfold Py.enumerate. rewrite In_enumerate_from, Nat.sub_0_r.
  split; [tauto | split; [lia | assumption]].
Qed.

Lemma enumerate_from_split {A : Type} (l : list A) (k i : nat) (a : A)
    (l1 l2 : list (nat * A)) :
  Py.enumerate_from k l = (l1 ++ (i, a) :: l2)%list ->
  (forall j b, In (j, b) l1 -> (j < i)%nat)
  /\ (forall j b, In (j, b) l2 -> (i < j)%nat).
Proof.
  revert k l1. induction l as [|x l IH]; intros k l1 E; simpl in E.
  - destruct l1; discriminate.
  - destruct l1 as [|y l1]; simpl in E; inversion E; subst.
    + split; [intros j b []|].
      intros j b Hin. apply In_enumerate_from in Hin. lia.
    + destruct (IH _ _ H1) as [Hlt Hgt]. split; [|exact Hgt].
      intros j b [Ey | Hin]; [|eauto].
      inversion Ey; subst.
      assert (Hi : In (i, a) (Py.enumerate_from (S j) l))
        by (rewrite H1; apply in_or_app; right; now left).
      apply In_enumerate_from in Hi. lia.
Qed.

Lemma filter_split {A : Type} (f : A -> bool) (l l1 l2 : list A) (r : A) :
  List.filter f l = (l1 ++ r :: l2)%list ->
  exists l1' l2', l = (l1' ++ r :: l2')%list
                  /\ List.filter f l1' = l1 /\ List.filter f l2' = l2.
Proof.
  revert l1. induction l as [|x l IH]; intros l1 E; simpl in E.
  - destruct l1; discriminate.
  - destruct (f x) eqn:Hx.
    + destruct l1 as [|y l1]; simpl in E; inversion E; subst.
      * exists [], l. simpl. auto.
      * destruct (IH _ H1) as (l1' & l2' & -> & <- & <-).
        exists (y :: l1'), l2'. simpl. rewrite Hx. auto.
    + destruct (IH _ E) as (l1' & l2' & -> & <- & <-).
      exists (x :: l1'), l2'. simpl. rewrite Hx. auto.
Qed.

(** *** The matcher *)

Lemma In_available_agents (s : State) (i : nat) (a : HumanAgent) :
  In (i, a) (available_agents s)
  <-> agents s !! i = Some a /\ is_available a = true.
Proof.
  unfold available_agents. rewrite filter_In, In_enumerate. simpl. tauto.
Qed.

Lemma available_agents_nil (s : State) :
  available_agents s = []
  <-> forall a, In a (agents s) -> is_available a = false.
Proof.
  split.
  - intros E a Ha. destruct (is_available a) eqn:Hav; [|reflexivity].
    apply list_elem_of_In, list_elem_of_lookup in Ha as [i Hi].
    assert (Hin : In (i, a) (available_agents s))
      by (apply In_available_agents; auto).
    rewrite E in Hin. destruct Hin.
  - intros H. destruct (available_agents s) as [|[i a] l] eqn:E; [reflexivity|].
    assert (Hin : In (i, a) (available_agents s)) by (rewrite E; now left).
    apply In_available_agents in Hin as [Hi Hav].
    rewrite (H a) in Hav; [discriminate|].
    apply list_elem_of_In. eapply list_elem_of_lookup_2. exact Hi.
Qed.

Section Matcher.

Variable query : EscalatedQuery.

Lemma expertise_score_nonneg (agent : HumanAgent) :
  (0 <= expertise_score query agent)%Q.
Proof.
  unfold expertise_score.
  assert (G : forall l acc, (0 <= acc)%Q ->
            (0 <= fold_left (fun score e =>
                    if Py.str_in e (expertise agent) then (score + 2)%Q else score)
                  l acc)%Q).
  { induction l as [|e l IH]; intros acc Hacc; simpl; [exact Hacc|].
    apply IH. destruct (Py.str_in e (expertise agent)); lra. }
  apply G. lra.
Qed.

Lemma language_score_nonneg (agent : HumanAgent) :
  (0 <= language_score query agent)%Q.
Proof.
  unfold language_score. destruct (q_language query) as [l|]; [|lra].
  destruct (Py.str_in l (languages agent)); lra.
Qed.

Lemma priority_score_nonneg : (0 <= priority_score query)%Q.
Proof. unfold priority_score. destruct (priority query >=? 4); lra. Qed.

Lemma capacity_score_pos (agent : HumanAgent) :
  is_available agent = true -> (0 < capacity_score agent)%Q.
Proof.
  unfold is_available, capacity_score. intros H.
  apply andb_true_iff in H as [_ H]. apply Z.ltb_lt in H.
  assert (0 < inject_Z (max_chats agent - current_chats agent))%Q.
  { change 0%Q with (inject_Z 0). rewrite <- Zlt_Qlt. lia. }
  lra.
Qed.

(** An agent that passes the filter always beats the initial [best_score]
    of -1, so the loop never leaves [best_agent] at [None]. *)
Lemma available_score_pos (agent : HumanAgent) :
  is_available agent = true -> (0 < agent_score query agent)%Q.
Proof.
  intros H. unfold agent_score.
  pose proof (expertise_score_nonneg agent).
  pose proof (language_score_nonneg agent).
  pose proof priority_score_nonneg.
  pose proof (capacity_score_pos agent H). lra.
Qed.

Lemma best_step_keep (best : option (nat * HumanAgent) * Q)
    (ia : nat * HumanAgent) :
  (agent_score query (snd ia) <= snd best)%Q ->
  best_step query best ia = best.
Proof.
  intros H. unfold best_step.
  apply Qle_bool_iff in H. now rewrite H.
Qed.

Lemma best_step_take (best : option (nat * HumanAgent) * Q)
    (ia : nat * HumanAgent) :
  (snd best < agent_score query (snd ia))%Q ->
  best_step query best ia = (Some ia, agent_score query (snd ia)).
Proof.
  intros H. unfold best_step.
  destruct (Qle_bool (agent_score query (snd ia)) (snd best)) eqn:E;
    [|reflexivity].
  apply Qle_bool_iff in E. lra.
Qed.

(** The loop started on a candidate [x] ends on the first candidate of
    the highest score among [x :: l]. *)
Lemma fold_best_step (l : list (nat * HumanAgent)) :
  forall x : nat * HumanAgent,
  exists r,
    fold_left (best_step query) l (Some x, agent_score query (snd x))
    = (Some r, agent_score query (snd r))
    /\ ((r = x
         /\ Forall (fun y => (agent_score query (snd y)
                              <= agent_score query (snd x))%Q) l)
        \/ exists l1 l2,
             l = (l1 ++ r :: l2)%list
             /\ (agent_score query (snd x) < agent_score query (snd r))%Q
             /\ Forall (fun y => (agent_score query (snd y)
                                  < agent_score query (snd r))%Q) l1
             /\ Forall (fun y => (agent_score query (snd y)
                                  <= agent_score query (snd r))%Q) l2).
Proof.
  induction l as [|y l IH]; intros x; simpl.
  - exists x. split; [reflexivity|]. left. split; [reflexivity | constructor].
  - destruct (Qlt_le_dec (agent_score query (snd x)) (agent_score query (snd y)))
      as [Hlt | Hle].
    + rewrite best_step_take by exact Hlt.
      destruct (IH y) as (r & E & [[-> Hall] | (l1 & l2 & -> & Hy & H1 & H2)]).
      * exists y. split; [exact E|]. right. exists [], l. simpl. auto.
      * exists r. split; [exact E|]. right. exists (y :: l1), l2.
        simpl. repeat split; [lra | | exact H2].
        constructor; [exact Hy | exact H1].
    + rewrite best_step_keep by exact Hle.
      destruct (IH x) as (r & E & [[-> Hall] | (l1 & l2 & -> & Hx & H1 & H2)]).
      * exists x. split; [exact E|]. left. split; [reflexivity|].
        constructor; [exact Hle | exact Hall].
      * exists r. split; [exact E|]. right. exists (y :: l1), l2.
        simpl. repeat split; [exact Hx | | exact H2].
        constructor; [simpl; lra | exact H1].
Qed.

(** [find_best_agent] on a non-empty list of candidates. *)
Lemma find_best_agent_split (s : State) :
  available_agents s <> [] ->
  exists l1 r l2,
    find_best_agent s query = Some r
    /\ available_agents s = (l1 ++ r :: l2)%list
    /\ Forall (fun y => (agent_score query (snd y)
                         < agent_score query (snd r))%Q) l1
    /\ Forall (fun y => (agent_score query (snd y)
                         <= agent_score query (snd r))%Q) l2.
Proof.
  intros Hne. unfold find_best_agent.
  destruct (available_agents s) as [|x l] eqn:E; [congruence|].
  assert (Hx : is_available (snd x) = true).
  { destruct x as [i a].
    assert (Hin : In (i, a) (available_agents s)) by (rewrite E; now left).
    now apply In_available_agents in Hin. }
  simpl fold_left. rewrite best_step_take
    by (simpl; pose proof (available_score_pos _ Hx); lra).
  destruct (fold_best_step l x) as (r & -> & [[-> Hall] | (l1 & l2 & -> & Hr & H1 & H2)]).
  - exists [], x, l. simpl. auto.
  - exists (x :: l1), r, l2. simpl. repeat split; [| exact H2].
    constructor; [exact Hr | exact H1].
Qed.

End Matcher.

(** C8: [find_best_agent] returns none exactly when no agent passes the
    availability filter (the candidate list is empty); otherwise it returns
    a candidate [(i, a)] of the highest score, and every candidate standing
    before it in the roster has a strictly lower score, so that among the
    candidates that tie for the highest score the first in roster order is
    returned. *)
Theorem C8_find_best_agent_first_highest :
  forall (s : State) (query : EscalatedQuery),
    (find_best_agent s query = None <-> available_agents s = [])
    /\ (forall i a,
          find_best_agent s query = Some (i, a) ->
          In (i, a) (available_agents s)
          /\ forall j b,
               In (j, b) (available_agents s) ->
               (agent_score query b <= agent_score query a)%Q
               /\ ((j < i)%nat ->
                   (agent_score query b < agent_score query a)%Q)).
Proof.
  intros s query.
  assert (HNone : find_best_agent s query = None <-> available_agents s = []).
  { split.
    - intros HN. destruct (available_agents s) as [|x l] eqn:E; [reflexivity|].
      destruct (find_best_agent_split query s) as (l1 & r & l2 & Hr & _);
        [rewrite E; discriminate | congruence].
    - intros E. unfold find_best_agent. now rewrite E. }
  split; [exact HNone|].
  intros i a Hfind.
  destruct (find_best_agent_split query s) as (l1 & r & l2 & Hr & E & H1 & H2).
  { intros E. apply HNone in E. congruence. }
  assert (r = (i, a)) by congruence. subst r.
  split; [rewrite E; apply in_or_app; right; now left|].
  intros j b Hin.
  unfold available_agents in E.
  destruct (filter_split _ _ _ _ _ E) as (l1' & l2' & Henum & <- & <-).
  destruct (enumerate_from_split _ _ _ _ _ _ Henum) as [Hbefore Hafter].
  rewrite List.Forall_forall in H1, H2.
  unfold available_agents in Hin. rewrite Henum in Hin.
  rewrite List.filter_app in Hin. simpl in Hin.
  apply in_app_or in Hin as [Hin | Hin].
  - specialize (H1 _ Hin). simpl in H1. split; [lra | intros _; exact H1].
  - destruct (is_available a) eqn:Hav.
    + destruct Hin as [Eq | Hin].
      * inversion Eq; subst. split; [lra | lia].
      * specialize (H2 _ Hin). simpl in H2. split; [exact H2|].
        apply filter_In in Hin as [Hin _]. apply Hafter in Hin. lia.
    + specialize (H2 _ Hin). simpl in H2. split; [exact H2|].
      apply filter_In in Hin as [Hin _]. apply Hafter in Hin. lia.
Qed.

(** C2, as the code has it: with the two candidates A (expertise
    {sales}) and B (expertise {sales, finance}), both [AVAILABLE] with no
    chat out of five, and an item of reason PRICE_NEGOTIATION and priority 2
    that carries no [language] attribute, [find_best_agent] returns A.
    Neither "price" nor "negotiation" is in either expertise list, so both
    expertise scores are 0, the two total scores are equal, and the first
    candidate keeps the tie. *)
Theorem C2_tie_goes_to_first_agent :
  forall (A B : HumanAgent) (item : EscalatedQuery)
         (queries : list EscalatedQuery) (th : Thresholds) (k : nat),
    expertise A = ["sales"] -> a_status A = AVAILABLE ->
    current_chats A = 0 -> max_chats A = 5 ->
    expertise B = ["sales"; "finance"] -> a_status B = AVAILABLE ->
    current_chats B = 0 -> max_chats B = 5 ->
    reason item = PRICE_NEGOTIATION -> priority item = 2 ->
    q_language item = None ->
    find_best_agent (mk_state [A; B] queries th k) item = Some (0%nat, A)
    /\ (expertise_score item A == 0)%Q
    /\ (expertise_score item B == 0)%Q
    /\ (agent_score item A == agent_score item B)%Q.
Proof.
  intros A B item queries th k.
  destruct A, B, item; simpl; intros; subst.
  repeat split; vm_compute; reflexivity.
Qed.

Lemma find_best_agent_In (s : State) (query : EscalatedQuery) (i : nat)
    (a : HumanAgent) :
  find_best_agent s query = Some (i, a) -> In (i, a) (available_agents s).
Proof.
  intros Hfind.
  destruct (available_agents s) as [|x l] eqn:E.
  - unfold find_best_agent in Hfind. rewrite E in Hfind. discriminate.
  - destruct (find_best_agent_split query s) as (l1 & r & l2 & Hr & E' & _).
    + rewrite E. discriminate.
    + rewrite <- E, E'. apply in_or_app. right. left. congruence.
Qed.

Lemma find_best_agent_available (s : State) (query : EscalatedQuery) (i : nat)
    (a : HumanAgent) :
  find_best_agent s query = Some (i, a) ->
  agents s !! i = Some a
  /\ a_status a = AVAILABLE /\ current_chats a < max_chats a.
Proof.
  intros H. apply find_best_agent_In, In_available_agents in H as [Hi Hav].
  unfold is_available in Hav. apply andb_true_iff in Hav as [Hst Hlt].
  apply Z.ltb_lt in Hlt. destruct (a_status a); try discriminate. auto.
Qed.

(** *** The effect of each operation on the state *)

Section Engine.

Variable now : nat -> Py.datetime.
Variable notify_raises : HumanAgent -> EscalatedQuery -> bool.

Lemma escalate_query_state (s : State) (c q : string) (r : EscalationReason)
    (p : Z) (l : string) :
  snd (escalate_query now s c q r p l)
  = mk_state (agents s) (escalated_queries s ++ [escalated now s c q r p])%list
             (complexity_thresholds s) (S (S (clock_reads s))).
Proof.
  unfold escalate_query, escalated. simpl.
  destruct (get_estimated_wait_time _); reflexivity.
Qed.

Lemma assign_query_to_agent_state (s : State) (qi ai : nat)
    (query : EscalatedQuery) (agent : HumanAgent) :
  escalated_queries s !! qi = Some query ->
  agents s !! ai = Some agent ->
  snd (assign_query_to_agent now notify_raises s qi ai)
  = mk_state (<[ai := take_chat (now (S (clock_reads s))) agent]> (agents s))
             (<[qi := mark_assigned agent (now (clock_reads s)) query]>
                (escalated_queries s))
             (complexity_thresholds s) (S (S (clock_reads s))).
Proof.
  intros Hq Ha. unfold assign_query_to_agent. rewrite Hq, Ha.
  destruct (notify_raises _ _); reflexivity.
Qed.

(** One iteration of the assignment pass either leaves the state as it is
    (no candidate) or commits an assignment to an agent that passed the
    availability filter. *)
Lemma assign_one_cases (s : State) (qi : nat) :
  assign_one now notify_raises s qi = s
  \/ exists query ai agent,
       escalated_queries s !! qi = Some query
       /\ find_best_agent s query = Some (ai, agent)
       /\ agents s !! ai = Some agent
       /\ assign_one now notify_raises s qi
          = mk_state (<[ai := take_chat (now (S (clock_reads s))) agent]> (agents s))
                     (<[qi := mark_assigned agent (now (clock_reads s)) query]>
                        (escalated_queries s))
                     (complexity_thresholds s) (S (S (clock_reads s))).
Proof.
  unfold assign_one.
  destruct (escalated_queries s !! qi) as [query|] eqn:Hq; [|now left].
  destruct (find_best_agent s query) as [[ai agent]|] eqn:Hf; [|now left].
  right. exists query, ai, agent.
  pose proof (find_best_agent_available _ _ _ _ Hf) as [Ha _].
  repeat split; try assumption.
  now apply assign_query_to_agent_state.
Qed.

Lemma resolve_query_state (s : State) (query_id response : string) :
  resolve_query now s query_id response = (false, s)
  \/ exists queries' aid,
       resolve_loop query_id (now (clock_reads s)) (escalated_queries s)
       = Some (queries', aid)
       /\ resolve_query now s query_id response
          = (true, mk_state (release_agent aid (agents s)) queries'
                            (complexity_thresholds s) (S (clock_reads s))).
Proof.
  unfold resolve_query.
  destruct (resolve_loop _ _ _) as [[queries' aid]|]; [right|left]; eauto.
Qed.

Lemma update_agent_status_state (s : State) (agent_id : string)
    (status : AgentStatus) :
  update_agent_status now s agent_id status = (false, s)
  \/ exists agents',
       update_loop agent_id status (now (clock_reads s)) (agents s)
       = Some agents'
       /\ update_agent_status now s agent_id status
          = (true, mk_state agents' (escalated_queries s)
                            (complexity_thresholds s) (S (clock_reads s))).
Proof.
  unfold update_agent_status.
  destruct (update_loop _ _ _ _) as [agents'|]; [right|left]; eauto.
Qed.

(** *** Invariants of the reachable states *)

Lemma fold_assign_one_invariant (P : State -> Prop) :
  (forall s qi, P s -> P (assign_one now notify_raises s qi)) ->
  forall (l : list nat) (s : State),
    P s -> P (fold_left (assign_one now notify_raises) l s).
Proof.
  intros Hstep l. induction l as [|qi l IH]; intros s Hs; simpl; auto.
Qed.

Lemma run_invariant (P : State -> Prop) :
  (forall s op, P s -> P (step now notify_raises s op)) ->
  forall (ops : list Op) (s : State), P s -> P (run now notify_raises ops s).
Proof.
  intros Hstep ops. unfold run.
  induction ops as [|op ops IH]; intros s Hs; simpl; auto.
Qed.

Lemma release_agent_Forall (P : HumanAgent -> Prop) (aid : string)
    (l : list HumanAgent) :
  (forall a, P a -> P (drop_chat a)) ->
  Forall P l -> Forall P (release_agent aid l).
Proof.
  intros Hdrop. induction 1 as [|a l Ha Hl IH]; simpl; [constructor|].
  destruct (String.eqb (a_id a) aid); constructor; auto.
Qed.

Lemma update_loop_Forall (P : HumanAgent -> Prop) (aid : string)
    (st : AgentStatus) (t : Py.datetime) (l l' : list HumanAgent) :
  (forall a, P a -> P (set_status st t a)) ->
  update_loop aid st t l = Some l' -> Forall P l -> Forall P l'.
Proof.
  intros Hset. revert l'. induction l as [|a l IH]; intros l' E Hl; simpl in E.
  - discriminate.
  - inversion Hl; subst.
    destruct (String.eqb (a_id a) aid).
    + inversion E; subst. constructor; auto.
    + destruct (update_loop aid st t l) as [rest|]; [|discriminate].
      inversion E; subst. constructor; auto.
Qed.

Lemma step_agents_Forall (P : HumanAgent -> Prop) (s : State) (op : Op) :
  agent_update_closed P ->
  Forall P (agents s) -> Forall P (agents (step now notify_raises s op)).
Proof.
  intros (Htake & Hdrop & Hset) Hs. destruct op as [c q r p l | | i r | i st]; simpl.
  - now rewrite escalate_query_state.
  - unfold assign_pending_queries.
    apply (fold_assign_one_invariant (fun s => Forall P (agents s))); [|exact Hs].
    clear s Hs. intros s qi Hs.
    destruct (assign_one_cases s qi) as [-> | (query & ai & agent & _ & Hf & Ha & ->)];
      [exact Hs|]. simpl.
    apply Forall_insert; [exact Hs|].
    apply Htake.
    + rewrite List.Forall_forall in Hs. apply Hs, list_elem_of_In.
      eapply list_elem_of_lookup_2; exact Ha.
    + now apply find_best_agent_available in Hf.
  - destruct (resolve_query_state s i r) as [-> | (qs & aid & _ & ->)];
      [exact Hs|]. simpl. now apply release_agent_Forall.
  - destruct (update_agent_status_state s i st) as [-> | (ags & E & ->)];
      [exact Hs|]. simpl. eapply update_loop_Forall; eauto.
Qed.

Lemma run_agents_Forall (P : HumanAgent -> Prop) :
  agent_update_closed P ->
  Forall P (agents (initial_state now)) ->
  forall ops, Forall P (agents (run now notify_raises ops (initial_state now))).
Proof.
  intros Hclosed Hinit ops.
  apply (run_invariant (fun s => Forall P (agents s))); [|exact Hinit].
  intros s op. now apply step_agents_Forall.
Qed.

Lemma load_ok_closed : agent_update_closed load_ok.
Proof.
  unfold agent_update_closed, load_ok. repeat split; simpl; intros; lia.
Qed.

(** C5: in every state reached from the initial roster by a finite
    sequence of escalations, assignment passes, resolutions and status
    updates, every agent has 0 <= current_chats <= max_chats; a chat is
    only given to an agent with current_chats < max_chats, and giving one
    back decrements the count with a floor at 0. *)
Theorem C5_load_within_capacity :
  forall ops : list Op,
    Forall (fun a => 0 <= current_chats a <= max_chats a)
           (agents (run now notify_raises ops (initial_state now)))
    /\ (forall s query i a,
          find_best_agent s query = Some (i, a) ->
          current_chats a < max_chats a)
    /\ (forall a, current_chats (drop_chat a)
                  = Z.max 0 (current_chats a - 1)).
Proof.
  intros ops. split; [|split].
  - apply (run_agents_Forall load_ok load_ok_closed).
    unfold load_ok. repeat constructor; simpl; lia.
  - intros s query i a H. now apply find_best_agent_available in H.
  - reflexivity.
Qed.

Lemma resolve_loop_Forall (Q : EscalatedQuery -> Prop) (query_id : string)
    (t : Py.datetime) (l l' : list EscalatedQuery) (aid : string) :
  (forall q, Q q -> Q (mark_resolved t q)) ->
  resolve_loop query_id t l = Some (l', aid) -> Forall Q l -> Forall Q l'.
Proof.
  intros Hres. revert l'. induction l as [|q l IH]; intros l' E Hl; simpl in E.
  - discriminate.
  - inversion Hl; subst.
    destruct (String.eqb (q_id q) query_id).
    + inversion E; subst. constructor; auto.
    + destruct (resolve_loop query_id t l) as [[rest aid']|]; [|discriminate].
      inversion E; subst. constructor; auto.
Qed.

Lemma step_queries_Forall (Q : EscalatedQuery -> Prop) (s : State) (op : Op) :
  query_update_closed Q ->
  Forall Q (escalated_queries s) ->
  Forall Q (escalated_queries (step now notify_raises s op)).
Proof.
  intros (Hnew & Hassign & Hres) Hs.
  destruct op as [c q r p l | | i r | i st]; simpl.
  - rewrite escalate_query_state. simpl.
    apply Forall_app. split; [exact Hs|]. constructor; [apply Hnew | constructor].
  - unfold assign_pending_queries.
    apply (fold_assign_one_invariant (fun s => Forall Q (escalated_queries s)));
      [|exact Hs].
    clear s Hs. intros s qi Hs.
    destruct (assign_one_cases s qi) as [-> | (query & ai & agent & Hq & _ & _ & ->)];
      [exact Hs|]. simpl.
    apply Forall_insert; [exact Hs|]. apply Hassign.
    rewrite List.Forall_forall in Hs. apply Hs, list_elem_of_In.
    eapply list_elem_of_lookup_2; exact Hq.
  - destruct (resolve_query_state s i r) as [-> | (qs & aid & E & ->)];
      [exact Hs|]. simpl. eapply resolve_loop_Forall; eauto.
  - destruct (update_agent_status_state s i st) as [-> | (ags & E & ->)];
      exact Hs.
Qed.

Lemma run_queries_Forall (Q : EscalatedQuery -> Prop) :
  query_update_closed Q ->
  forall ops,
    Forall Q (escalated_queries (run now notify_raises ops (initial_state now))).
Proof.
  intros Hclosed ops.
  apply (run_invariant (fun s => Forall Q (escalated_queries s)));
    [|constructor].
  intros s op. now apply step_queries_Forall.
Qed.

(** C10: whatever [language] argument [escalate_query] is called with, the
    record it stores carries no [language] attribute; no later operation
    adds one, so in every reachable state no stored query has it, and the
    matcher's language bonus is 0 for every stored query and every agent. *)
Theorem C10_language_never_stored :
  (forall (s : State) (customer_id query : string) (reason : EscalationReason)
          (priority : Z) (language : string),
      exists stored,
        escalated_queries (snd (escalate_query now s customer_id query reason
                                               priority language))
        = (escalated_queries s ++ [stored])%list
        /\ q_language stored = None
        /\ forall agent,
             agent_score stored agent
             = (expertise_score stored agent + 0 + priority_score stored
                + capacity_score agent)%Q)
  /\ (forall (ops : list Op) (stored : EscalatedQuery),
        In stored (escalated_queries
                     (run now notify_raises ops (initial_state now))) ->
        q_language stored = None
        /\ forall agent, language_score stored agent = 0%Q).
Proof.
  split.
  - intros s c q r p l. exists (escalated now s c q r p).
    rewrite escalate_query_state. simpl. repeat split.
  - intros ops stored Hin.
    assert (H : q_language stored = None).
    { pose proof (run_queries_Forall (fun q => q_language q = None)) as Hall.
      specialize (Hall ltac:(repeat split; auto) ops).
      rewrite List.Forall_forall in Hall. now apply Hall. }
    split; [exact H|].
    intros agent. unfold language_score. now rewrite H.
Qed.

(** *** Identifiers and loops that search by identifier *)

Lemma map_insert_same {A B : Type} (f : A -> B) (l : list A) (i : nat) (x y : A) :
  l !! i = Some y -> f x = f y -> map f (<[i := x]> l) = map f l.
Proof.
  revert i. induction l as [|z l IH]; intros i Hi Hf; [reflexivity|].
  destruct i as [|i]; simpl in *.
  - inversion Hi; subst. now rewrite Hf.
  - f_equal. now apply IH.
Qed.

Lemma release_agent_ids (aid : string) (l : list HumanAgent) :
  map a_id (release_agent aid l) = map a_id l.
Proof.
  induction l as [|a l IH]; simpl; [reflexivity|].
  destruct (String.eqb (a_id a) aid); simpl; [reflexivity | now rewrite IH].
Qed.

Lemma update_loop_ids (aid : string) (st : AgentStatus) (t : Py.datetime)
    (l l' : list HumanAgent) :
  update_loop aid st t l = Some l' -> map a_id l' = map a_id l.
Proof.
  revert l'. induction l as [|a l IH]; intros l' E; simpl in E; [discriminate|].
  destruct (String.eqb (a_id a) aid).
  - inversion E; subst. reflexivity.
  - destruct (update_loop aid st t l) as [rest|]; [|discriminate].
    inversion E; subst. simpl. f_equal. now apply IH.
Qed.

Lemma assign_one_agent_ids (s : State) (qi : nat) :
  map a_id (agents (assign_one now notify_raises s qi)) = map a_id (agents s).
Proof.
  destruct (assign_one_cases s qi) as [-> | (query & ai & agent & _ & _ & Ha & ->)];
    [reflexivity|].
  simpl. now apply (map_insert_same a_id _ _ _ agent).
Qed.

(** The identifiers of the roster never change. *)
Lemma step_agent_ids (s : State) (op : Op) :
  map a_id (agents (step now notify_raises s op)) = map a_id (agents s).
Proof.
  destruct op as [c q r p l | | i r | i st]; simpl.
  - now rewrite escalate_query_state.
  - unfold assign_pending_queries.
    apply (fold_assign_one_invariant
             (fun s' => map a_id (agents s') = map a_id (agents s)));
      [|reflexivity].
    intros s' qi E. now rewrite assign_one_agent_ids.
  - destruct (resolve_query_state s i r) as [-> | (qs & aid & _ & ->)];
      [reflexivity|]. simpl. apply release_agent_ids.
  - destruct (update_agent_status_state s i st) as [-> | (ags & E & ->)];
      [reflexivity|]. simpl. eapply update_loop_ids; eauto.
Qed.

Lemma run_agent_ids (ops : list Op) :
  map a_id (agents (run now notify_raises ops (initial_state now)))
  = ["agent_1"; "agent_2"; "agent_3"; "agent_4"].
Proof.
  apply (run_invariant
           (fun s => map a_id (agents s)
                     = ["agent_1"; "agent_2"; "agent_3"; "agent_4"]));
    [|reflexivity].
  intros s op E. now rewrite step_agent_ids.
Qed.

(** A query that is still pending has never been given an agent. *)
Lemma run_pending_unassigned (ops : list Op) (q : EscalatedQuery) :
  In q (escalated_queries (run now notify_raises ops (initial_state now))) ->
  q_status q = "pending" -> agent_id q = "".
Proof.
  intros Hin.
  pose proof (run_queries_Forall
                (fun q => q_status q = "pending" -> agent_id q = "")) as Hall.
  assert (Hc : query_update_closed
                 (fun q => q_status q = "pending" -> agent_id q = "")).
  { repeat split; simpl; intros; try reflexivity; discriminate. }
  specialize (Hall Hc ops). rewrite List.Forall_forall in Hall. now apply Hall.
Qed.

Lemma resolve_loop_found (query_id : string) (t : Py.datetime)
    (l : list EscalatedQuery) (i : nat) (q : EscalatedQuery) :
  l !! i = Some q -> q_id q = query_id ->
  (forall j q', (j < i)%nat -> l !! j = Some q' -> q_id q' <> query_id) ->
  resolve_loop query_id t l = Some (<[i := mark_resolved t q]> l, agent_id q).
Proof.
  revert i. induction l as [|x l IH]; intros i Hi Hid Hfirst; [discriminate|].
  destruct i as [|i]; simpl in *.
  - inversion Hi; subst. now rewrite String.eqb_refl.
  - destruct (String.eqb (q_id x) query_id) eqn:E.
    + apply String.eqb_eq in E. exfalso.
      apply (Hfirst 0%nat x); [lia | reflexivity | exact E].
    + rewrite (IH i Hi Hid); [reflexivity|].
      intros j q' Hj Hq'. apply (Hfirst (S j) q'); [lia | exact Hq'].
Qed.

Lemma resolve_loop_not_found (query_id : string) (t : Py.datetime)
    (l : list EscalatedQuery) :
  (forall q, In q l -> q_id q <> query_id) -> resolve_loop query_id t l = None.
Proof.
  induction l as [|x l IH]; intros H; simpl; [reflexivity|].
  destruct (String.eqb (q_id x) query_id) eqn:E.
  - apply String.eqb_eq in E. exfalso. apply (H x); [now left | exact E].
  - rewrite IH; [reflexivity|]. intros q Hq. apply H. now right.
Qed.

Lemma release_agent_no_match (aid : string) (l : list HumanAgent) :
  ~ In aid (map a_id l) -> release_agent aid l = l.
Proof.
  induction l as [|a l IH]; intros H; simpl in *; [reflexivity|].
  destruct (String.eqb (a_id a) aid) eqn:E.
  - apply String.eqb_eq in E. tauto.
  - rewrite IH; [reflexivity | tauto].
Qed.

(** C3, as the code has it: [resolve_query] checks no status.  In a
    reachable state, when the first item of the queue that carries the id is
    pending, the call succeeds: it returns [True], marks that item resolved
    with the resolution time, and leaves every agent, hence every
    [current_chats], as it was; when no item carries the id, it returns
    [False] and changes nothing. *)
Theorem C3_resolve_pending_succeeds :
  forall (ops : list Op) (query_id response : string),
    let s := run now notify_raises ops (initial_state now) in
    (forall i q,
        escalated_queries s !! i = Some q -> q_id q = query_id ->
        (forall j q', (j < i)%nat -> escalated_queries s !! j = Some q' ->
                      q_id q' <> query_id) ->
        q_status q = "pending" ->
        resolve_query now s query_id response
        = (true,
           mk_state (agents s)
                    (<[i := mark_resolved (now (clock_reads s)) q]>
                       (escalated_queries s))
                    (complexity_thresholds s) (S (clock_reads s))))
    /\ ((forall q, In q (escalated_queries s) -> q_id q <> query_id) ->
        resolve_query now s query_id response = (false, s)).
Proof.
  intros ops query_id response s. split.
  - intros i q Hi Hid Hfirst Hpending.
    unfold resolve_query.
    rewrite (resolve_loop_found _ _ _ _ _ Hi Hid Hfirst).
    assert (Haid : agent_id q = "").
    { apply (run_pending_unassigned ops); [|exact Hpending].
      apply list_elem_of_In. eapply list_elem_of_lookup_2; exact Hi. }
    rewrite Haid, release_agent_no_match; [reflexivity|].
    unfold s. rewrite run_agent_ids. simpl.
    intros [H|[H|[H|[H|[]]]]]; discriminate.
  - intros Hnone. unfold resolve_query.
    now rewrite resolve_loop_not_found.
Qed.

(** *** Assignment and notification *)

(** C4, as the code has it: [assign_query_to_agent] has no rollback.  For
    an item of the queue and the agent the matcher proposes for it (which
    has spare capacity), the call marks the item assigned to that agent and
    increments the agent's [current_chats], in this order and before the
    notification; when the notification raises, the exception is caught and
    the result is [False], but both mutations stay: the item is assigned
    and the load is one above its value before the pass.  In both outcomes
    the item is marked assigned and the agent's count is incremented
    together, and the assignment pass keeps that state. *)
Theorem C4_assignment_is_not_rolled_back :
  forall (s : State) (qi : nat) (query : EscalatedQuery) (ai : nat)
         (agent : HumanAgent),
    escalated_queries s !! qi = Some query ->
    find_best_agent s query = Some (ai, agent) ->
    let query' := mark_assigned agent (now (clock_reads s)) query in
    let agent' := take_chat (now (S (clock_reads s))) agent in
    let r := assign_query_to_agent now notify_raises s qi ai in
    fst r = negb (notify_raises agent' query')
    /\ escalated_queries (snd r) !! qi = Some query'
    /\ q_status query' = "assigned" /\ agent_id query' = a_id agent
    /\ agents (snd r) !! ai = Some agent'
    /\ current_chats agent' = current_chats agent + 1
    /\ current_chats agent < max_chats agent
    /\ assign_one now notify_raises s qi = snd r.
Proof.
  intros s qi query ai agent Hq Hf query' agent' r.
  destruct (find_best_agent_available _ _ _ _ Hf) as (Ha & _ & Hcap).
  assert (Hs : snd r = mk_state (<[ai := agent']> (agents s))
                                (<[qi := query']> (escalated_queries s))
                                (complexity_thresholds s)
                                (S (S (clock_reads s))))
    by now apply assign_query_to_agent_state.
  repeat split.
  - unfold r, assign_query_to_agent. rewrite Hq, Ha.
    fold query' agent'. now destruct (notify_raises agent' query').
  - rewrite Hs. simpl. apply list_lookup_insert_eq.
    eapply lookup_lt_Some; exact Hq.
  - rewrite Hs. simpl. apply list_lookup_insert_eq.
    eapply lookup_lt_Some; exact Ha.
  - exact Hcap.
  - unfold assign_one. now rewrite Hq, Hf.
Qed.

(** *** The round trip: escalate, assign, resolve *)

Lemma enumerate_from_app {A : Type} (k : nat) (l : list A) (x : A) :
  Py.enumerate_from k (l ++ [x])
  = (Py.enumerate_from k l ++ [((k + List.length l)%nat, x)])%list.
Proof.
  revert k. induction l as [|y l IH]; intros k; simpl.
  - now rewrite Nat.add_0_r.
  - rewrite IH. now rewrite Nat.add_succ_r.
Qed.

Lemma pending_queries_snoc (ags : list HumanAgent) (qs : list EscalatedQuery)
    (q : EscalatedQuery) (th th' : Thresholds) (k k' : nat) :
  is_pending q = true ->
  pending_queries (mk_state ags (qs ++ [q]) th k)
  = (pending_queries (mk_state ags qs th' k') ++ [List.length qs])%list.
Proof.
  intros Hq. unfold pending_queries, Py.enumerate. simpl.
  rewrite enumerate_from_app, List.filter_app, map_app. simpl.
  now rewrite Hq.
Qed.

Lemma pending_queries_lt (s : State) (i : nat) :
  In i (pending_queries s) -> (i < List.length (escalated_queries s))%nat.
Proof.
  unfold pending_queries. rewrite in_map_iff.
  intros ([j q] & <- & Hin). apply filter_In in Hin as [Hin _].
  apply In_enumerate in Hin. simpl. eapply lookup_lt_Some; exact Hin.
Qed.

Lemma assign_one_other (s : State) (qi n : nat) :
  qi <> n ->
  escalated_queries (assign_one now notify_raises s qi) !! n
  = escalated_queries s !! n.
Proof.
  intros Hne.
  destruct (assign_one_cases s qi) as [-> | (query & ai & agent & _ & _ & _ & ->)];
    [reflexivity|].
  simpl. now apply list_lookup_insert_ne.
Qed.

Lemma assign_one_query_ids (s : State) (qi : nat) :
  map q_id (escalated_queries (assign_one now notify_raises s qi))
  = map q_id (escalated_queries s).
Proof.
  destruct (assign_one_cases s qi) as [-> | (query & ai & agent & Hq & _ & _ & ->)];
    [reflexivity|].
  simpl. now apply (map_insert_same q_id _ _ _ query).
Qed.

(** What the assignment pass keeps while it handles the items [l], none
    of which is the item at position [n]. *)
Lemma fold_assign_one_frame (l : list nat) (n : nat) (s : State) :
  ~ In n l ->
  let s' := fold_left (assign_one now notify_raises) l s in
  escalated_queries s' !! n = escalated_queries s !! n
  /\ map q_id (escalated_queries s') = map q_id (escalated_queries s)
  /\ map a_id (agents s') = map a_id (agents s)
  /\ (Forall load_ok (agents s) -> Forall load_ok (agents s')).
Proof.
  revert s. induction l as [|qi l IH]; intros s Hn; simpl; [auto|].
  destruct (IH (assign_one now notify_raises s qi)) as (H1 & H2 & H3 & H4);
    [simpl in Hn; tauto|].
  rewrite H1, H2, H3, assign_one_other, assign_one_query_ids,
    assign_one_agent_ids by (simpl in Hn; tauto).
  repeat split. intros Hs. apply H4.
  destruct (assign_one_cases s qi) as [-> | (query & ai & agent & _ & Hf & Ha & ->)];
    [exact Hs|]. simpl.
  apply Forall_insert; [exact Hs|].
  apply load_ok_closed.
  - rewrite List.Forall_forall in Hs. apply Hs, list_elem_of_In.
    eapply list_elem_of_lookup_2; exact Ha.
  - now apply find_best_agent_available in Hf.
Qed.

Lemma release_agent_at (l : list HumanAgent) (i : nat) (a : HumanAgent) :
  NoDup (map a_id l) -> l !! i = Some a ->
  release_agent (a_id a) l = <[i := drop_chat a]> l.
Proof.
  revert i. induction l as [|x l IH]; intros i Hnd Hi; [discriminate|].
  simpl in Hnd. apply NoDup_cons in Hnd as [Hx Hnd].
  destruct i as [|i]; simpl in *.
  - inversion Hi; subst. now rewrite String.eqb_refl.
  - destruct (String.eqb (a_id x) (a_id a)) eqn:E.
    + apply String.eqb_eq in E. exfalso. apply Hx. rewrite E.
      apply list_elem_of_In, in_map, list_elem_of_In.
      eapply list_elem_of_lookup_2; exact Hi.
    + f_equal. now apply IH.
Qed.

Lemma map_insert {A B : Type} (f : A -> B) (l : list A) (i : nat) (x : A) :
  map f (<[i := x]> l) = <[i := f x]> (map f l).
Proof.
  revert i. induction l as [|y l IH]; intros i; [reflexivity|].
  destruct i as [|i]; simpl; [reflexivity | now rewrite IH].
Qed.

Lemma lookup_map {A B : Type} (f : A -> B) (l : list A) (i : nat) :
  map f l !! i = option_map f (l !! i).
Proof.
  revert i. induction l as [|x l IH]; intros [|i]; simpl; auto.
Qed.

Lemma roster_ids_NoDup :
  NoDup ["agent_1"; "agent_2"; "agent_3"; "agent_4"].
Proof.
  repeat (apply NoDup_cons; split;
          [rewrite list_elem_of_In; simpl; intuition discriminate|]).
  apply NoDup_nil. exact I.
Qed.

(** X26: the round trip of an item whose id is new.  From a reachable
    state, escalate an item whose id no item of the queue carries yet, run
    one assignment pass and, when the pass has assigned the item, resolve
    its id.  Let [s_pre] be the state of
    the pass just before it handles the new item (after the items that were
    already pending).  Then the matcher proposed an agent in [s_pre], the
    pass incremented that agent's [current_chats] and no other, the
    resolution succeeds and leaves the item resolved, and afterwards every
    agent's [current_chats] is what it was in [s_pre]; when nothing else was
    pending, that is its value before the escalation. *)
Theorem X26_round_trip_restores_load :
  forall (ops : list Op) (c q : string) (r : EscalationReason) (p : Z)
         (lang response : string),
    let s := run now notify_raises ops (initial_state now) in
    let n := List.length (escalated_queries s) in
    let id := "ESC_" ++ Py.strftime_YmdHMS (now (clock_reads s)) in
    let s1 := snd (escalate_query now s c q r p lang) in
    let s_pre := fold_left (assign_one now notify_raises) (pending_queries s) s1 in
    let s2 := assign_pending_queries now notify_raises s1 in
    let s3 := snd (resolve_query now s2 id response) in
    (forall q', In q' (escalated_queries s) -> q_id q' <> id) ->
    option_map q_status (escalated_queries s2 !! n) = Some "assigned" ->
    exists ai agent,
      find_best_agent s_pre (escalated now s c q r p) = Some (ai, agent)
      /\ s2 = snd (assign_query_to_agent now notify_raises s_pre n ai)
      /\ map current_chats (agents s2)
         = <[ai := current_chats agent + 1]> (map current_chats (agents s_pre))
      /\ fst (resolve_query now s2 id response) = true
      /\ option_map q_status (escalated_queries s3 !! n) = Some "resolved"
      /\ map current_chats (agents s3) = map current_chats (agents s_pre)
      /\ (pending_queries s = [] ->
          map current_chats (agents s3) = map current_chats (agents s)).
Proof.
  intros ops c q r p lang response s n id s1 s_pre s2 s3 Hfresh Hassigned.
  set (newq := escalated now s c q r p) in *.
  assert (Hs1 : s1 = mk_state (agents s) (escalated_queries s ++ [newq])%list
                              (complexity_thresholds s) (S (S (clock_reads s))))
    by apply escalate_query_state.
  assert (Hpend : pending_queries s1 = (pending_queries s ++ [n])%list).
  { rewrite Hs1.
    apply (pending_queries_snoc _ _ _ _ (complexity_thresholds s) _ (clock_reads s)).
    reflexivity. }
  assert (Hs2 : s2 = assign_one now notify_raises s_pre n).
  { unfold s2, assign_pending_queries. rewrite Hpend, fold_left_app. reflexivity. }
  assert (Hn : ~ In n (pending_queries s)).
  { intros Hin. apply pending_queries_lt in Hin. unfold n in Hin. lia. }
  destruct (fold_assign_one_frame _ _ s1 Hn) as (Hq & Hqids & Haids & Hload).
  fold s_pre in Hq, Hqids, Haids, Hload.
  assert (Hnew : escalated_queries s_pre !! n = Some newq).
  { rewrite Hq, Hs1. simpl. apply list_lookup_middle. reflexivity. }
  assert (Hids : map a_id (agents s_pre)
                 = ["agent_1"; "agent_2"; "agent_3"; "agent_4"]).
  { rewrite Haids, Hs1. simpl. apply run_agent_ids. }
  assert (Hok : Forall load_ok (agents s_pre)).
  { apply Hload. rewrite Hs1. simpl.
    apply (run_agents_Forall load_ok load_ok_closed).
    unfold load_ok. repeat constructor; simpl; lia. }
  destruct (assign_one_cases s_pre n)
    as [E | (query & ai & agent & Hq' & Hf & Ha & E)]; rewrite <- Hs2 in E.
  { rewrite E, Hnew in Hassigned. discriminate. }
  rewrite Hnew in Hq'. inversion Hq'; subst query. clear Hq'.
  set (tc := take_chat (now (S (clock_reads s_pre))) agent) in *.
  set (ma := mark_assigned agent (now (clock_reads s_pre)) newq) in *.
  assert (Hlen : (n < List.length (escalated_queries s_pre))%nat)
    by (eapply lookup_lt_Some; exact Hnew).
  assert (Hres : resolve_query now s2 id response
                 = (true,
                    mk_state (<[ai := drop_chat tc]> (agents s_pre))
                             (<[n := mark_resolved (now (clock_reads s2)) ma]>
                                (escalated_queries s_pre))
                             (complexity_thresholds s2) (S (clock_reads s2)))).
  { unfold resolve_query.
    rewrite (resolve_loop_found id _ (escalated_queries s2) n ma).
    - replace (agent_id ma) with (a_id tc) by reflexivity.
      rewrite (release_agent_at (agents s2) ai tc).
      + rewrite E. simpl. now rewrite !list_insert_insert_eq.
      + rewrite E. simpl.
        rewrite (map_insert_same a_id _ _ _ agent) by auto.
        rewrite Hids. apply roster_ids_NoDup.
      + rewrite E. simpl. apply list_lookup_insert_eq.
        eapply lookup_lt_Some; exact Ha.
    - rewrite E. simpl. now apply list_lookup_insert_eq.
    - reflexivity.
    - intros j q' Hj Hq'. rewrite E in Hq'. simpl in Hq'.
      rewrite list_lookup_insert_ne in Hq' by lia.
      assert (Hj' : map q_id (escalated_queries s_pre) !! j = Some (q_id q'))
        by (rewrite lookup_map, Hq'; reflexivity).
      rewrite Hqids, Hs1 in Hj'. simpl in Hj'.
      rewrite map_app, lookup_app_l in Hj' by (rewrite length_map; exact Hj).
      rewrite lookup_map in Hj'.
      destruct (escalated_queries s !! j) as [q''|] eqn:Hq''; [|discriminate].
      simpl in Hj'. injection Hj' as Hid. rewrite <- Hid.
      apply Hfresh, list_elem_of_In. eapply list_elem_of_lookup_2; exact Hq''. }
  assert (Hcur : 0 <= current_chats agent).
  { rewrite List.Forall_forall in Hok.
    apply (Hok agent), list_elem_of_In. eapply list_elem_of_lookup_2; exact Ha. }
  assert (Hback : map current_chats (agents s3) = map current_chats (agents s_pre)).
  { unfold s3. rewrite Hres. simpl.
    apply (map_insert_same current_chats _ _ _ agent); [exact Ha|].
    simpl. lia. }
  exists ai, agent. repeat split.
  - exact Hf.
  - rewrite E. symmetry. now apply assign_query_to_agent_state.
  - rewrite E. simpl. now rewrite map_insert.
  - now rewrite Hres.
  - unfold s3. rewrite Hres. simpl.
    now rewrite list_lookup_insert_eq.
  - exact Hback.
  - intros Hnone. rewrite Hback. unfold s_pre. rewrite Hnone, Hs1. reflexivity.
Qed.

End Engine.

(** *** binary64: the estimator's arithmetic stays finite *)

Module F64Facts.

Lemma digits2_pos_size (p : positive) : digits2_pos p = Pos.size p.
Proof. induction p; simpl; congruence. Qed.

Lemma Zdigits2_nonneg (m : Z) : 0 <= Zdigits2 m.
Proof. destruct m; simpl; lia. Qed.

Lemma Zdigits2_lt_pow (m : Z) : 0 <= m -> m < 2 ^ Zdigits2 m.
Proof.
  destruct m as [|p|p]; simpl; intros H; try lia.
  rewrite digits2_pos_size.
  pose proof (Pos.size_gt p) as Hp.
  assert (Hz : Z.pos p < Z.pos (2 ^ Pos.size p)) by lia.
  now rewrite Pos2Z.inj_pow in Hz.
Qed.

Lemma Zdigits2_le_of_lt_pow (m k : Z) :
  0 <= m < 2 ^ k -> 0 <= k -> Zdigits2 m <= k.
Proof.
  destruct m as [|p|p]; simpl; intros [H0 H] Hk; try lia.
  rewrite digits2_pos_size.
  pose proof (Pos.size_le p) as Hp.
  assert (Hz : Z.pos (2 ^ Pos.size p) <= 2 * Z.pos p) by lia.
  rewrite Pos2Z.inj_pow in Hz.
  assert (Hlt : 2 ^ Z.pos (Pos.size p) < 2 ^ (k + 1))
    by (rewrite Z.pow_add_r by lia; lia).
  apply Z.pow_lt_mono_r_iff in Hlt; lia.
Qed.

Lemma Zdigits2_pos_iff (m : Z) : 0 <= m -> (0 < Zdigits2 m <-> 0 < m).
Proof. destruct m; simpl; lia. Qed.

Lemma Zdigits2_next (a b : Z) :
  0 <= a -> a <= b <= a + 1 -> Zdigits2 b <= Zdigits2 a + 1.
Proof.
  intros Ha Hb. pose proof (Zdigits2_lt_pow a Ha) as Hlt.
  pose proof (Zdigits2_nonneg a) as Hd.
  apply Zdigits2_le_of_lt_pow; [|lia].
  rewrite Z.pow_add_r by lia. lia.
Qed.

Lemma shr_1_digits (mrs : shr_record) :
  0 <= shr_m mrs ->
  0 <= shr_m (shr_1 mrs)
  /\ Zdigits2 (shr_m (shr_1 mrs)) = Z.max 0 (Zdigits2 (shr_m mrs) - 1).
Proof.
  destruct mrs as [m r s]. simpl.
  destruct m as [|[p|p|]|p]; simpl; intros H; lia.
Qed.

Lemma iter_shr_1_digits (p : positive) :
  forall mrs : shr_record,
    0 <= shr_m mrs ->
    0 <= shr_m (SpecFloat.iter_pos shr_1 p mrs)
    /\ Zdigits2 (shr_m (SpecFloat.iter_pos shr_1 p mrs))
       = Z.max 0 (Zdigits2 (shr_m mrs) - Z.pos p).
Proof.
  induction p as [p IH | p IH |]; intros mrs H; simpl.
  - destruct (shr_1_digits mrs H) as [H1 E1].
    destruct (IH _ H1) as [H2 E2]. destruct (IH _ H2) as [H3 E3].
    split; [exact H3|]. rewrite E3, E2, E1. lia.
  - destruct (IH _ H) as [H2 E2]. destruct (IH _ H2) as [H3 E3].
    split; [exact H3|]. rewrite E3, E2. lia.
  - destruct (shr_1_digits mrs H) as [H1 E1]. split; [exact H1|].
    rewrite E1. lia.
Qed.

Lemma shr_m_of_loc (m : Z) (l : location) : shr_m (shr_record_of_loc m l) = m.
Proof. destruct l as [|[]]; reflexivity. Qed.

Lemma shr_fexp_fits (m e : Z) (l : location) (K : Z) :
  0 <= m -> F64.fits K m e -> K <= 1000 ->
  0 <= shr_m (fst (shr_fexp F64.prec F64.emax m e l))
  /\ F64.fits K (shr_m (fst (shr_fexp F64.prec F64.emax m e l)))
            (snd (shr_fexp F64.prec F64.emax m e l))
  /\ (0 < m -> 0 < shr_m (fst (shr_fexp F64.prec F64.emax m e l))).
Proof.
  intros Hm [He Hd] HK.
  unfold shr_fexp, shr, fexp, emin, F64.prec, F64.emax.
  pose proof (Zdigits2_nonneg m) as Hd0.
  pose proof (Zdigits2_pos_iff m Hm) as Hpos.
  destruct (Z.max (Zdigits2 m + e - 53) (3 - 1024 - 53) - e) as [|p|p] eqn:En;
    simpl; rewrite ?shr_m_of_loc; unfold F64.fits; try (repeat split; lia).
  destruct (iter_shr_1_digits p (shr_record_of_loc m l)) as [H0 E];
    [rewrite shr_m_of_loc; exact Hm|].
  rewrite shr_m_of_loc in E.
  repeat split; try lia.
  intros Hm'. apply Zdigits2_pos_iff; [exact H0|]. lia.
Qed.

Lemma round_nearest_even_next (m : Z) (l : location) :
  m <= round_nearest_even m l <= m + 1.
Proof.
  unfold round_nearest_even. destruct l as [|[]]; try lia.
  destruct (Z.even m); lia.
Qed.

Lemma finite_within_within (K : Z) (x : spec_float) :
  F64.finite_within K x -> F64.within K x.
Proof. destruct x; simpl; tauto. Qed.

Lemma binary_round_aux_within (s : bool) (m e : Z) (l : location) (K : Z) :
  0 <= m -> F64.fits K m e -> K <= 900 ->
  F64.within (K + 1) (binary_round_aux F64.prec F64.emax s m e l)
  /\ (0 < m ->
      F64.finite_within (K + 1) (binary_round_aux F64.prec F64.emax s m e l)).
Proof.
  intros Hm Hfit HK. unfold binary_round_aux.
  destruct (shr_fexp_fits m e l K Hm Hfit ltac:(lia)) as (H1 & [He1 Hd1] & Hp1).
  destruct (shr_fexp F64.prec F64.emax m e l) as [mrs' e']. simpl in *.
  set (m2 := round_nearest_even (shr_m mrs') (loc_of_shr_record mrs')).
  pose proof (round_nearest_even_next (shr_m mrs') (loc_of_shr_record mrs'))
    as Hm2. fold m2 in Hm2.
  pose proof (Zdigits2_next _ _ H1 Hm2) as Hd2.
  assert (Hfit2 : F64.fits (K + 1) m2 e') by (unfold F64.fits; lia).
  destruct (shr_fexp_fits m2 e' loc_Exact (K + 1) ltac:(lia) Hfit2 ltac:(lia))
    as (H3 & [He3 Hd3] & Hp3).
  destruct (shr_fexp F64.prec F64.emax m2 e' loc_Exact) as [mrs'' e''].
  simpl in *.
  destruct (shr_m mrs'') as [|p|p] eqn:E3.
  - split; [exact I|]. intros Hpos. specialize (Hp1 Hpos). lia.
  - simpl in Hd3.
    assert (Hle : (e'' <=? F64.emax - F64.prec) = true)
      by (apply Z.leb_le; unfold F64.emax, F64.prec; lia).
    rewrite Hle. simpl. unfold F64.fits. simpl. split; [lia|]. intros _. lia.
  - lia.
Qed.

Lemma iter_xO_digits (d m : positive) :
  Z.pos (digits2_pos (Pos.iter xO m d)) = Z.pos (digits2_pos m) + Z.pos d.
Proof.
  induction d as [|d IH] using Pos.peano_ind.
  - simpl. lia.
  - rewrite Pos.iter_succ. simpl. lia.
Qed.

(** [float(n)] of a positive integer below [2 ^ 63] is a finite number. *)
Lemma of_int_finite (n : Z) :
  0 < n < 2 ^ 63 -> F64.finite_within 64 (F64.of_int n).
Proof.
  intros [Hpos Hlt]. destruct n as [|p|p]; try lia.
  assert (Hd : Z.pos (digits2_pos p) <= 63)
    by (apply (Zdigits2_le_of_lt_pow (Z.pos p)); lia).
  unfold F64.of_int, binary_normalize, binary_round, shl_align, fexp, emin,
    F64.prec, F64.emax.
  destruct (Z.max (Z.pos (digits2_pos p) + 0 - 53) (3 - 1024 - 53) - 0)
    as [|d|d] eqn:E.
  - apply (binary_round_aux_within false (Z.pos p) 0 loc_Exact 63);
      unfold F64.fits; simpl; lia.
  - apply (binary_round_aux_within false (Z.pos p) 0 loc_Exact 63);
      unfold F64.fits; simpl; lia.
  - pose proof (iter_xO_digits d p) as Hs.
    apply (binary_round_aux_within false _ _ loc_Exact 63);
      unfold F64.fits; simpl; lia.
Qed.

Lemma of_int_within (n : Z) : 0 <= n < 2 ^ 63 -> F64.within 64 (F64.of_int n).
Proof.
  intros [H0 Hlt]. destruct (Z.eq_dec n 0) as [->|Hne]; [exact I|].
  apply finite_within_within, of_int_finite. lia.
Qed.

Lemma mul_within (x y : spec_float) (Kx Ky : Z) :
  F64.within Kx x -> F64.finite_within Ky y -> Kx + Ky <= 900 ->
  F64.within (Kx + Ky + 1) (F64.mul x y).
Proof.
  destruct x as [sx| | |sx mx ex], y as [sy| | |sy my ey]; simpl;
    try tauto.
  intros [Hex Hdx] [Hey Hdy] HK. simpl in Hdx, Hdy.
  apply binary_round_aux_within; [lia | | exact HK].
  assert (Hlt : Z.pos (mx * my) < 2 ^ (Z.pos (digits2_pos mx)
                                       + Z.pos (digits2_pos my))).
  { rewrite Z.pow_add_r, Pos2Z.inj_mul by lia.
    pose proof (Zdigits2_lt_pow (Z.pos mx) ltac:(lia)) as H1.
    pose proof (Zdigits2_lt_pow (Z.pos my) ltac:(lia)) as H2.
    simpl in H1, H2. nia. }
  assert (Hd : Zdigits2 (Z.pos (mx * my))
               <= Z.pos (digits2_pos mx) + Z.pos (digits2_pos my))
    by (apply Zdigits2_le_of_lt_pow; lia).
  unfold F64.fits. lia.
Qed.

Lemma div_within (x y : spec_float) (Kx Ky : Z) :
  F64.within Kx x -> F64.finite_within Ky y -> Kx + Ky + 53 <= 900 ->
  F64.within (Kx + Ky + 54) (F64.div x y).
Proof.
  destruct x as [sx| | |sx mx ex], y as [sy| | |sy my ey]; simpl;
    try tauto.
  intros [Hex Hdx] [Hey Hdy] HK. simpl in Hdx, Hdy.
  unfold SFdiv_core_binary, fexp, emin, F64.prec, F64.emax. simpl Zdigits2.
  set (d1 := Z.pos (digits2_pos mx)) in *.
  set (d2 := Z.pos (digits2_pos my)) in *.
  set (e' := Z.min (Z.max (d1 + ex - (d2 + ey) - 53) (3 - 1024 - 53)) (ex - ey)).
  set (m' := match ex - ey - e' with
             | 0 => Z.pos mx
             | Z.pos _ => Z.shiftl (Z.pos mx) (ex - ey - e')
             | Z.neg _ => 0
             end).
  assert (Hs : 0 <= ex - ey - e') by lia.
  assert (Hm' : 0 <= m' < 2 ^ (d1 + (ex - ey - e'))).
  { pose proof (Zdigits2_lt_pow (Z.pos mx) ltac:(lia)) as H1.
    simpl in H1. fold d1 in H1.
    assert (Hp : 0 < 2 ^ (ex - ey - e')) by (apply Z.pow_pos_nonneg; lia).
    unfold m'. destruct (ex - ey - e') as [|s|s] eqn:Es.
    - rewrite Z.add_0_r. lia.
    - rewrite Z.shiftl_mul_pow2, Z.pow_add_r by lia. nia.
    - lia. }
  pose proof (Z.div_pos m' (Z.pos my) ltac:(lia) ltac:(lia)) as Hq0.
  assert (Hq1 : m' / Z.pos my <= m')
    by (apply Z.div_le_upper_bound; nia).
  unfold Z.div in Hq0, Hq1.
  destruct (Z.div_eucl m' (Z.pos my)) as [q r].
  assert (Hd : Zdigits2 q <= d1 + (ex - ey - e'))
    by (apply Zdigits2_le_of_lt_pow; lia).
  replace (Kx + Ky + 54) with (Kx + Ky + 53 + 1) by lia.
  apply binary_round_aux_within; [exact Hq0 | | exact HK].
  unfold F64.fits. lia.
Qed.

Lemma to_int_within (K : Z) (x : spec_float) :
  F64.within K x -> exists z, F64.to_int x = Some z.
Proof. destruct x; simpl; intros H; try tauto; eauto. Qed.

Lemma lit_1_5_finite : F64.finite_within 52 F64.lit_1_5.
Proof. unfold F64.finite_within, F64.lit_1_5, F64.fits. simpl. lia. Qed.

(** For counts below [2 ^ 53], which binary64 represents exactly (so that
    the division of the two integers is the binary64 division of their
    conversions), and at least one available agent, [wait_time] and
    [wait_time * 1.5] are finite: both conversions by [int] succeed. *)
Lemma format_range_defined (pending available : nat) :
  Z.of_nat pending < 2 ^ 53 -> 0 < Z.of_nat available < 2 ^ 53 ->
  exists lo hi,
    F64.to_int (wait_time pending available) = Some lo
    /\ F64.to_int (F64.mul (wait_time pending available) F64.lit_1_5) = Some hi
    /\ format_range (wait_time pending available)
       = Some (Py.str_of_int lo ++ "-" ++ Py.str_of_int hi ++ " minutes").
Proof.
  intros Hp Ha.
  assert (H53 : 2 ^ 53 < 2 ^ 63) by reflexivity.
  assert (Hw : F64.within 234 (wait_time pending available)).
  { unfold wait_time.
    apply (mul_within _ _ 182 51); [| |lia].
    - apply (div_within _ _ 64 64); [| |lia].
      + apply of_int_within. lia.
      + apply of_int_finite. lia.
    - replace (F64.of_int 10) with (S754_finite false 5629499534213120 (-49))
        by (vm_compute; reflexivity).
      unfold F64.finite_within, F64.fits. simpl. lia. }
  pose proof (mul_within _ _ 234 52 Hw lit_1_5_finite ltac:(lia)) as Hw'.
  destruct (to_int_within _ _ Hw) as [lo Hlo].
  destruct (to_int_within _ _ Hw') as [hi Hhi].
  exists lo, hi. unfold format_range. now rewrite Hlo, Hhi.
Qed.

End F64Facts.

(** *** The wait-time estimator *)

Lemma filter_length_zero {A : Type} (f : A -> bool) (l : list A) :
  List.length (List.filter f l) = 0%nat <-> forall x, In x l -> f x = false.
Proof.
  induction l as [|x l IH]; simpl.
  - split; [intros _ y [] | reflexivity].
  - destruct (f x) eqn:E; simpl.
    + split; [discriminate|]. intros H. specialize (H x (or_introl eq_refl)).
      congruence.
    + rewrite IH. split.
      * intros H y [<- | Hy]; auto.
      * intros H y Hy. apply H. now right.
Qed.

Lemma filter_length_pos {A : Type} (f : A -> bool) (l : list A) :
  (exists x, In x l /\ f x = true) -> List.length (List.filter f l) <> 0%nat.
Proof.
  intros (x & Hx & Hf) E.
  rewrite filter_length_zero in E. rewrite (E x Hx) in Hf. discriminate.
Qed.

(** C7, as the code has it: the estimator returns "15-30 minutes" when no
    agent is available with spare capacity, whatever the queue holds;
    "2-5 minutes" when some agent is and no item is pending; and otherwise
    (the roster and the queue holding fewer than [2 ^ 53] entries) the two
    ends [int(base)] and [int(base * 1.5)] of the range, joined by "-" and
    followed by " minutes", where base = (pending / available) * 10 and
    base * 1.5 are computed in binary64, each operation rounding to the
    nearest double, and [int] truncates: an end is the whole part of the
    double, which can lie below the exact value. *)
Theorem C7_wait_time_policy :
  forall s : State,
    ((forall a, In a (agents s) -> is_available a = false) ->
     get_estimated_wait_time s = Some "15-30 minutes")
    /\ ((exists a, In a (agents s) /\ is_available a = true) ->
        (forall q, In q (escalated_queries s) -> is_pending q = false) ->
        get_estimated_wait_time s = Some "2-5 minutes")
    /\ ((exists a, In a (agents s) /\ is_available a = true) ->
        (exists q, In q (escalated_queries s) /\ is_pending q = true) ->
        Z.of_nat (List.length (agents s)) < 2 ^ 53 ->
        Z.of_nat (List.length (escalated_queries s)) < 2 ^ 53 ->
        let base :=
          F64.mul (F64.div (F64.of_int (Z.of_nat (pending_count s)))
                           (F64.of_int (Z.of_nat (available_count s))))
                  (F64.of_int 10) in
        exists lo hi,
          F64.to_int base = Some lo
          /\ F64.to_int (F64.mul base F64.lit_1_5) = Some hi
          /\ get_estimated_wait_time s
             = Some (Py.str_of_int lo ++ "-" ++ Py.str_of_int hi ++ " minutes")).
Proof.
  intros s. unfold get_estimated_wait_time. split; [|split].
  - intros Hnone. apply filter_length_zero in Hnone.
    unfold available_count. now rewrite Hnone.
  - intros Hsome Hnone. apply filter_length_pos in Hsome.
    apply filter_length_zero in Hnone.
    unfold available_count, pending_count. rewrite Hnone.
    apply Nat.eqb_neq in Hsome. now rewrite Hsome.
  - intros Hagent Hquery Hla Hlq. cbv zeta.
    apply filter_length_pos in Hagent. apply filter_length_pos in Hquery.
    pose proof (List.filter_length_le is_available (agents s)) as Ha.
    pose proof (List.filter_length_le is_pending (escalated_queries s)) as Hq.
    destruct (F64Facts.format_range_defined (pending_count s) (available_count s))
      as (lo & hi & Hlo & Hhi & E);
      [unfold pending_count; lia | unfold available_count; lia |].
    exists lo, hi. repeat split; [exact Hlo | exact Hhi |].
    apply Nat.eqb_neq in Hagent, Hquery.
    unfold available_count, pending_count in *. now rewrite Hagent, Hquery.
Qed.

(** *** Escalation and the states of an item *)

Lemma get_estimated_wait_time_defined (s : State) :
  Z.of_nat (List.length (agents s)) < 2 ^ 53 ->
  Z.of_nat (List.length (escalated_queries s)) < 2 ^ 53 ->
  exists w, get_estimated_wait_time s = Some w.
Proof.
  intros Ha Hq. unfold get_estimated_wait_time.
  destruct (Nat.eqb (available_count s) 0) eqn:Ea; [eauto|].
  destruct (Nat.eqb (pending_count s) 0) eqn:Ep; [eauto|].
  apply Nat.eqb_neq in Ea.
  pose proof (List.filter_length_le is_available (agents s)).
  pose proof (List.filter_length_le is_pending (escalated_queries s)).
  destruct (F64Facts.format_range_defined (pending_count s) (available_count s))
    as (lo & hi & _ & _ & E);
    [unfold pending_count; lia | unfold available_count in *; lia |].
  rewrite E. eauto.
Qed.

Lemma escalate_query_fst (now : nat -> Py.datetime) (s : State)
    (c q : string) (r : EscalationReason) (p : Z) (l : string) :
  fst (escalate_query now s c q r p l)
  = match get_estimated_wait_time (snd (escalate_query now s c q r p l)) with
    | Some w =>
        mk_result true (Some (q_id (escalated now s c q r p)))
          "Query escalated to human agent. You will receive a response shortly."
          (Some w)
    | None =>
        mk_result false None
          "Failed to escalate query. Please try again later." None
    end.
Proof.
  rewrite escalate_query_state. unfold escalate_query, escalated. simpl.
  destruct (get_estimated_wait_time _); reflexivity.
Qed.

(** X2: in a reachable state whose queue holds fewer than [2 ^ 53 - 1]
    items, [escalate_query] succeeds: the result carries the success flag,
    the id "ESC_" followed by the clock reading in [%Y%m%d%H%M%S] form and
    the wait-time estimate of the new state, and exactly one record is
    appended to the queue, pending, with no agent, with the given priority
    and with complexity CRITICAL when the priority is at least 4 and
    COMPLEX otherwise; the roster is untouched. *)
Theorem X2_escalate_query_appends_pending :
  forall (now : nat -> Py.datetime)
         (notify_raises : HumanAgent -> EscalatedQuery -> bool)
         (ops : list Op) (customer text : string)
         (why : EscalationReason) (prio : Z) (lang : string),
    let s := run now notify_raises ops (initial_state now) in
    let r := escalate_query now s customer text why prio lang in
    Z.of_nat (List.length (escalated_queries s)) + 1 < 2 ^ 53 ->
    exists item,
      escalated_queries (snd r) = (escalated_queries s ++ [item])%list
      /\ agents (snd r) = agents s
      /\ q_id item = "ESC_" ++ Py.strftime_YmdHMS (now (clock_reads s))
      /\ q_status item = "pending" /\ agent_id item = ""
      /\ priority item = prio
      /\ complexity item = (if prio >=? 4 then CRITICAL else COMPLEX)
      /\ success (fst r) = true
      /\ query_id (fst r) = Some (q_id item)
      /\ estimated_wait_time (fst r) = get_estimated_wait_time (snd r)
      /\ estimated_wait_time (fst r) <> None.
Proof.
  intros now notify_raises ops c q rs p l s r Hlen.
  exists (escalated now s c q rs p).
  assert (Hs : snd r = mk_state (agents s)
                 (escalated_queries s ++ [escalated now s c q rs p])%list
                 (complexity_thresholds s) (S (S (clock_reads s))))
    by apply escalate_query_state.
  destruct (get_estimated_wait_time_defined (snd r)) as [w Hw].
  { rewrite Hs. simpl.
    assert (E : List.length (agents s) = 4%nat).
    { rewrite <- (length_map a_id). unfold s.
      now rewrite (run_agent_ids now notify_raises ops). }
    rewrite E. reflexivity. }
  { rewrite Hs. simpl. rewrite length_app. simpl. lia. }
  assert (Hr : fst r = mk_result true (Some (q_id (escalated now s c q rs p)))
             "Query escalated to human agent. You will receive a response shortly."
             (Some w)).
  { unfold r. rewrite escalate_query_fst. fold r. now rewrite Hw. }
  rewrite Hr, Hw, Hs. simpl. repeat split. discriminate.
Qed.

(** X3: no operation of the module closes an item or sends it back: in
    every reachable state each item of the queue is pending, assigned or
    resolved, and a pending item has an empty [agent_id]. *)
Theorem X3_status_values :
  forall (now : nat -> Py.datetime)
         (notify_raises : HumanAgent -> EscalatedQuery -> bool)
         (ops : list Op) (item : EscalatedQuery),
    In item (escalated_queries (run now notify_raises ops (initial_state now))) ->
    (q_status item = "pending" /\ agent_id item = "")
    \/ q_status item = "assigned" \/ q_status item = "resolved".
Proof.
  intros now notify_raises ops item Hin.
  pose proof (run_queries_Forall now notify_raises
                (fun q => (q_status q = "pending" /\ agent_id q = "")
                          \/ q_status q = "assigned"
                          \/ q_status q = "resolved")) as Hall.
  assert (Hc : query_update_closed
                 (fun q => (q_status q = "pending" /\ agent_id q = "")
                           \/ q_status q = "assigned"
                           \/ q_status q = "resolved")).
  { repeat split; simpl; intros; auto. }
  specialize (Hall Hc ops). rewrite List.Forall_forall in Hall. now apply Hall.
Qed.

(** *** The classifier: case, substrings and shadowed keywords *)

Lemma lower_ascii_idem (c : ascii) :
  Py.lower_ascii (Py.lower_ascii c) = Py.lower_ascii c.
Proof.
  destruct c as [[] [] [] [] [] [] [] []]; vm_compute; reflexivity.
Qed.

Lemma lower_idem (s : string) : Py.lower (Py.lower s) = Py.lower s.
Proof.
  induction s as [|c s IH]; simpl; [reflexivity|].
  now rewrite lower_ascii_idem, IH.
Qed.

Lemma lower_app (a b : string) :
  Py.lower (a ++ b) = (Py.lower a ++ Py.lower b)%string.
Proof.
  induction a as [|c a IH]; simpl; [reflexivity|]. now rewrite IH.
Qed.

Lemma prefix_app (a b : string) : String.prefix a (a ++ b) = true.
Proof.
  induction a as [|c a IH]; simpl.
  - now destruct b.
  - destruct (ascii_dec c c); [exact IH | contradiction].
Qed.

Lemma contains_prefix (sub s : string) :
  String.prefix sub s = true -> Py.contains sub s = true.
Proof. destruct s; simpl; intros ->; reflexivity. Qed.

Lemma contains_app (pre sub post : string) :
  Py.contains sub (pre ++ sub ++ post) = true.
Proof.
  induction pre as [|c pre IH]; simpl.
  - apply contains_prefix, prefix_app.
  - rewrite IH. apply orb_true_r.
Qed.

Lemma any_keyword_lower (keywords : list string) (query : string) :
  any_keyword keywords (Py.lower query) = any_keyword keywords query.
Proof. unfold any_keyword. now rewrite lower_idem. Qed.

(** X5: the classifier reads the query up to the case of its letters, and it
    does not read the AI response at all: a query and its lower-case form
    are classified alike, whatever the two responses are. *)
Theorem X5_classifier_ignores_case_and_response :
  forall (th : Thresholds) (query ai_response ai_response' : string)
         (confidence response_time : spec_float),
    should_escalate_to_human th (Py.lower query) ai_response'
                             confidence response_time
    = should_escalate_to_human th query ai_response confidence response_time.
Proof.
  intros. unfold should_escalate_to_human.
  now rewrite !any_keyword_lower.
Qed.

(** X1: keywords are matched as substrings, not as words: a text that holds a
    complaint keyword anywhere, in the middle of a word as well ("issue"
    in "tissue"), is classified (true, CUSTOMER_COMPLAINT), whatever the
    rest of the text, the thresholds, the confidence and the latency are. *)
Theorem X1_complaint_keyword_anywhere :
  forall (th : Thresholds) (keyword before after ai_response : string)
         (confidence response_time : spec_float),
    In keyword escalation_keywords ->
    should_escalate_to_human th (before ++ keyword ++ after) ai_response
                             confidence response_time
    = (true, Some CUSTOMER_COMPLAINT).
Proof.
  intros th keyword before after ai_response confidence response_time Hin.
  apply complaint_rule_first. unfold any_keyword.
  apply existsb_exists. exists keyword. split; [exact Hin|].
  rewrite !lower_app.
  assert (Hlow : Py.lower keyword = keyword).
  { simpl in Hin.
    repeat (destruct Hin as [<- | Hin]; [reflexivity|]). destruct Hin. }
  rewrite Hlow. apply contains_app.
Qed.

Lemma existsb_false_In {A : Type} (f : A -> bool) (l : list A) (x : A) :
  existsb f l = false -> In x l -> f x = false.
Proof.
  intros H Hin. destruct (f x) eqn:E; [|reflexivity].
  assert (existsb f l = true) by (apply existsb_exists; eauto). congruence.
Qed.

Lemma live_technical (query : string) :
  any_keyword escalation_keywords query = false ->
  any_keyword technical_keywords query = true ->
  any_keyword live_technical_keywords query = true.
Proof.
  unfold any_keyword. intros Hesc Htech.
  apply existsb_exists in Htech as (k & Hin & Hk).
  apply existsb_exists. exists k. split; [|exact Hk].
  simpl in Hin.
  destruct Hin as [<-|[<-|[<-|[<-|[<-|[<-|[<-|[<-|[<-|[<-|[]]]]]]]]]]];
    simpl; auto 10;
    (rewrite (existsb_false_In _ _ _ Hesc) in Hk;
     [discriminate | simpl; auto 20]).
Qed.

Lemma live_emergency (query : string) :
  any_keyword escalation_keywords query = false ->
  any_keyword emergency_keywords query = true ->
  any_keyword live_emergency_keywords query = true.
Proof.
  unfold any_keyword. intros Hesc Hem.
  apply existsb_exists in Hem as (k & Hin & Hk).
  apply existsb_exists. exists k. split; [|exact Hk].
  simpl in Hin.
  destruct Hin as [<-|[<-|[<-|[<-|[<-|[<-|[<-|[<-|[<-|[<-|[]]]]]]]]]]];
    simpl; auto 10;
    (rewrite (existsb_false_In _ _ _ Hesc) in Hk;
     [discriminate | simpl; auto 20]).
Qed.

(** X6: the outcomes of the classifier.  The flag is [False] exactly when
    there is no reason; LANGUAGE_BARRIER is never the reason.  Four of the
    ten technical keywords ("not working", "broken", "problem", "issue")
    and two of the ten emergency keywords ("emergency", "urgent") are
    complaint keywords as well and never decide: TECHNICAL_ISSUE is returned
    only for a text that holds one of the other six technical keywords, and
    EMERGENCY only for a text that holds one of the other eight emergency
    keywords, and then only when neither the confidence nor the latency
    trips its threshold. *)
Theorem X6_shadowed_keywords_never_decide :
  forall (th : Thresholds) (query ai_response : string)
         (confidence response_time : spec_float),
    let r := should_escalate_to_human th query ai_response
                                      confidence response_time in
    (fst r = false <-> snd r = None)
    /\ snd r <> Some LANGUAGE_BARRIER
    /\ (snd r = Some TECHNICAL_ISSUE ->
        any_keyword live_technical_keywords query = true)
    /\ (snd r = Some EMERGENCY ->
        any_keyword live_emergency_keywords query = true
        /\ F64.ltb confidence (confidence_threshold th) = false
        /\ F64.ltb (F64.of_int (response_time_threshold th)) response_time
           = false).
Proof.
  intros th query ai_response confidence response_time.
  unfold should_escalate_to_human.
  destruct (any_keyword escalation_keywords query) eqn:E1;
    [simpl; repeat split; discriminate|].
  destruct (any_keyword financial_keywords query) eqn:E2;
    [simpl; repeat split; discriminate|].
  destruct (any_keyword custom_keywords query) eqn:E3;
    [simpl; repeat split; discriminate|].
  destruct (any_keyword technical_keywords query) eqn:E4.
  { simpl. repeat split; try discriminate. intros _. now apply live_technical. }
  destruct (F64.ltb confidence (confidence_threshold th)) eqn:E5;
    [simpl; repeat split; discriminate|].
  destruct (F64.ltb (F64.of_int (response_time_threshold th)) response_time)
    eqn:E6; [simpl; repeat split; discriminate|].
  destruct (any_keyword emergency_keywords query) eqn:E7.
  { simpl. repeat split; try discriminate. now apply live_emergency. }
  simpl. repeat split; discriminate.
Qed.

(** X7: a confidence below the threshold escalates every query: the flag is
    [True] whatever the text is, and the reason is never EMERGENCY, because
    the emergency rule comes after the confidence rule.  This is the case
    of every call that leaves [confidence] at its default of 0.0 while the
    threshold is 0.7. *)
Theorem X7_low_confidence_escalates_every_query :
  forall (th : Thresholds) (query ai_response : string)
         (confidence response_time : spec_float),
    F64.ltb confidence (confidence_threshold th) = true ->
    exists why,
      should_escalate_to_human th query ai_response confidence response_time
      = (true, Some why)
      /\ why <> EMERGENCY /\ why <> LANGUAGE_BARRIER.
Proof.
  intros th query ai_response confidence response_time Hlow.
  unfold should_escalate_to_human. rewrite Hlow.
  destruct (any_keyword escalation_keywords query);
    [eexists; repeat split; discriminate|].
  destruct (any_keyword financial_keywords query);
    [eexists; repeat split; discriminate|].
  destruct (any_keyword custom_keywords query);
    [eexists; repeat split; discriminate|].
  destruct (any_keyword technical_keywords query);
    eexists; repeat split; discriminate.
Qed.

(** *** The assignment pass *)

Lemma In_pending_queries (s : State) (i : nat) :
  In i (pending_queries s)
  <-> exists q, escalated_queries s !! i = Some q /\ is_pending q = true.
Proof.
  unfold pending_queries. rewrite in_map_iff. split.
  - intros ([j q] & <- & Hin). apply filter_In in Hin as [Hin Hp].
    apply In_enumerate in Hin. eauto.
  - intros (q & Hq & Hp). exists (i, q). split; [reflexivity|].
    apply filter_In. split; [now apply In_enumerate | exact Hp].
Qed.

Lemma enumerate_from_filter_sorted {A : Type} (f : nat * A -> bool)
    (l : list A) (k : nat) :
  StronglySorted lt (map fst (List.filter f (Py.enumerate_from k l))).
Proof.
  revert k. induction l as [|x l IH]; intros k; simpl; [constructor|].
  destruct (f (k, x)); simpl; [|apply IH].
  constructor; [apply IH|].
  apply List.Forall_forall. intros i Hi.
  apply in_map_iff in Hi as ([j y] & <- & Hin).
  apply filter_In in Hin as [Hin _]. apply In_enumerate_from in Hin.
  simpl. lia.
Qed.

Lemma pending_queries_sorted (s : State) :
  StronglySorted lt (pending_queries s).
Proof. apply enumerate_from_filter_sorted. Qed.

Lemma sorted_lt_NoDup (l : list nat) : StronglySorted lt l -> NoDup l.
Proof.
  induction 1 as [|x l Hs IH Hx]; constructor; [|exact IH].
  intros Hin. rewrite List.Forall_forall in Hx.
  apply list_elem_of_In in Hin. specialize (Hx _ Hin). lia.
Qed.

(** Two increasing lists with the same elements are the same list. *)
Lemma sorted_lt_ext (l l' : list nat) :
  StronglySorted lt l -> StronglySorted lt l' ->
  (forall i, In i l <-> In i l') -> l = l'.
Proof.
  intros Hl. revert l'. induction Hl as [|x l Hs IH Hx]; intros l' Hl' Hiff.
  - destruct l' as [|y l']; [reflexivity|].
    destruct (proj2 (Hiff y) (or_introl eq_refl)).
  - inversion Hl' as [|y k Hk Hy]; subst.
    + destruct (proj1 (Hiff x) (or_introl eq_refl)).
    + rewrite List.Forall_forall in Hx, Hy.
      assert (x = y).
      { destruct (proj1 (Hiff x) (or_introl eq_refl)) as [E | Hin]; [auto|].
        destruct (proj2 (Hiff y) (or_introl eq_refl)) as [E | Hin']; [auto|].
        specialize (Hx _ Hin'). specialize (Hy _ Hin). lia. }
      subst y. f_equal. apply IH; [exact Hk|].
      intros i. split; intros Hi.
      * destruct (proj1 (Hiff i) (or_intror Hi)) as [E | Hin]; [|exact Hin].
        specialize (Hx _ Hi). lia.
      * destruct (proj2 (Hiff i) (or_intror Hi)) as [E | Hin]; [|exact Hin].
        specialize (Hy _ Hi). lia.
Qed.

Lemma pending_queries_length (s : State) :
  List.length (pending_queries s) = pending_count s.
Proof.
  unfold pending_queries, pending_count, Py.enumerate. rewrite length_map.
  generalize 0%nat. induction (escalated_queries s) as [|q l IH]; intros k;
    simpl; [reflexivity|].
  destruct (is_pending q); simpl; now rewrite IH.
Qed.

Lemma find_best_agent_None (s : State) (query : EscalatedQuery) :
  find_best_agent s query = None -> available_agents s = [].
Proof.
  intros HN. destruct (available_agents s) as [|x l] eqn:E; [reflexivity|].
  destruct (find_best_agent_split query s) as (l1 & r & l2 & Hr & _);
    [rewrite E; discriminate | congruence].
Qed.

Lemma fold_right_add_insert {A : Type} (f : A -> Z) (l : list A) (i : nat)
    (x y : A) :
  l !! i = Some y ->
  fold_right Z.add 0 (map f (<[i := x]> l))
  = fold_right Z.add 0 (map f l) - f y + f x.
Proof.
  revert i. induction l as [|z l IH]; intros i Hi; [discriminate|].
  destruct i as [|i]; simpl in *.
  - inversion Hi; subst. lia.
  - rewrite (IH i Hi). lia.
Qed.

Lemma free_chats_nonneg (a : HumanAgent) : 0 <= free_chats a.
Proof.
  unfold free_chats, is_available.
  destruct (AgentStatus_eqb (a_status a) AVAILABLE); simpl; [|lia].
  destruct (current_chats a <? max_chats a) eqn:E; [|lia].
  apply Z.ltb_lt in E. lia.
Qed.

Lemma free_chats_zero (a : HumanAgent) :
  free_chats a = 0 <-> is_available a = false.
Proof.
  unfold free_chats. destruct (is_available a) eqn:E; [|tauto].
  unfold is_available in E. apply andb_true_iff in E as [_ E].
  apply Z.ltb_lt in E. split; [lia | discriminate].
Qed.

Lemma free_capacity_nonneg (s : State) : 0 <= free_capacity s.
Proof.
  unfold free_capacity. induction (agents s) as [|a l IH]; simpl; [lia|].
  pose proof (free_chats_nonneg a). lia.
Qed.

Lemma free_capacity_zero (s : State) :
  free_capacity s = 0 <-> available_agents s = [].
Proof.
  rewrite available_agents_nil. unfold free_capacity.
  induction (agents s) as [|a l IH]; simpl.
  - split; [intros _ b [] | reflexivity].
  - pose proof (free_chats_nonneg a) as Ha.
    assert (Hl : 0 <= fold_right Z.add 0 (map free_chats l)).
    { clear. induction l as [|b l IH]; simpl; [lia|].
      pose proof (free_chats_nonneg b). lia. }
    split.
    + intros E b [<- | Hb].
      * apply free_chats_zero. lia.
      * apply IH; [lia | exact Hb].
    + intros H. assert (free_chats a = 0)
        by (apply free_chats_zero, H; now left).
      assert (fold_right Z.add 0 (map free_chats l) = 0)
        by (apply IH; intros b Hb; apply H; now right).
      lia.
Qed.

Section Instance.

Variable now : nat -> Py.datetime.
Variable notify_raises : HumanAgent -> EscalatedQuery -> bool.

(** The state in which [assign_query_to_agent] leaves the instance. *)
Local Abbreviation assigned_state s qi query ai agent :=
  (mk_state (<[ai := take_chat (now (S (clock_reads s))) agent]> (agents s))
            (<[qi := mark_assigned agent (now (clock_reads s)) query]>
               (escalated_queries s))
            (complexity_thresholds s) (S (S (clock_reads s)))).

Lemma assign_one_pending (s : State) (qi : nat) (query : EscalatedQuery) :
  escalated_queries s !! qi = Some query ->
  (available_agents s = [] /\ assign_one now notify_raises s qi = s)
  \/ exists ai agent,
       find_best_agent s query = Some (ai, agent)
       /\ agents s !! ai = Some agent /\ is_available agent = true
       /\ assign_one now notify_raises s qi
          = assigned_state s qi query ai agent.
Proof.
  intros Hq. unfold assign_one. rewrite Hq.
  destruct (find_best_agent s query) as [[ai agent]|] eqn:Hf.
  - right. exists ai, agent.
    pose proof (find_best_agent_In _ _ _ _ Hf) as Hin.
    apply In_available_agents in Hin as [Ha Hav].
    repeat split; try assumption.
    now apply assign_query_to_agent_state.
  - left. split; [now apply find_best_agent_None in Hf | reflexivity].
Qed.

Lemma assign_one_no_agent (s : State) (qi : nat) :
  available_agents s = [] -> assign_one now notify_raises s qi = s.
Proof.
  intros E. unfold assign_one, find_best_agent. rewrite E.
  now destruct (escalated_queries s !! qi).
Qed.

Lemma fold_assign_one_no_agent (l : list nat) (s : State) :
  available_agents s = [] -> fold_left (assign_one now notify_raises) l s = s.
Proof.
  intros E. induction l as [|qi l IH]; simpl; [reflexivity|].
  now rewrite assign_one_no_agent.
Qed.

Lemma free_capacity_assigned (s : State) (qi ai : nat) (query : EscalatedQuery)
    (agent : HumanAgent) :
  agents s !! ai = Some agent -> is_available agent = true ->
  free_capacity (assigned_state s qi query ai agent) = free_capacity s - 1.
Proof.
  intros Ha Hav. unfold free_capacity. simpl.
  rewrite (fold_right_add_insert free_chats _ _ _ agent Ha).
  unfold free_chats at 2 3. rewrite Hav.
  unfold is_available in *. simpl.
  apply andb_true_iff in Hav as [Hst Hlt]. rewrite Hst. simpl.
  apply Z.ltb_lt in Hlt.
  destruct (current_chats agent + 1 <? max_chats agent) eqn:E.
  - lia.
  - apply Z.ltb_ge in E. lia.
Qed.

(** Induction over an assignment pass: a relation between states that is
    reflexive and transitive and holds across every assignment of a pending
    item holds across the pass over distinct pending items. *)
Lemma pass_ind (R : State -> State -> Prop) :
  (forall s, R s s) ->
  (forall s1 s2 s3, R s1 s2 -> R s2 s3 -> R s1 s3) ->
  (forall s qi query ai agent,
      escalated_queries s !! qi = Some query -> is_pending query = true ->
      find_best_agent s query = Some (ai, agent) ->
      R s (assigned_state s qi query ai agent)) ->
  forall (l : list nat) (s : State),
    NoDup l ->
    (forall i, In i l ->
               exists q, escalated_queries s !! i = Some q /\ is_pending q = true) ->
    R s (fold_left (assign_one now notify_raises) l s).
Proof.
  intros Hrefl Htrans Hstep l.
  induction l as [|qi l IH]; intros s Hnd Hpend; simpl; [apply Hrefl|].
  apply NoDup_cons in Hnd as [Hqi Hnd]. rewrite list_elem_of_In in Hqi.
  destruct (Hpend qi (or_introl eq_refl)) as (query & Hq & Hp).
  destruct (assign_one_pending s qi query Hq)
    as [[_ ->] | (ai & agent & Hf & Ha & Hav & ->)].
  - apply IH; [exact Hnd|]. intros i Hi. apply Hpend. now right.
  - eapply Htrans; [apply (Hstep s qi query ai agent); assumption|].
    apply IH; [exact Hnd|]. intros i Hi. simpl.
    rewrite list_lookup_insert_ne by (intros ->; contradiction).
    apply Hpend. now right.
Qed.

Lemma pass_rel (R : State -> State -> Prop) :
  (forall s, R s s) ->
  (forall s1 s2 s3, R s1 s2 -> R s2 s3 -> R s1 s3) ->
  (forall s qi query ai agent,
      escalated_queries s !! qi = Some query -> is_pending query = true ->
      find_best_agent s query = Some (ai, agent) ->
      R s (assigned_state s qi query ai agent)) ->
  forall s, R s (assign_pending_queries now notify_raises s).
Proof.
  intros Hrefl Htrans Hstep s. unfold assign_pending_queries.
  apply pass_ind; try assumption.
  - apply sorted_lt_NoDup, pending_queries_sorted.
  - intros i Hi. now apply In_pending_queries.
Qed.

(** The pass assigns a first part of the items it was given, in their
    order, and stops at the first item for which no agent is left. *)
Lemma pass_prefix (l : list nat) :
  forall s : State,
    NoDup l ->
    (forall i, In i l ->
               exists q, escalated_queries s !! i = Some q /\ is_pending q = true) ->
    exists l1 l2,
      l = (l1 ++ l2)%list
      /\ (forall i, In i l1 ->
            exists q, escalated_queries
                        (fold_left (assign_one now notify_raises) l s) !! i
                      = Some q /\ q_status q = "assigned")
      /\ (forall i, In i l2 ->
            escalated_queries (fold_left (assign_one now notify_raises) l s) !! i
            = escalated_queries s !! i)
      /\ (l2 <> [] ->
          available_agents (fold_left (assign_one now notify_raises) l s) = [])
      /\ (forall j, ~ In j l ->
            escalated_queries (fold_left (assign_one now notify_raises) l s) !! j
            = escalated_queries s !! j)
      /\ free_capacity (fold_left (assign_one now notify_raises) l s)
         = free_capacity s - Z.of_nat (List.length l1).
Proof.
  induction l as [|qi l IH]; intros s Hnd Hpend.
  - exists [], []. simpl. repeat split; try tauto; lia.
  - apply NoDup_cons in Hnd as [Hqi Hnd]. rewrite list_elem_of_In in Hqi.
    destruct (Hpend qi (or_introl eq_refl)) as (query & Hq & Hp).
    destruct (assign_one_pending s qi query Hq)
      as [[Hnone E] | (ai & agent & Hf & Ha & Hav & E)].
    + exists [], (qi :: l). simpl fold_left.
      rewrite E, fold_assign_one_no_agent by exact Hnone.
      simpl. repeat split; try tauto; lia.
    + simpl fold_left. rewrite E.
      set (s1 := assigned_state s qi query ai agent).
      destruct (IH s1 Hnd) as (l1 & l2 & -> & H1 & H2 & H3 & H4 & H5).
      { intros i Hi. unfold s1. simpl.
        rewrite list_lookup_insert_ne by (intros ->; contradiction).
        apply Hpend. now right. }
      assert (Hne : forall i, In i (l1 ++ l2)%list -> qi <> i)
        by (intros i Hi ->; contradiction).
      exists (qi :: l1), l2. repeat split.
      * intros i [<- | Hi]; [|now apply H1].
        rewrite H4 by exact Hqi. unfold s1. simpl.
        rewrite list_lookup_insert_eq by (eapply lookup_lt_Some; exact Hq).
        eexists. split; reflexivity.
      * intros i Hi. rewrite H2 by exact Hi. unfold s1. simpl.
        apply list_lookup_insert_ne, Hne, in_or_app. now right.
      * exact H3.
      * intros j Hj. simpl in Hj.
        rewrite H4 by tauto. unfold s1. simpl.
        apply list_lookup_insert_ne. tauto.
      * rewrite H5. unfold s1.
        rewrite (free_capacity_assigned s qi ai query agent Ha Hav).
        simpl List.length. lia.
Qed.

Lemma sorted_app_r (l1 l2 : list nat) :
  StronglySorted lt (l1 ++ l2) -> StronglySorted lt l2.
Proof.
  induction l1 as [|x l1 IH]; simpl; [auto|]. inversion 1; auto.
Qed.

(** How a pass splits the pending items. *)
Lemma pass_split (s : State) :
  exists l1 l2,
    pending_queries s = (l1 ++ l2)%list
    /\ pending_queries (assign_pending_queries now notify_raises s) = l2
    /\ (forall i, In i l1 ->
          exists q,
            escalated_queries (assign_pending_queries now notify_raises s) !! i
            = Some q /\ q_status q = "assigned")
    /\ (l2 <> [] ->
        available_agents (assign_pending_queries now notify_raises s) = [])
    /\ free_capacity (assign_pending_queries now notify_raises s)
       = free_capacity s - Z.of_nat (List.length l1).
Proof.
  unfold assign_pending_queries.
  pose proof (pending_queries_sorted s) as Hsorted.
  destruct (pass_prefix (pending_queries s) s) as (l1 & l2 & E & H1 & H2 & H3 & H4 & H5).
  { now apply sorted_lt_NoDup. }
  { intros i Hi. now apply In_pending_queries. }
  set (s' := fold_left (assign_one now notify_raises) (pending_queries s) s) in *.
  exists l1, l2. repeat split; try assumption.
  apply sorted_lt_ext.
  - apply pending_queries_sorted.
  - rewrite E in Hsorted. now apply sorted_app_r in Hsorted.
  - intros i. rewrite In_pending_queries. split.
    + intros (q & Hq & Hp).
      destruct (in_dec Nat.eq_dec i (pending_queries s)) as [Hin | Hout].
      * rewrite E in Hin. apply in_app_or in Hin as [Hin | Hin]; [|exact Hin].
        destruct (H1 i Hin) as (q' & Hq' & Hst).
        rewrite Hq in Hq'. injection Hq' as <-.
        unfold is_pending in Hp. rewrite Hst in Hp. discriminate.
      * rewrite (H4 i Hout) in Hq. exfalso. apply Hout.
        apply In_pending_queries. eauto.
    + intros Hin. rewrite (H2 i Hin). apply In_pending_queries.
      rewrite E. apply in_or_app. now right.
Qed.

(** X8: the pass takes the pending items oldest first: the items it assigns
    are a first part of the pending items, in queue order, the pending items
    it leaves are the rest, and it leaves some only when no agent is
    available with spare capacity any more; every chat it hands out takes
    one unit of the free capacity of the roster. *)
Theorem X8_pass_assigns_oldest_first :
  forall s : State,
    let s' := assign_pending_queries now notify_raises s in
    exists served left_over,
      pending_queries s = (served ++ left_over)%list
      /\ pending_queries s' = left_over
      /\ (forall i, In i served ->
            exists q, escalated_queries s' !! i = Some q
                      /\ q_status q = "assigned")
      /\ (left_over <> [] -> available_agents s' = [])
      /\ free_capacity s'
         = free_capacity s - Z.of_nat (List.length served).
Proof.
  intros s s'. destruct (pass_split s) as (l1 & l2 & H).
  exists l1, l2. exact H.
Qed.

(** X9: after a pass, no item is pending or no agent is available with spare
    capacity; a second pass right after the first changes nothing. *)
Theorem X9_pass_is_work_conserving :
  forall s : State,
    let s' := assign_pending_queries now notify_raises s in
    (pending_queries s' = [] \/ available_agents s' = [])
    /\ assign_pending_queries now notify_raises s' = s'.
Proof.
  intros s s'.
  destruct (pass_split s) as (l1 & l2 & _ & E & _ & Hnone & _).
  fold s' in E, Hnone.
  assert (H : pending_queries s' = [] \/ available_agents s' = []).
  { destruct l2 as [|i l2]; [now left | right]. apply Hnone. discriminate. }
  split; [exact H|].
  unfold assign_pending_queries at 1. destruct H as [-> | H]; [reflexivity|].
  now apply fold_assign_one_no_agent.
Qed.

(** X10: the number of items a pass assigns is the smaller of the number of
    pending items and the free capacity of the roster: with [p] pending items
    and a free capacity [c], the pass leaves [max 0 (p - c)] items pending
    and a free capacity of [max 0 (c - p)]. *)
Theorem X10_pass_throughput :
  forall s : State,
    let s' := assign_pending_queries now notify_raises s in
    Z.of_nat (pending_count s')
    = Z.max 0 (Z.of_nat (pending_count s) - free_capacity s)
    /\ free_capacity s'
       = Z.max 0 (free_capacity s - Z.of_nat (pending_count s)).
Proof.
  intros s s'.
  destruct (pass_split s) as (l1 & l2 & E & E' & _ & Hnone & Hfree).
  fold s' in E', Hnone, Hfree.
  rewrite <- !pending_queries_length, E, E', length_app.
  pose proof (free_capacity_nonneg s').
  destruct l2 as [|i l2].
  - simpl. lia.
  - assert (Hz : free_capacity s' = 0)
      by (apply free_capacity_zero, Hnone; discriminate).
    simpl List.length. lia.
Qed.

(** *** What the operations keep *)

Lemma extends_refl {A : Type} (R : A -> A -> Prop) (l : list A) :
  (forall x, R x x) -> extends R l l.
Proof. intros HR i x Hx. eauto. Qed.

Lemma extends_trans {A : Type} (R : A -> A -> Prop) (l1 l2 l3 : list A) :
  (forall x y z, R x y -> R y z -> R x z) ->
  extends R l1 l2 -> extends R l2 l3 -> extends R l1 l3.
Proof.
  intros HR H12 H23 i x Hx.
  destruct (H12 i x Hx) as (y & Hy & Rxy).
  destruct (H23 i y Hy) as (z & Hz & Ryz). eauto.
Qed.

Lemma extends_insert {A : Type} (R : A -> A -> Prop) (l : list A) (i : nat)
    (x y : A) :
  (forall x, R x x) -> l !! i = Some x -> R x y -> extends R l (<[i := y]> l).
Proof.
  intros HR Hi Rxy j z Hz. destruct (Nat.eq_dec i j) as [<- | Hne].
  - exists y. split.
    + apply list_lookup_insert_eq. eapply lookup_lt_Some; exact Hi.
    + congruence.
  - exists z. split; [now rewrite list_lookup_insert_ne | apply HR].
Qed.


Lemma same_agent_refl (a : HumanAgent) : same_agent a a.
Proof. unfold same_agent. tauto. Qed.

Lemma same_agent_trans (a b c : HumanAgent) :
  same_agent a b -> same_agent b c -> same_agent a c.
Proof. unfold same_agent. intuition congruence. Qed.




Lemma after_pass_agent_refl (a : HumanAgent) : after_pass_agent a a.
Proof. unfold after_pass_agent. pose proof (same_agent_refl a). intuition lia. Qed.

Lemma after_pass_agent_trans (a b c : HumanAgent) :
  after_pass_agent a b -> after_pass_agent b c -> after_pass_agent a c.
Proof.
  unfold after_pass_agent.
  intros (Hs & Hst & Hle & Hun & Hmax) (Ks & Kst & Kle & Kun & Kmax).
  assert (Hm : max_chats b = max_chats a) by apply Hs.
  split; [|split; [|split; [|split]]].
  - eapply same_agent_trans; eauto.
  - congruence.
  - lia.
  - intros Hav. specialize (Hun Hav). subst b. auto.
  - intros H. rewrite <- Hm. apply Kmax. rewrite Hm. auto.
Qed.

Lemma after_pass_item_refl (q : EscalatedQuery) : after_pass_item q q.
Proof. unfold after_pass_item. auto. Qed.

Lemma after_pass_item_trans (a b c : EscalatedQuery) :
  after_pass_item a b -> after_pass_item b c -> after_pass_item a c.
Proof.
  unfold after_pass_item. intros [Hn Hd] [Kn Kd]. split.
  - intros Hp. assert (b = a) by auto. subst b. auto.
  - destruct Hd as [-> | [Hb Hrb]]; [exact Kd|].
    assert (E : c = b) by (apply Kn; unfold is_pending; now rewrite Hb).
    subst c. right. auto.
Qed.

(** X11: a pass touches nothing but pending items and agents that pass the
    availability filter: every other agent and every other item is left
    exactly as it was; no status of an agent changes, no load decreases, a
    load that was within [max_chats] stays within it, and an item either is
    left as it was or becomes assigned. *)
Theorem X11_pass_touches_only_pending_and_available :
  forall s : State,
    let s' := assign_pending_queries now notify_raises s in
    extends after_pass_agent (agents s) (agents s')
    /\ List.length (agents s') = List.length (agents s)
    /\ extends after_pass_item (escalated_queries s) (escalated_queries s')
    /\ List.length (escalated_queries s') = List.length (escalated_queries s).
Proof.
  intros s. cbv zeta.
  apply (pass_rel (fun s s' =>
           extends after_pass_agent (agents s) (agents s')
           /\ List.length (agents s') = List.length (agents s)
           /\ extends after_pass_item (escalated_queries s) (escalated_queries s')
           /\ List.length (escalated_queries s')
              = List.length (escalated_queries s))).
  - intros s0. repeat split.
    + apply extends_refl, after_pass_agent_refl.
    + apply extends_refl, after_pass_item_refl.
  - intros s1 s2 s3 (A1 & L1 & Q1 & M1) (A2 & L2 & Q2 & M2).
    split; [|split; [|split]]; try congruence.
    + eapply extends_trans; eauto using after_pass_agent_trans.
    + eapply extends_trans; eauto using after_pass_item_trans.
  - intros s0 qi query ai agent Hq Hp Hf.
    destruct (find_best_agent_available _ _ _ _ Hf) as (Ha & Hst & Hlt).
    simpl. split; [|split; [|split]].
    + apply (extends_insert _ _ _ agent); [apply after_pass_agent_refl | exact Ha |].
      unfold after_pass_agent, same_agent, is_available. simpl.
      rewrite Hst. simpl.
      assert (E : (current_chats agent <? max_chats agent) = true)
        by now apply Z.ltb_lt.
      rewrite E. repeat split; try lia; try discriminate.
    + apply length_insert.
    + apply (extends_insert _ _ _ query); [apply after_pass_item_refl | exact Hq |].
      unfold after_pass_item. split; [congruence|]. right. split; reflexivity.
    + apply length_insert.
Qed.

Lemma resolve_loop_inv (query_id : string) (t : Py.datetime)
    (l l' : list EscalatedQuery) (aid : string) :
  resolve_loop query_id t l = Some (l', aid) ->
  exists i q,
    l !! i = Some q /\ q_id q = query_id
    /\ (forall j q', (j < i)%nat -> l !! j = Some q' -> q_id q' <> query_id)
    /\ l' = <[i := mark_resolved t q]> l /\ aid = agent_id q.
Proof.
  revert l'. induction l as [|x l IH]; intros l' E; simpl in E; [discriminate|].
  destruct (String.eqb (q_id x) query_id) eqn:Ex.
  - injection E as <- <-. apply String.eqb_eq in Ex.
    exists 0%nat, x. repeat split; auto. intros j q' Hj. lia.
  - destruct (resolve_loop query_id t l) as [[rest a]|]; [|discriminate].
    injection E as <- <-.
    destruct (IH rest eq_refl) as (i & q & Hi & Hid & Hfirst & -> & ->).
    exists (S i), q. repeat split; auto.
    intros [|j] q' Hj Hq'; simpl in Hq'.
    + injection Hq' as <-. now apply String.eqb_neq.
    + apply (Hfirst j q'); [lia | exact Hq'].
Qed.

Lemma resolve_loop_None (query_id : string) (t : Py.datetime)
    (l : list EscalatedQuery) :
  resolve_loop query_id t l = None ->
  forall q, In q l -> q_id q <> query_id.
Proof.
  induction l as [|x l IH]; intros E q Hq; simpl in *; [destruct Hq|].
  destruct (String.eqb (q_id x) query_id) eqn:Ex; [discriminate|].
  destruct (resolve_loop query_id t l) as [[rest a]|]; [discriminate|].
  destruct Hq as [<- | Hq]; [now apply String.eqb_neq | now apply IH].
Qed.

(** A property of the loads and statuses that the release of a chat
    respects. *)
Lemma release_agent_extends (R : HumanAgent -> HumanAgent -> Prop)
    (aid : string) (l : list HumanAgent) :
  (forall a, R a a) -> (forall a, R a (drop_chat a)) ->
  extends R l (release_agent aid l)
  /\ List.length (release_agent aid l) = List.length l.
Proof.
  intros Hrefl Hdrop. induction l as [|a l [IH IHl]]; simpl.
  - split; [intros i x Hx; discriminate | reflexivity].
  - destruct (String.eqb (a_id a) aid).
    + split; [|reflexivity]. intros [|i] x Hx; simpl in *.
      * injection Hx as <-. eauto.
      * eauto.
    + split; [|simpl; congruence]. intros [|i] x Hx; simpl in *.
      * injection Hx as <-. eauto.
      * apply IH. exact Hx.
Qed.




(** *** Loads and the items that account for them *)

Lemma assigned_count_nonneg (aid : string) (l : list EscalatedQuery) :
  0 <= assigned_count aid l.
Proof. unfold assigned_count. lia. Qed.

Lemma assigned_count_insert (aid : string) (l : list EscalatedQuery) (i : nat)
    (q q' : EscalatedQuery) :
  l !! i = Some q ->
  assigned_count aid (<[i := q']> l)
  = assigned_count aid l - Z.b2z (assigned_to aid q) + Z.b2z (assigned_to aid q').
Proof.
  unfold assigned_count. revert i.
  induction l as [|x l IH]; intros [|i] Hi; simpl in Hi; try discriminate.
  - injection Hi as ->. simpl.
    destruct (assigned_to aid q), (assigned_to aid q'); simpl length; simpl Z.b2z; lia.
  - specialize (IH i Hi). simpl.
    destruct (assigned_to aid x); simpl length; lia.
Qed.

Lemma assigned_count_snoc (aid : string) (l : list EscalatedQuery)
    (q : EscalatedQuery) :
  assigned_to aid q = false ->
  assigned_count aid (l ++ [q]) = assigned_count aid l.
Proof.
  intros Hq. unfold assigned_count. rewrite List.filter_app. simpl.
  rewrite Hq. now rewrite app_nil_r.
Qed.

Lemma assigned_to_pending (aid : string) (q : EscalatedQuery) :
  is_pending q = true -> assigned_to aid q = false.
Proof.
  unfold is_pending, assigned_to. intros Hp. apply String.eqb_eq in Hp.
  now rewrite Hp.
Qed.

Lemma assigned_to_resolved (aid : string) (t : Py.datetime) (q : EscalatedQuery) :
  assigned_to aid (mark_resolved t q) = false.
Proof. reflexivity. Qed.

Lemma assigned_to_id (aid : string) (q : EscalatedQuery) :
  assigned_to aid q = true -> agent_id q = aid.
Proof.
  unfold assigned_to. intros H. apply andb_true_iff in H as [_ H].
  now apply String.eqb_eq.
Qed.

Lemma step_loads_accounted (s : State) (op : Op) :
  NoDup (map a_id (agents s)) ->
  loads_accounted s -> loads_accounted (step now notify_raises s op).
Proof.
  intros Hnd Hinv. destruct op as [c q r p l | | i r | i st]; simpl.
  - rewrite escalate_query_state. unfold loads_accounted in *. simpl.
    eapply Forall_impl; [exact Hinv|]. intros a Ha. simpl in Ha.
    now rewrite assigned_count_snoc.
  - revert Hinv.
    apply (pass_rel (fun s s' => loads_accounted s -> loads_accounted s')); auto.
    clear s Hnd. intros s qi query ai agent Hq Hp Hf Hinv.
    destruct (find_best_agent_available _ _ _ _ Hf) as (Ha & _ & _).
    unfold loads_accounted in *. simpl.
    assert (Hmono : forall aid,
               assigned_count aid
                 (<[qi := mark_assigned agent (now (clock_reads s)) query]>
                    (escalated_queries s))
               = assigned_count aid (escalated_queries s)
                 + Z.b2z (assigned_to aid
                            (mark_assigned agent (now (clock_reads s)) query))).
    { intros aid. rewrite (assigned_count_insert aid _ _ query) by exact Hq.
      rewrite (assigned_to_pending aid query Hp). simpl Z.b2z. lia. }
    apply Forall_insert.
    + eapply Forall_impl; [exact Hinv|]. intros a Hle. simpl in Hle.
      rewrite Hmono.
      destruct (assigned_to (a_id a) _); simpl Z.b2z; lia.
    + rewrite Hmono. simpl a_id. simpl current_chats.
      rewrite Forall_lookup in Hinv. specialize (Hinv ai agent Ha). simpl in Hinv.
      unfold assigned_to. simpl. rewrite String.eqb_refl. simpl Z.b2z. lia.
  - destruct (resolve_query_state now s i r) as [-> | (qs & aid & E & ->)];
      [exact Hinv|].
    simpl. apply resolve_loop_inv in E as (k & q & Hk & _ & _ & -> & ->).
    unfold loads_accounted in *. simpl.
    assert (Hcount : forall aid,
               assigned_count aid
                 (<[k := mark_resolved (now (clock_reads s)) q]>
                    (escalated_queries s))
               = assigned_count aid (escalated_queries s)
                 - Z.b2z (assigned_to aid q)).
    { intros aid. rewrite (assigned_count_insert aid _ _ q) by exact Hk.
      rewrite assigned_to_resolved. simpl Z.b2z. lia. }
    destruct (in_dec String.string_dec (agent_id q) (map a_id (agents s)))
      as [Hin | Hout].
    + apply list_elem_of_In, list_elem_of_lookup_1 in Hin as [j Hj].
      rewrite lookup_map in Hj.
      destruct (agents s !! j) as [a0|] eqn:Ha0; [|discriminate].
      simpl in Hj. injection Hj as Hid. rewrite <- Hid.
      rewrite (release_agent_at _ j a0 Hnd Ha0).
      rewrite Forall_lookup in Hinv |- *. intros n a Hn.
      destruct (decide (n = j)) as [-> | Hne].
      * rewrite list_lookup_insert_eq in Hn by (now apply lookup_lt_Some in Ha0).
        injection Hn as <-. simpl. rewrite Hcount.
        specialize (Hinv j a0 Ha0). simpl in Hinv.
        pose proof (assigned_count_nonneg (a_id a0)
                      (<[k := mark_resolved (now (clock_reads s)) q]>
                         (escalated_queries s))) as Hnn.
        rewrite Hcount in Hnn.
        destruct (assigned_to (a_id a0) q); simpl Z.b2z in *; lia.
      * rewrite list_lookup_insert_ne in Hn by auto.
        specialize (Hinv n a Hn). simpl in Hinv. rewrite Hcount.
        destruct (assigned_to (a_id a) q) eqn:Hto; simpl Z.b2z; [|lia].
        exfalso. apply assigned_to_id in Hto.
        apply Hne. eapply NoDup_lookup; [exact Hnd | |].
        -- rewrite lookup_map, Hn. reflexivity.
        -- rewrite lookup_map, Ha0. simpl. congruence.
    + rewrite (release_agent_no_match notify_raises _ _ Hout).
      rewrite Forall_lookup in Hinv |- *. intros n a Hn.
      specialize (Hinv n a Hn). simpl in Hinv. rewrite Hcount.
      destruct (assigned_to (a_id a) q) eqn:Hto; simpl Z.b2z; [|lia].
      exfalso. apply assigned_to_id in Hto. apply Hout.
      rewrite Hto. apply in_map.
      apply list_elem_of_In. eapply list_elem_of_lookup_2; eauto.
  - destruct (update_agent_status_state now s i st) as [-> | (ags & E & ->)];
      [exact Hinv|].
    unfold loads_accounted in *. simpl.
    eapply update_loop_Forall; [|exact E|exact Hinv].
    intros a Ha. exact Ha.
Qed.

Lemma run_loads_accounted (ops : list Op) :
  let s := run now notify_raises ops (initial_state now) in
  loads_accounted s /\ Forall (fun a => 0 <= current_chats a) (agents s).
Proof.
  cbv zeta.
  cut (map a_id (agents (run now notify_raises ops (initial_state now)))
       = ["agent_1"; "agent_2"; "agent_3"; "agent_4"]
       /\ loads_accounted (run now notify_raises ops (initial_state now))
       /\ Forall (fun a => 0 <= current_chats a)
                 (agents (run now notify_raises ops (initial_state now))));
    [tauto|].
  apply (run_invariant now notify_raises
           (fun s => map a_id (agents s)
                     = ["agent_1"; "agent_2"; "agent_3"; "agent_4"]
                     /\ loads_accounted s
                     /\ Forall (fun a => 0 <= current_chats a) (agents s))).
  - intros s0 op (Hids & Hinv & Hnn). split; [|split].
    + now rewrite step_agent_ids.
    + apply step_loads_accounted; [|exact Hinv].
      rewrite Hids. apply roster_ids_NoDup.
    + apply step_agents_Forall; [|exact Hnn].
      repeat split; simpl; intros; lia.
  - split; [reflexivity|].
    split; [unfold loads_accounted|]; simpl; repeat constructor;
      vm_compute; discriminate.
Qed.

(** X13: in every reachable state the load of an agent is at most the number of
    items that are assigned to it: no operation counts a chat for an agent
    without an item of the queue that names the agent.  (The converse
    fails: resolving an item twice gives two chats back.) *)
Theorem X13_load_is_covered_by_assigned_items :
  forall ops : list Op,
    let s := run now notify_raises ops (initial_state now) in
    Forall (fun agent =>
              0 <= current_chats agent
                <= assigned_count (a_id agent) (escalated_queries s))
           (agents s).
Proof.
  intros ops s. destruct (run_loads_accounted ops) as [Hinv Hnn].
  fold s in Hinv, Hnn. unfold loads_accounted in Hinv.
  rewrite Forall_lookup in Hinv, Hnn. apply Forall_lookup.
  intros i agent Hi. split; [exact (Hnn i agent Hi) | exact (Hinv i agent Hi)].
Qed.

(** *** Status updates *)

Lemma update_loop_inv (aid : string) (st : AgentStatus) (t : Py.datetime)
    (l l' : list HumanAgent) :
  update_loop aid st t l = Some l' ->
  exists i a,
    l !! i = Some a /\ a_id a = aid
    /\ (forall j b, (j < i)%nat -> l !! j = Some b -> a_id b <> aid)
    /\ l' = <[i := set_status st t a]> l.
Proof.
  revert l'. induction l as [|x l IH]; intros l' E; simpl in E; [discriminate|].
  destruct (String.eqb (a_id x) aid) eqn:Ex.
  - injection E as <-. apply String.eqb_eq in Ex.
    exists 0%nat, x. repeat split; auto. intros j b Hj. lia.
  - destruct (update_loop aid st t l) as [rest|]; [|discriminate].
    injection E as <-.
    destruct (IH rest eq_refl) as (i & a & Hi & Hid & Hfirst & ->).
    exists (S i), a. repeat split; auto.
    intros [|j] b Hj Hb; simpl in Hb.
    + injection Hb as <-. now apply String.eqb_neq.
    + apply (Hfirst j b); [lia | exact Hb].
Qed.

Lemma update_loop_None (aid : string) (st : AgentStatus) (t : Py.datetime)
    (l : list HumanAgent) :
  update_loop aid st t l = None <-> ~ In aid (map a_id l).
Proof.
  induction l as [|x l IH]; simpl; [tauto|].
  destruct (String.eqb (a_id x) aid) eqn:Ex.
  - apply String.eqb_eq in Ex. split; [discriminate | tauto].
  - apply String.eqb_neq in Ex.
    destruct (update_loop aid st t l) as [rest|].
    + split; [discriminate|]. intros H. exfalso.
      assert (Hn : ~ In aid (map a_id l)) by tauto.
      apply IH in Hn. discriminate.
    + split; [|reflexivity]. intros _ [H | H]; [contradiction|].
      now apply IH in H.
Qed.

(** X14: [update_agent_status] returns [True] exactly when some agent carries
    the id; otherwise it changes nothing.  On success the first agent that
    carries the id gets the new status and a new [last_activity], and
    nothing else changes: every other agent, every load and the queue are as
    before, so a status update neither releases the chats of the agent nor
    touches the items assigned to it. *)
Theorem X14_update_agent_status_effect :
  forall (s : State) (aid : string) (status : AgentStatus),
    let r := update_agent_status now s aid status in
    (fst r = true <-> In aid (map a_id (agents s)))
    /\ (fst r = false -> snd r = s)
    /\ escalated_queries (snd r) = escalated_queries s
    /\ map current_chats (agents (snd r)) = map current_chats (agents s)
    /\ (forall i a, agents s !! i = Some a -> a_id a <> aid ->
                    agents (snd r) !! i = Some a)
    /\ (forall i a,
           agents s !! i = Some a -> a_id a = aid ->
           (forall j b, (j < i)%nat -> agents s !! j = Some b -> a_id b <> aid) ->
           agents (snd r)
           = <[i := set_status status (now (clock_reads s)) a]> (agents s)).
Proof.
  intros s aid status r. unfold r, update_agent_status.
  destruct (update_loop aid status (now (clock_reads s)) (agents s))
    as [ags|] eqn:E; simpl.
  - pose proof E as E'.
    apply update_loop_inv in E as (k & a0 & Hk & Hid & Hfirst & ->).
    split; [|split; [|split; [|split; [|split]]]].
    + split; [intros _ | reflexivity].
      rewrite <- Hid. apply in_map, list_elem_of_In.
      eapply list_elem_of_lookup_2; exact Hk.
    + discriminate.
    + reflexivity.
    + now apply map_insert_same with (y := a0).
    + intros i a Hi Hne. rewrite list_lookup_insert_ne; [exact Hi|].
      intros ->. rewrite Hk in Hi. injection Hi as ->. contradiction.
    + intros i a Hi Hida Hfirsta.
      assert (i = k) as ->.
      { destruct (Nat.lt_trichotomy i k) as [Hlt | [-> | Hgt]]; [|reflexivity|].
        - exfalso. now apply (Hfirst i a Hlt Hi).
        - exfalso. now apply (Hfirsta k a0 Hgt Hk). }
      rewrite Hk in Hi. now injection Hi as ->.
  - apply update_loop_None in E.
    split; [|split; [|split; [|split; [|split]]]]; auto.
    + split; [discriminate | contradiction].
    + intros i a Hi Hid. exfalso. apply E. rewrite <- Hid.
      apply in_map, list_elem_of_In. eapply list_elem_of_lookup_2; exact Hi.
Qed.

Lemma idle_agent_refl (a : HumanAgent) : idle_agent a a.
Proof.
  unfold idle_agent. repeat split; auto using same_agent_refl. lia.
Qed.

Lemma idle_agent_trans (a b c : HumanAgent) :
  idle_agent a b -> idle_agent b c -> idle_agent a c.
Proof.
  unfold idle_agent. intros (S1 & St1 & L1 & C1) (S2 & St2 & L2 & C2).
  split; [eauto using same_agent_trans|].
  split; [congruence|]. split; [congruence|]. lia.
Qed.

Lemma idle_agent_drop (a : HumanAgent) : idle_agent a (drop_chat a).
Proof.
  unfold idle_agent, same_agent. simpl. repeat split; lia.
Qed.

Lemma step_idle (s : State) (op : Op) (i : nat) (a : HumanAgent) :
  agents s !! i = Some a -> a_status a <> AVAILABLE ->
  updates_status_of (a_id a) op = false ->
  exists a', agents (step now notify_raises s op) !! i = Some a'
             /\ idle_agent a a'.
Proof.
  intros Hi Hst Hop. destruct op as [c q r p l | | qid r | aid st]; simpl.
  - rewrite escalate_query_state. simpl. eauto using idle_agent_refl.
  - exists a. split; [|apply idle_agent_refl].
    revert Hi.
    apply (pass_rel (fun s s' => agents s !! i = Some a -> agents s' !! i = Some a));
      auto.
    intros s0 qi query ai agent Hq Hp Hf Hi. simpl.
    destruct (find_best_agent_available _ _ _ _ Hf) as (Ha & Hav & _).
    rewrite list_lookup_insert_ne; [exact Hi|].
    intros ->. rewrite Ha in Hi. injection Hi as ->. contradiction.
  - destruct (resolve_query_state now s qid r) as [-> | (qs & aid & E & ->)];
      [eauto using idle_agent_refl|].
    simpl.
    destruct (release_agent_extends idle_agent aid (agents s)
                idle_agent_refl idle_agent_drop) as [He _].
    apply (He i a Hi).
  - destruct (update_agent_status_state now s aid st) as [-> | (ags & E & ->)];
      [eauto using idle_agent_refl|].
    simpl. apply update_loop_inv in E as (k & a0 & Hk & Hid & _ & ->).
    exists a. split; [|apply idle_agent_refl].
    rewrite list_lookup_insert_ne; [exact Hi|].
    intros ->. rewrite Hk in Hi. injection Hi as ->.
    simpl in Hop. rewrite Hid, String.eqb_refl in Hop. discriminate.
Qed.

(** X15: an agent whose status is not AVAILABLE takes no new chat: over any
    sequence of operations that holds no status update for its id, the
    agent keeps its status and its [last_activity], and its load does not
    rise (chats may be given back by resolutions). *)
Theorem X15_unavailable_agent_takes_no_chat :
  forall (ops : list Op) (s : State) (i : nat) (agent : HumanAgent),
    agents s !! i = Some agent ->
    a_status agent <> AVAILABLE ->
    forallb (fun op => negb (updates_status_of (a_id agent) op)) ops = true ->
    exists agent',
      agents (run now notify_raises ops s) !! i = Some agent'
      /\ idle_agent agent agent'.
Proof.
  induction ops as [|op ops IH]; intros s i agent Hi Hst Hops; simpl.
  - eauto using idle_agent_refl.
  - simpl in Hops. apply andb_true_iff in Hops as [Hop Hrest].
    apply negb_true_iff in Hop.
    destruct (step_idle s op i agent Hi Hst Hop) as (a1 & H1 & Hidle1).
    pose proof Hidle1 as ((Hid & _) & Hst1 & _).
    destruct (IH (step now notify_raises s op) i a1 H1) as (a2 & H2 & Hidle2).
    + congruence.
    + now rewrite Hid.
    + exists a2. split; [exact H2 | eapply idle_agent_trans; eauto].
Qed.

(** *** Resolution and the response that is read back *)

Lemma agent_name_of_release (aid aid' : string) (l : list HumanAgent) :
  agent_name_of aid (release_agent aid' l) = agent_name_of aid l.
Proof.
  induction l as [|a l IH]; simpl; [reflexivity|].
  destruct (String.eqb (a_id a) aid'); simpl.
  - reflexivity.
  - now rewrite IH.
Qed.

Lemma response_loop_first (ags : list HumanAgent) (query_id : string)
    (l : list EscalatedQuery) (i : nat) (q : EscalatedQuery) :
  l !! i = Some q -> q_id q = query_id -> q_status q = "resolved" ->
  (forall j q', (j < i)%nat -> l !! j = Some q' -> q_id q' <> query_id) ->
  response_loop ags query_id l
  = Some (mk_response query_id "Response from human agent"
                      (agent_name_of (agent_id q) ags) (resolved_time q)).
Proof.
  revert i. induction l as [|x l IH]; intros [|i] Hi Hid Hst Hfirst;
    simpl in Hi; try discriminate.
  - injection Hi as ->. simpl.
    rewrite Hid, Hst, String.eqb_refl. reflexivity.
  - simpl.
    assert (Hx : String.eqb (q_id x) query_id = false).
    { apply String.eqb_neq. apply (Hfirst 0%nat x); [lia | reflexivity]. }
    rewrite Hx. simpl. apply (IH i Hi Hid Hst).
    intros j q' Hj Hq'. apply (Hfirst (S j) q'); [lia | exact Hq'].
Qed.

Lemma response_loop_Some (ags : list HumanAgent) (query_id : string)
    (l : list EscalatedQuery) (r : AgentResponse) :
  response_loop ags query_id l = Some r ->
  exists q, In q l /\ q_id q = query_id /\ q_status q = "resolved"
            /\ r = mk_response query_id "Response from human agent"
                               (agent_name_of (agent_id q) ags)
                               (resolved_time q).
Proof.
  induction l as [|x l IH]; simpl; [discriminate|].
  destruct (String.eqb (q_id x) query_id && String.eqb (q_status x) "resolved")
    eqn:E.
  - intros [= <-]. apply andb_true_iff in E as [E1 E2].
    apply String.eqb_eq in E1, E2. exists x. auto.
  - intros H. destruct (IH H) as (q & Hin & Hq). exists q. auto.
Qed.

Lemma response_loop_None (ags : list HumanAgent) (query_id : string)
    (l : list EscalatedQuery) :
  response_loop ags query_id l = None <->
  (forall q, In q l -> q_id q = query_id -> q_status q <> "resolved").
Proof.
  induction l as [|x l IH]; simpl; [tauto|].
  destruct (String.eqb (q_id x) query_id && String.eqb (q_status x) "resolved")
    eqn:E.
  - apply andb_true_iff in E as [E1 E2]. apply String.eqb_eq in E1, E2.
    split; [discriminate|]. intros H. exfalso. now apply (H x); auto.
  - rewrite IH. apply andb_false_iff in E.
    split.
    + intros H q [<- | Hin] Hid; [|now apply H].
      destruct E as [E | E]; apply String.eqb_neq in E; congruence.
    + intros H q Hin. apply H. now right.
Qed.

Lemma first_with_id (query_id : string) (l : list EscalatedQuery) :
  In query_id (map q_id l) ->
  exists i q,
    l !! i = Some q /\ q_id q = query_id
    /\ (forall j q', (j < i)%nat -> l !! j = Some q' -> q_id q' <> query_id).
Proof.
  induction l as [|x l IH]; simpl; [tauto|]. intros Hin.
  destruct (String.string_dec (q_id x) query_id) as [Hx | Hx].
  - exists 0%nat, x. repeat split; auto. intros j q' Hj. lia.
  - destruct IH as (i & q & Hi & Hid & Hfirst); [tauto|].
    exists (S i), q. repeat split; auto.
    intros [|j] q' Hj Hq'; simpl in Hq'.
    + now injection Hq' as <-.
    + apply (Hfirst j q'); [lia | exact Hq'].
Qed.

(** X16: [resolve_query] returns [True] exactly when some item carries the id,
    whatever the status of the item is, and otherwise changes nothing; the
    text of the agent's response plays no part in the result or in the new
    state.  On success the first item that carries the id is marked
    resolved, stamped with the clock reading, and the first agent whose id
    is the [agent_id] of the item gives one chat back (never below zero):
    resolving an item that is already resolved succeeds again, moves its
    resolution time and gives another chat back. *)
Theorem X16_resolve_query_effect :
  forall (s : State) (qid text : string),
    let r := resolve_query now s qid text in
    (fst r = true <-> In qid (map q_id (escalated_queries s)))
    /\ (fst r = false -> snd r = s)
    /\ (forall text', resolve_query now s qid text' = r)
    /\ (forall i q,
           escalated_queries s !! i = Some q -> q_id q = qid ->
           (forall j q', (j < i)%nat -> escalated_queries s !! j = Some q' ->
                         q_id q' <> qid) ->
           escalated_queries (snd r)
           = <[i := mark_resolved (now (clock_reads s)) q]> (escalated_queries s)
           /\ agents (snd r) = release_agent (agent_id q) (agents s)).
Proof.
  intros s qid text r. unfold r, resolve_query.
  destruct (resolve_loop qid (now (clock_reads s)) (escalated_queries s))
    as [[qs aid]|] eqn:E; simpl.
  - apply resolve_loop_inv in E as (k & q0 & Hk & Hid & Hfirst & -> & ->).
    split; [|split; [|split]].
    + split; [intros _ | reflexivity].
      rewrite <- Hid. apply in_map, list_elem_of_In.
      eapply list_elem_of_lookup_2; exact Hk.
    + discriminate.
    + reflexivity.
    + intros i q Hi Hidq Hfirstq.
      assert (i = k) as ->.
      { destruct (Nat.lt_trichotomy i k) as [Hlt | [-> | Hgt]]; [|reflexivity|].
        - exfalso. now apply (Hfirst i q Hlt Hi).
        - exfalso. now apply (Hfirstq k q0 Hgt Hk). }
      rewrite Hk in Hi. injection Hi as ->. auto.
  - pose proof (resolve_loop_None _ _ _ E) as Hnone.
    split; [|split; [|split]]; auto.
    + split; [discriminate|]. intros Hin. exfalso.
      apply in_map_iff in Hin as (q & Hid & Hin). now apply (Hnone q).
    + intros i q Hi Hid. exfalso. apply (Hnone q); [|exact Hid].
      apply list_elem_of_In. eapply list_elem_of_lookup_2; exact Hi.
Qed.

(** X17: what [get_agent_response] reads back after [resolve_query]: when some
    item carries the id, the resolution succeeds and the response that is
    read back for the id carries the fixed text "Response from human agent"
    and not the text the agent gave, the name of the first agent whose id is
    the [agent_id] of the first item with that id, the item at the least
    position [i] of the queue that carries the id ("Unknown" when there is
    no such agent, as for an item that was never assigned), and the time of
    the resolution. *)
Theorem X17_response_after_resolve :
  forall (s : State) (qid text : string),
    In qid (map q_id (escalated_queries s)) ->
    let r := resolve_query now s qid text in
    fst r = true
    /\ exists i q,
         escalated_queries s !! i = Some q /\ q_id q = qid
         /\ (forall j q', (j < i)%nat -> escalated_queries s !! j = Some q' ->
                          q_id q' <> qid)
         /\ get_agent_response (snd r) qid
            = Some (mk_response qid "Response from human agent"
                                (agent_name_of (agent_id q) (agents s))
                                (Py.isoformat (now (clock_reads s)))).
Proof.
  intros s qid text Hin r.
  destruct (first_with_id _ _ Hin) as (i & q & Hi & Hid & Hfirst).
  assert (Hr : r = (true,
                    mk_state (release_agent (agent_id q) (agents s))
                             (<[i := mark_resolved (now (clock_reads s)) q]>
                                (escalated_queries s))
                             (complexity_thresholds s) (S (clock_reads s)))).
  { unfold r, resolve_query.
    now rewrite (resolve_loop_found _ _ _ _ _ Hi Hid Hfirst). }
  rewrite Hr. simpl. split; [reflexivity|].
  exists i, q. split; [exact Hi|]. split; [exact Hid|]. split; [exact Hfirst|].
  unfold get_agent_response. simpl.
  rewrite (response_loop_first _ qid _ i (mark_resolved (now (clock_reads s)) q)).
  - simpl. now rewrite agent_name_of_release.
  - apply list_lookup_insert_eq. now apply lookup_lt_Some in Hi.
  - exact Hid.
  - reflexivity.
  - intros j q' Hj Hq'. rewrite list_lookup_insert_ne in Hq' by lia.
    now apply (Hfirst j q').
Qed.

(** X18: [get_agent_response] answers for resolved items only: the result is
    [None] exactly when no item with the id is resolved (the id is unknown,
    or its items are pending or assigned), and every response it returns
    echoes the id and carries the fixed text and the resolution time of a
    resolved item with that id. *)
Theorem X18_get_agent_response_only_resolved :
  forall (s : State) (qid : string),
    (get_agent_response s qid = None <->
     forall q, In q (escalated_queries s) -> q_id q = qid ->
               q_status q <> "resolved")
    /\ (forall r, get_agent_response s qid = Some r ->
          r_query_id r = qid /\ response r = "Response from human agent"
          /\ exists q, In q (escalated_queries s) /\ q_id q = qid
                       /\ q_status q = "resolved"
                       /\ response_time r = resolved_time q
                       /\ agent_name r = agent_name_of (agent_id q) (agents s)).
Proof.
  intros s qid. unfold get_agent_response. split.
  - apply response_loop_None.
  - intros r Hr. apply response_loop_Some in Hr as (q & Hin & Hid & Hst & ->).
    simpl. repeat split. exists q. auto.
Qed.

(** *** What the matcher's choice depends on *)

Lemma fold_best_step_shift (q q' : EscalatedQuery) (c : Q)
    (l : list (nat * HumanAgent)) :
  Forall (fun y => (agent_score q' (snd y) == agent_score q (snd y) + c)%Q) l ->
  forall acc acc' : option (nat * HumanAgent) * Q,
    fst acc' = fst acc -> (snd acc' == snd acc + c)%Q ->
    fst (fold_left (best_step q') l acc') = fst (fold_left (best_step q) l acc).
Proof.
  induction 1 as [|y l Hy Hl IH]; intros acc acc' Hfst Hsnd; simpl; [exact Hfst|].
  apply IH; unfold best_step.
  - destruct (Qle_bool (agent_score q (snd y)) (snd acc)) eqn:E;
      destruct (Qle_bool (agent_score q' (snd y)) (snd acc')) eqn:E';
      simpl; auto.
    + apply Qle_bool_iff in E.
      assert (H' : (agent_score q' (snd y) <= snd acc')%Q) by lra.
      apply Qle_bool_iff in H'. congruence.
    + apply Qle_bool_iff in E'.
      assert (H' : (agent_score q (snd y) <= snd acc)%Q) by lra.
      apply Qle_bool_iff in H'. congruence.
  - destruct (Qle_bool (agent_score q (snd y)) (snd acc)) eqn:E;
      destruct (Qle_bool (agent_score q' (snd y)) (snd acc')) eqn:E';
      simpl; auto.
    + apply Qle_bool_iff in E.
      assert (H' : (agent_score q' (snd y) <= snd acc')%Q) by lra.
      apply Qle_bool_iff in H'. congruence.
    + apply Qle_bool_iff in E'.
      assert (H' : (agent_score q (snd y) <= snd acc)%Q) by lra.
      apply Qle_bool_iff in H'. congruence.
Qed.

(** Two items whose scores differ by the same amount for every candidate
    get the same agent. *)
Lemma find_best_agent_shift (s : State) (q q' : EscalatedQuery) (c : Q) :
  (forall a, is_available a = true ->
             (agent_score q' a == agent_score q a + c)%Q) ->
  find_best_agent s q' = find_best_agent s q.
Proof.
  intros Hc. unfold find_best_agent.
  destruct (available_agents s) as [|x l] eqn:E; [reflexivity|].
  assert (Hall : Forall (fun y => is_available (snd y) = true) (x :: l)).
  { rewrite <- E. unfold available_agents. apply List.Forall_forall.
    intros y Hy. now apply filter_In in Hy. }
  inversion Hall as [|? ? Hx Hl]; subst.
  simpl fold_left.
  rewrite (best_step_take q'), (best_step_take q)
    by (simpl; pose proof (available_score_pos q _ Hx);
        pose proof (available_score_pos q' _ Hx); lra).
  apply fold_best_step_shift with (c := c); simpl; auto.
  eapply Forall_impl; [exact Hl|]. intros y Hy. simpl. auto.
Qed.

(** X19: the choice of [find_best_agent] depends on the item through its reason
    and its [language] attribute only: the bonus for a priority of 4 or
    more is added to the score of every candidate alike, so it never
    changes which agent is chosen. *)
Theorem X19_priority_never_changes_the_choice :
  forall (s : State) (item item' : EscalatedQuery),
    reason item' = reason item ->
    q_language item' = q_language item ->
    find_best_agent s item' = find_best_agent s item.
Proof.
  intros s item item' Hr Hl.
  apply find_best_agent_shift
    with (c := (priority_score item' - priority_score item)%Q).
  intros a _. unfold agent_score, expertise_score, language_score.
  rewrite Hr, Hl. lra.
Qed.

(** The candidate that [find_best_agent] returns, ranked against the
    others. *)
Lemma find_best_agent_ranked (s : State) (query : EscalatedQuery) (i : nat)
    (a : HumanAgent) :
  find_best_agent s query = Some (i, a) ->
  forall j b,
    In (j, b) (available_agents s) ->
    (agent_score query b <= agent_score query a)%Q
    /\ ((j < i)%nat -> (agent_score query b < agent_score query a)%Q).
Proof.
  intros Hfind j b Hin.
  destruct (find_best_agent_split query s) as (l1 & r & l2 & Hr & E & H1 & H2).
  { intros E. unfold find_best_agent in Hfind. now rewrite E in Hfind. }
  assert (r = (i, a)) by congruence. subst r.
  unfold available_agents in E.
  destruct (filter_split _ _ _ _ _ E) as (l1' & l2' & Henum & <- & <-).
  destruct (enumerate_from_split _ _ _ _ _ _ Henum) as [Hbefore Hafter].
  rewrite List.Forall_forall in H1, H2.
  unfold available_agents in Hin. rewrite Henum in Hin.
  rewrite List.filter_app in Hin. simpl in Hin.
  apply in_app_or in Hin as [Hin | Hin].
  - specialize (H1 _ Hin). simpl in H1. split; [lra | intros _; exact H1].
  - destruct (is_available a) eqn:Hav.
    + destruct Hin as [Eq | Hin].
      * inversion Eq; subst. split; [lra | lia].
      * specialize (H2 _ Hin). simpl in H2. split; [exact H2|].
        apply filter_In in Hin as [Hin _]. apply Hafter in Hin. lia.
    + specialize (H2 _ Hin). simpl in H2. split; [exact H2|].
      apply filter_In in Hin as [Hin _]. apply Hafter in Hin. lia.
Qed.

Lemma run_roster_expertise (ops : list Op) :
  Forall (fun a => In (a_id a, expertise a) roster_expertise)
         (agents (run now notify_raises ops (initial_state now))).
Proof.
  apply (run_agents_Forall now notify_raises
           (fun a => In (a_id a, expertise a) roster_expertise)).
  - repeat split; simpl; intros; auto.
  - repeat constructor; simpl; tauto.
Qed.

Lemma roster_expertise_score (query : EscalatedQuery) (agent : HumanAgent) :
  In (a_id agent, expertise agent) roster_expertise ->
  expertise_score query agent
  = match reason query with
    | EMERGENCY => if String.eqb (a_id agent) "agent_4" then 2%Q else 0%Q
    | _ => 0%Q
    end.
Proof.
  unfold expertise_score. intros Hin. simpl in Hin.
  destruct Hin as [H|[H|[H|[H|[]]]]]; injection H as <- <-;
    destruct (reason query); vm_compute; reflexivity.
Qed.

(** X20: on the roster of the module the expertise bonus is dead but for one
    case.  The reason is split at the underscores and each word is looked
    up in the agent's expertise list, whose entries are whole tags
    ("price_negotiation", "custom_requirements", "complaints"): no word of
    a reason is such an entry, except "emergency".  In every reachable
    state the expertise score of an item for an agent is 2 when the reason
    is EMERGENCY and the agent is agent_4, and 0 otherwise. *)
Theorem X20_expertise_bonus_only_for_emergency :
  forall (ops : list Op) (item : EscalatedQuery),
    Forall (fun agent =>
              expertise_score item agent
              = match reason item with
                | EMERGENCY =>
                    if String.eqb (a_id agent) "agent_4" then 2%Q else 0%Q
                | _ => 0%Q
                end)
           (agents (run now notify_raises ops (initial_state now))).
Proof.
  intros ops item.
  eapply Forall_impl; [apply run_roster_expertise|].
  intros agent Hin. now apply roster_expertise_score.
Qed.

(** X21: every item of the queue whose reason is not EMERGENCY goes to the
    candidate with the most spare chats, the first of them in roster order:
    in a reachable state neither the expertise nor the language of an agent
    plays a part in the choice for such an item. *)
Theorem X21_most_spare_chats_wins :
  forall (ops : list Op) (item : EscalatedQuery) (i j : nat)
         (a b : HumanAgent),
    let s := run now notify_raises ops (initial_state now) in
    In item (escalated_queries s) ->
    reason item <> EMERGENCY ->
    find_best_agent s item = Some (i, a) ->
    In (j, b) (available_agents s) ->
    spare_chats b <= spare_chats a
    /\ ((j < i)%nat -> spare_chats b < spare_chats a).
Proof.
  intros ops item i j a b s Hitem Hreason Hfind Hb.
  assert (Hlang : q_language item = None).
  { pose proof (run_queries_Forall now notify_raises
                  (fun q => q_language q = None)) as Hall.
    specialize (Hall ltac:(repeat split; auto) ops).
    rewrite List.Forall_forall in Hall. now apply Hall. }
  assert (Hscore : forall k x, In (k, x) (available_agents s) ->
             (agent_score item x
              == priority_score item + inject_Z (spare_chats x) * (1 # 2))%Q).
  { intros k x Hx. apply In_available_agents in Hx as [Hk _].
    pose proof (run_roster_expertise ops) as Hexp.
    rewrite Forall_lookup in Hexp. specialize (Hexp k x Hk). simpl in Hexp.
    unfold agent_score, language_score, capacity_score, spare_chats.
    rewrite (roster_expertise_score item x Hexp), Hlang.
    destruct (reason item); try lra. contradiction. }
  destruct (find_best_agent_ranked s item i a Hfind j b Hb) as [Hle Hlt].
  rewrite (Hscore j b Hb) in Hle, Hlt.
  rewrite (Hscore i a (find_best_agent_In _ _ _ _ Hfind)) in Hle, Hlt.
  split.
  - assert (H : (inject_Z (spare_chats b) <= inject_Z (spare_chats a))%Q) by lra.
    now rewrite <- Zle_Qle in H.
  - intros Hji. specialize (Hlt Hji).
    assert (H : (inject_Z (spare_chats b) < inject_Z (spare_chats a))%Q) by lra.
    now rewrite <- Zlt_Qlt in H.
Qed.

(** *** Identifiers of escalated items *)

Lemma digits_ok_from (w k m : nat) :
  digits_ok w k (Unsigned.to_lu m) = true ->
  forall n, (m <= n < m + k)%nat ->
            (Decimal.nb_digits (Unsigned.to_lu n) <= w)%nat.
Proof.
  revert m. induction k as [|k IH]; intros m H n Hn; [lia|].
  simpl in H. apply andb_true_iff in H as [H1 H2].
  destruct (Nat.eq_dec n m) as [-> | Hne].
  - now apply Nat.leb_le.
  - rewrite <- Unsigned.to_lu_succ in H2. apply (IH (S m) H2). lia.
Qed.

Lemma string_of_uint_length (d : Decimal.uint) :
  String.length (NilEmpty.string_of_uint d) = Decimal.nb_digits d.
Proof. induction d; simpl; congruence. Qed.

Lemma to_uint_nonnil (n : nat) : Nat.to_uint n <> Decimal.Nil.
Proof.
  intros H. pose proof (Unsigned.of_to n) as E. rewrite H in E.
  subst n. discriminate.
Qed.

Lemma to_uint_string (n : nat) :
  NilZero.string_of_uint (Nat.to_uint n)
  = NilEmpty.string_of_uint (Nat.to_uint n).
Proof.
  pose proof (to_uint_nonnil n) as H.
  destruct (Nat.to_uint n); [contradiction | reflexivity ..].
Qed.

Lemma zeros_length (k : nat) : String.length (Py.zeros k) = k.
Proof. induction k; simpl; congruence. Qed.

Lemma string_length_app (a b : string) :
  String.length (a ++ b) = (String.length a + String.length b)%nat.
Proof. induction a; simpl; congruence. Qed.

Lemma zfill_length (w n : nat) :
  (Decimal.nb_digits (Unsigned.to_lu n) <= w)%nat ->
  String.length (Py.zfill w n) = w.
Proof.
  intros H. unfold Py.zfill. cbv zeta.
  rewrite string_length_app, zeros_length, to_uint_string, string_of_uint_length.
  rewrite Unsigned.to_uint_alt, nb_digits_rev. lia.
Qed.

Lemma read_zeros (k : nat) (s : string) (d : Decimal.uint) :
  s <> EmptyString -> NilEmpty.uint_of_string s = Some d ->
  read_field (Py.zeros k ++ s) = Some (Nat.of_uint d).
Proof.
  intros Hs Hd. unfold read_field.
  assert (H : NilEmpty.uint_of_string (Py.zeros k ++ s)
              = Some (Nat.iter k Decimal.D0 d)).
  { induction k as [|k IH]; simpl; [exact Hd|]. now rewrite IH. }
  assert (Hne : (Py.zeros k ++ s)%string <> EmptyString).
  { destruct k; simpl; [exact Hs | discriminate]. }
  unfold NilZero.uint_of_string.
  destruct (Py.zeros k ++ s)%string eqn:E; [contradiction|].
  rewrite H. simpl. f_equal.
  clear. induction k as [|k IH]; simpl; [reflexivity | exact IH].
Qed.

Lemma read_zfill (w n : nat) : read_field (Py.zfill w n) = Some n.
Proof.
  unfold Py.zfill. cbv zeta. rewrite to_uint_string.
  rewrite (read_zeros _ _ (Nat.to_uint n)).
  - now rewrite Unsigned.of_to.
  - pose proof (to_uint_nonnil n) as H.
    destruct (Nat.to_uint n); [contradiction | discriminate ..].
  - apply NilEmpty.usu.
Qed.

Lemma zfill_2 (n : nat) :
  (n < 100)%nat ->
  String.length (Py.zfill 2 n) = 2%nat /\ read_field (Py.zfill 2 n) = Some n.
Proof.
  intros Hn. split; [|apply read_zfill].
  apply zfill_length.
  apply (digits_ok_from 2 100 0); [vm_compute; reflexivity | lia].
Qed.

Lemma zfill_4 (n : nat) :
  (n < 100 * 100)%nat ->
  String.length (Py.zfill 4 n) = 4%nat /\ read_field (Py.zfill 4 n) = Some n.
Proof.
  intros Hn. split; [|apply read_zfill].
  apply zfill_length.
  apply (digits_ok_from 4 (100 * 100) 0); [vm_compute; reflexivity | lia].
Qed.

Lemma string_app_inj (a a' b b' : string) :
  String.length a = String.length a' ->
  (a ++ b)%string = (a' ++ b')%string -> a = a' /\ b = b'.
Proof.
  revert a'. induction a as [|c a IH]; intros [|c' a'] Hlen E;
    simpl in *; try discriminate.
  - auto.
  - injection E as -> E. destruct (IH a' ltac:(lia) E) as [-> ->]. auto.
Qed.

Lemma field_inj (w n m : nat) :
  read_field (Py.zfill w n) = Some n -> read_field (Py.zfill w m) = Some m ->
  Py.zfill w n = Py.zfill w m -> n = m.
Proof. intros Hn Hm E. rewrite E in Hn. congruence. Qed.

Lemma strftime_inj (d d' : Py.datetime) :
  four_digit_year d -> four_digit_year d' ->
  Py.strftime_YmdHMS d = Py.strftime_YmdHMS d' -> in_same_second d d'.
Proof.
  intros (Hy & Hmo & Hd & Hh & Hmi & Hs) (Hy' & Hmo' & Hd' & Hh' & Hmi' & Hs').
  unfold Py.strftime_YmdHMS. intros E.
  destruct (zfill_4 (Py.year d)) as [L1 R1]; [lia|].
  destruct (zfill_4 (Py.year d')) as [L1' R1']; [lia|].
  destruct (zfill_2 (Py.month d)) as [L2 R2]; [lia|].
  destruct (zfill_2 (Py.month d')) as [L2' R2']; [lia|].
  destruct (zfill_2 (Py.day d)) as [L3 R3]; [lia|].
  destruct (zfill_2 (Py.day d')) as [L3' R3']; [lia|].
  destruct (zfill_2 (Py.hour d)) as [L4 R4]; [lia|].
  destruct (zfill_2 (Py.hour d')) as [L4' R4']; [lia|].
  destruct (zfill_2 (Py.minute d)) as [L5 R5]; [lia|].
  destruct (zfill_2 (Py.minute d')) as [L5' R5']; [lia|].
  destruct (zfill_2 (Py.second d)) as [L6 R6]; [lia|].
  destruct (zfill_2 (Py.second d')) as [L6' R6']; [lia|].
  apply string_app_inj in E as [E1 E]; [|congruence].
  apply string_app_inj in E as [E2 E]; [|congruence].
  apply string_app_inj in E as [E3 E]; [|congruence].
  apply string_app_inj in E as [E4 E]; [|congruence].
  apply string_app_inj in E as [E5 E6]; [|congruence].
  unfold in_same_second.
  repeat split; eapply field_inj; eauto.
Qed.

(** X22: for clock readings in the years 1000 to 9999, two escalations
    get the same id exactly when their readings fall in the same second: the
    id is "ESC_" followed by the reading down to the second, so escalations
    of different seconds never collide, and escalations of one second always
    do, whatever the customer, the text, the reason and the priority are. *)
Theorem X22_ids_collide_exactly_within_a_second :
  forall (s s' : State) (customer customer' text text' : string)
         (why why' : EscalationReason) (prio prio' : Z),
    four_digit_year (now (clock_reads s)) ->
    four_digit_year (now (clock_reads s')) ->
    q_id (escalated now s customer text why prio)
    = q_id (escalated now s' customer' text' why' prio')
    <-> in_same_second (now (clock_reads s)) (now (clock_reads s')).
Proof.
  intros s s' c c' t t' w w' p p' Hd Hd'. simpl. split.
  - intros E. injection E as E. now apply strftime_inj.
  - intros (Hy & Hmo & Hda & Hh & Hmi & Hs).
    unfold Py.strftime_YmdHMS. now rewrite Hy, Hmo, Hda, Hh, Hmi, Hs.
Qed.

(** *** The dashboard *)

Lemma filter_le_filter {A : Type} (f g : A -> bool) (l : list A) :
  (forall x, f x = true -> g x = true) ->
  (List.length (List.filter f l) <= List.length (List.filter g l))%nat.
Proof.
  intros H. induction l as [|x l IH]; simpl; [lia|].
  destruct (f x) eqn:Ef.
  - rewrite (H x Ef). simpl. lia.
  - destruct (g x); simpl; lia.
Qed.

Lemma filter_disjoint_length {A : Type} (f g : A -> bool) (l : list A) :
  (forall x, f x = true -> g x = false) ->
  (List.length (List.filter f l) + List.length (List.filter g l)
   <= List.length l)%nat.
Proof.
  intros H. induction l as [|x l IH]; simpl; [lia|].
  destruct (f x) eqn:Ef.
  - rewrite (H x Ef). simpl. lia.
  - destruct (g x); simpl; lia.
Qed.

Lemma status_partition (l : list EscalatedQuery) :
  Forall (fun q => q_status q = "pending" \/ q_status q = "assigned"
                   \/ q_status q = "resolved") l ->
  List.length l
  = (List.length (List.filter (fun q => String.eqb (q_status q) "pending") l)
     + List.length (List.filter (fun q => String.eqb (q_status q) "assigned") l)
     + List.length (List.filter (fun q => String.eqb (q_status q) "resolved") l))%nat.
Proof.
  induction 1 as [|q l Hq Hl IH]; simpl; [reflexivity|].
  destruct Hq as [-> | [-> | ->]]; simpl; lia.
Qed.

Lemma assigned_count_cons (aid : string) (q : EscalatedQuery)
    (l : list EscalatedQuery) :
  assigned_count aid (q :: l)
  = Z.b2z (assigned_to aid q) + assigned_count aid l.
Proof.
  unfold assigned_count. simpl.
  destruct (assigned_to aid q); simpl length; simpl Z.b2z; lia.
Qed.

Lemma assigned_to_one_of_roster (q : EscalatedQuery) :
  Z.b2z (assigned_to "agent_1" q) + Z.b2z (assigned_to "agent_2" q)
  + Z.b2z (assigned_to "agent_3" q) + Z.b2z (assigned_to "agent_4" q)
  <= Z.b2z (String.eqb (q_status q) "assigned").
Proof.
  unfold assigned_to.
  destruct (String.eqb (q_status q) "assigned"); simpl; [|lia].
  destruct (String.eqb (agent_id q) "agent_1") eqn:E1.
  { apply String.eqb_eq in E1. rewrite E1. simpl. lia. }
  destruct (String.eqb (agent_id q) "agent_2") eqn:E2.
  { apply String.eqb_eq in E2. rewrite E2. simpl. lia. }
  destruct (String.eqb (agent_id q) "agent_3") eqn:E3.
  { apply String.eqb_eq in E3. rewrite E3. simpl. lia. }
  destruct (String.eqb (agent_id q) "agent_4"); simpl; lia.
Qed.

Lemma assigned_by_roster (l : list EscalatedQuery) :
  assigned_count "agent_1" l + assigned_count "agent_2" l
  + assigned_count "agent_3" l + assigned_count "agent_4" l
  <= Z.of_nat (List.length
                 (List.filter (fun q => String.eqb (q_status q) "assigned") l)).
Proof.
  induction l as [|q l IH]; [vm_compute; discriminate|].
  rewrite !assigned_count_cons.
  pose proof (assigned_to_one_of_roster q) as Hq.
  simpl List.filter.
  destruct (String.eqb (q_status q) "assigned"); simpl length; simpl Z.b2z in Hq;
    lia.
Qed.

(** X23: what the dashboard shows in a reachable state.  There are four rows,
    for agent_1 to agent_4 in this order, each with the agent's current
    status value and load.  The available and the busy agents are counted
    by status alone, so the count of available agents is at least the
    number of agents the wait-time estimator and the matcher count (which
    also ask for spare capacity).  The pending count is the estimator's;
    the items that are neither pending nor resolved are the assigned ones;
    and the loads shown add up to at most the number of assigned items. *)
Theorem X23_dashboard_accounts :
  forall ops : list Op,
    let s := run now notify_raises ops (initial_state now) in
    let d := get_agent_dashboard_data s in
    d_total_agents d = 4%nat
    /\ map row_id (d_agents d) = ["agent_1"; "agent_2"; "agent_3"; "agent_4"]
    /\ (available_count s <= d_available_agents d)%nat
    /\ (d_available_agents d + d_busy_agents d <= d_total_agents d)%nat
    /\ d_pending_queries d = pending_count s
    /\ d_total_queries d
       = (d_pending_queries d + assigned_items s + d_resolved_queries d)%nat
    /\ 0 <= shown_chats d <= Z.of_nat (assigned_items s).
Proof.
  intros ops s d.
  assert (Hids : map a_id (agents s)
                 = ["agent_1"; "agent_2"; "agent_3"; "agent_4"])
    by apply run_agent_ids.
  split; [|split; [|split; [|split; [|split; [|split]]]]].
  - unfold d. simpl. rewrite <- (length_map a_id), Hids. reflexivity.
  - unfold d. simpl. rewrite map_map. exact Hids.
  - unfold d, available_count. simpl. apply filter_le_filter.
    unfold is_available. intros a Ha. now apply andb_true_iff in Ha.
  - unfold d. simpl. apply filter_disjoint_length.
    intros a Ha. destruct (a_status a); try discriminate. reflexivity.
  - reflexivity.
  - unfold d, assigned_items. simpl. apply status_partition.
    pose proof (run_queries_Forall now notify_raises
                  (fun q => q_status q = "pending" \/ q_status q = "assigned"
                            \/ q_status q = "resolved")) as Hall.
    apply Hall. repeat split; simpl; intros; auto.
  - destruct (run_loads_accounted ops) as [Hinv Hnn].
    fold s in Hinv, Hnn. unfold loads_accounted in Hinv.
    pose proof (assigned_by_roster (escalated_queries s)) as Hsum.
    unfold d, shown_chats, assigned_items. simpl. rewrite map_map. simpl.
    destruct (agents s) as [|a1 [|a2 [|a3 [|a4 [|a5 l]]]]]; try discriminate.
    simpl in Hids. injection Hids as H1 H2 H3 H4.
    repeat match goal with
           | H : Forall _ (_ :: _) |- _ => inversion H; subst; clear H
           end.
    simpl in *.
    repeat match goal with
           | H : a_id _ = _ |- _ => rewrite H in *; clear H
           end.
    lia.
Qed.

(** *** Passes and the estimate *)

Lemma available_count_zero (s : State) :
  available_count s = 0%nat <-> free_capacity s = 0.
Proof.
  unfold available_count.
  rewrite filter_length_zero, free_capacity_zero, available_agents_nil.
  reflexivity.
Qed.

(** X4: right after a pass the estimator gives one of its two fixed answers,
    never a computed range: "15-30 minutes" when the pass found at least as
    many pending items as the roster had free capacity, and "2-5 minutes"
    otherwise. *)
Theorem X4_estimate_after_pass :
  forall s : State,
    get_estimated_wait_time (assign_pending_queries now notify_raises s)
    = Some (if free_capacity s <=? Z.of_nat (pending_count s)
            then "15-30 minutes" else "2-5 minutes").
Proof.
  intros s.
  destruct (pass_split s) as (l1 & l2 & E & E' & _ & Hnone & Hfree).
  set (s' := assign_pending_queries now notify_raises s) in *.
  pose proof (free_capacity_nonneg s') as Hnn.
  assert (Hp : pending_count s = (List.length l1 + List.length l2)%nat)
    by now rewrite <- pending_queries_length, E, length_app.
  assert (Hp' : pending_count s' = List.length l2)
    by now rewrite <- pending_queries_length, E'.
  unfold get_estimated_wait_time. cbv zeta.
  destruct (Z.leb_spec (free_capacity s) (Z.of_nat (pending_count s))) as [Hle | Hgt].
  - assert (Hz : free_capacity s' = 0).
    { destruct l2 as [|i l2].
      - simpl in Hp. lia.
      - apply free_capacity_zero, Hnone. discriminate. }
    apply available_count_zero in Hz. now rewrite Hz.
  - destruct l2 as [|i l2].
    + simpl in Hp, Hp'.
      destruct (Nat.eqb (available_count s') 0) eqn:Ea.
      * apply Nat.eqb_eq, available_count_zero in Ea. lia.
      * now rewrite Hp'.
    + exfalso.
      assert (Hz : free_capacity s' = 0)
        by (apply free_capacity_zero, Hnone; discriminate).
      simpl in Hp. lia.
Qed.

Lemma pending_count_snoc (ags : list HumanAgent) (qs : list EscalatedQuery)
    (q : EscalatedQuery) (th : Thresholds) (k : nat) :
  is_pending q = true ->
  pending_count (mk_state ags (qs ++ [q]) th k)
  = S (List.length (List.filter is_pending qs)).
Proof.
  intros Hq. unfold pending_count. simpl.
  rewrite List.filter_app, length_app. simpl. rewrite Hq. simpl. lia.
Qed.

Lemma run_escalations (ops : list Op) :
  forallb is_escalate ops = true ->
  forall s : State,
    agents (run now notify_raises ops s) = agents s
    /\ pending_count (run now notify_raises ops s)
       = (pending_count s + List.length ops)%nat.
Proof.
  induction ops as [|op ops IH]; intros Hops s; simpl.
  - split; [reflexivity | lia].
  - simpl in Hops. apply andb_true_iff in Hops as [Hop Hrest].
    destruct op as [c q r p l | | |]; try discriminate.
    destruct (IH Hrest (step now notify_raises s (Escalate c q r p l)))
      as [Ha Hp].
    fold (run now notify_raises ops
              (step now notify_raises s (Escalate c q r p l))).
    rewrite Ha, Hp. simpl. rewrite escalate_query_state. simpl.
    split; [reflexivity|].
    rewrite pending_count_snoc by reflexivity.
    unfold pending_count. lia.
Qed.

(** X25: the capacity of a new instance: the four agents of [initialize_agents]
    take 5 + 4 + 6 + 4 = 19 chats.  When [n] queries are escalated to a new
    instance and one pass runs, the pass leaves [max 0 (n - 19)] of them
    pending and a free capacity of [max 0 (19 - n)]: it assigns the first
    [min n 19]. *)
Theorem X25_fresh_instance_serves_19 :
  forall escalations : list Op,
    forallb is_escalate escalations = true ->
    let n := Z.of_nat (List.length escalations) in
    let s := run now notify_raises (escalations ++ [Tick]) (initial_state now) in
    Z.of_nat (pending_count s) = Z.max 0 (n - 19)
    /\ free_capacity s = Z.max 0 (19 - n).
Proof.
  intros ops Hops n s.
  destruct (run_escalations ops Hops (initial_state now)) as [Ha Hp].
  set (s0 := run now notify_raises ops (initial_state now)) in *.
  assert (Hs : s = assign_pending_queries now notify_raises s0).
  { unfold s, run. rewrite fold_left_app. reflexivity. }
  assert (Hc : free_capacity s0 = 19).
  { unfold free_capacity. rewrite Ha. vm_compute. reflexivity. }
  assert (Hp0 : Z.of_nat (pending_count s0) = n).
  { rewrite Hp. unfold n. vm_compute pending_count. lia. }
  destruct (pass_split s0) as (l1 & l2 & E & E' & _ & Hnone & Hfree).
  rewrite <- Hs in E', Hnone, Hfree.
  pose proof (free_capacity_nonneg s) as Hnn.
  assert (HE : pending_count s0 = (List.length l1 + List.length l2)%nat)
    by now rewrite <- pending_queries_length, E, length_app.
  assert (HE' : pending_count s = List.length l2)
    by now rewrite <- pending_queries_length, E'.
  destruct l2 as [|i l2].
  - simpl in HE, HE'. lia.
  - assert (Hz : free_capacity s = 0)
      by (apply free_capacity_zero, Hnone; discriminate).
    simpl in HE, HE'. lia.
Qed.

End Instance.

(** ** The theorems at concrete inputs *)

Import Fixture.

(** C2 as stated fails: on the two agents of the scenario the matcher does
    not return B. *)
Lemma C2_counterexample :
  find_best_agent two_agents negotiation_item <> Some (1%nat, agent_B).
Proof. vm_compute. discriminate. Qed.

(** C2 at the two agents and the item of the scenario. *)
Lemma C2_witness :
  find_best_agent two_agents negotiation_item = Some (0%nat, agent_A)
  /\ (expertise_score negotiation_item agent_A == 0)%Q
  /\ (expertise_score negotiation_item agent_B == 0)%Q
  /\ (agent_score negotiation_item agent_A
      == agent_score negotiation_item agent_B)%Q.
Proof.
  apply (C2_tie_goes_to_first_agent agent_A agent_B negotiation_item []
           default_thresholds 0); reflexivity.
Defined.

(** C3 as stated fails: resolving the id of an item that is still pending
    does not fail, and the item does not stay pending. *)
Lemma C3_counterexample :
  let s := run same_second notify_ok [complaint] fresh in
  map q_status (escalated_queries s) = ["pending"]
  /\ ~ (fst (resolve_query same_second s the_id "done") = false
        /\ map q_status (escalated_queries
                           (snd (resolve_query same_second s the_id "done")))
           = ["pending"]).
Proof.
  split; [vm_compute; reflexivity|]. intros [H _]. vm_compute in H. discriminate.
Qed.

(** C3 after one escalation: its id is resolved at once, and an id that
    was never issued is not. *)
Lemma C3_witness :
  let s := run same_second notify_ok [complaint] fresh in
  let q := escalated same_second fresh "customer_1" "my bike is not working"
                     CUSTOMER_COMPLAINT 1 in
  (escalated_queries s !! 0%nat = Some q /\ q_status q = "pending")
  /\ resolve_query same_second s the_id "done"
     = (true,
        mk_state (agents s)
                 (<[0%nat := mark_resolved (same_second (clock_reads s)) q]>
                    (escalated_queries s))
                 (complexity_thresholds s) (S (clock_reads s)))
  /\ resolve_query same_second s "ESC_19990101000000" "done" = (false, s).
Proof.
  intros s q.
  destruct (C3_resolve_pending_succeeds same_second notify_ok [complaint]
              the_id "done") as [Hfound _].
  destruct (C3_resolve_pending_succeeds same_second notify_ok [complaint]
              "ESC_19990101000000" "done") as [_ Hmissing].
  split; [split; vm_compute; reflexivity|]. split.
  - apply (Hfound 0%nat q).
    + vm_compute; reflexivity.
    + vm_compute; reflexivity.
    + intros j q' Hj. lia.
    + vm_compute; reflexivity.
  - apply Hmissing. intros q' Hq'. vm_compute in Hq'.
    destruct Hq' as [<- | []]. discriminate.
Defined.

(** C4 as stated fails: when the notification raises, the assignment
    reports a failure, yet after the pass the item is assigned and the load
    of the agent is not its value before the pass. *)
Lemma C4_counterexample :
  let s := run same_second notify_fails [complaint] fresh in
  let s' := assign_pending_queries same_second notify_fails s in
  fst (assign_query_to_agent same_second notify_fails s 0 2) = false
  /\ map q_status (escalated_queries s') = ["assigned"]
  /\ map current_chats (agents s) = [0; 0; 0; 0]
  /\ map current_chats (agents s') <> map current_chats (agents s).
Proof.
  repeat split; try (vm_compute; reflexivity). vm_compute. discriminate.
Qed.

(** C4 on the first item of a new instance whose notifications raise. *)
Lemma C4_witness :
  let s := run same_second notify_fails [complaint] fresh in
  let query := escalated same_second fresh "customer_1" "my bike is not working"
                         CUSTOMER_COMPLAINT 1 in
  (escalated_queries s !! 0%nat = Some query
   /\ find_best_agent s query = Some (2%nat, third_agent))
  /\ let query' := mark_assigned third_agent (same_second (clock_reads s)) query in
     let agent' := take_chat (same_second (S (clock_reads s))) third_agent in
     let r := assign_query_to_agent same_second notify_fails s 0 2 in
     fst r = negb (notify_fails agent' query')
     /\ escalated_queries (snd r) !! 0%nat = Some query'
     /\ q_status query' = "assigned" /\ agent_id query' = a_id third_agent
     /\ agents (snd r) !! 2%nat = Some agent'
     /\ current_chats agent' = current_chats third_agent + 1
     /\ current_chats third_agent < max_chats third_agent
     /\ assign_one same_second notify_fails s 0 = snd r.
Proof.
  intros s query. split; [split; vm_compute; reflexivity|].
  apply (C4_assignment_is_not_rolled_back same_second notify_fails s 0 query 2
           third_agent); vm_compute; reflexivity.
Defined.

(** C6 fails on the code.  An item is escalated and assigned (to agent_3);
    a second item is escalated in the same second, so it gets the same id,
    and the pass assigns it to agent_1, whose load goes from 0 to 1.
    Resolving the id succeeds, but it reaches the first item: the second
    item stays assigned, the load of agent_1 stays at 1 and not at its
    value before the assignment, and the load of agent_3, which the
    assignment of the second item had not touched, goes from 1 to 0. *)
Theorem C6_colliding_id_breaks_round_trip :
  let s := run same_second notify_ok [complaint; Tick] fresh in
  let s1 := step same_second notify_ok s second_complaint in
  let s2 := assign_pending_queries same_second notify_ok s1 in
  let r := resolve_query same_second s2 the_id "done" in
  let s3 := snd r in
  map q_id (escalated_queries s1) = [the_id; the_id]
  /\ map customer_id (escalated_queries s1) = ["customer_1"; "customer_2"]
  /\ map q_status (escalated_queries s1) = ["assigned"; "pending"]
  /\ map q_status (escalated_queries s2) = ["assigned"; "assigned"]
  /\ map agent_id (escalated_queries s2) = ["agent_3"; "agent_1"]
  /\ fst r = true
  /\ map q_status (escalated_queries s3) = ["resolved"; "assigned"]
  /\ option_map q_status (escalated_queries s3 !! 1%nat) <> Some "resolved"
  /\ map current_chats (agents s1) = [0; 0; 1; 0]
  /\ map current_chats (agents s2) = [1; 0; 1; 0]
  /\ map current_chats (agents s3) = [1; 0; 0; 0].
Proof.
  repeat split; try (vm_compute; reflexivity). vm_compute. discriminate.
Qed.

(** X26 on a new instance: one escalation, one pass, one resolution. *)
Lemma X26_witness :
  let s := run same_second notify_ok [] fresh in
  let n := List.length (escalated_queries s) in
  let id := "ESC_" ++ Py.strftime_YmdHMS (same_second (clock_reads s)) in
  let s1 := snd (escalate_query same_second s "customer_1"
                                "my bike is not working" CUSTOMER_COMPLAINT 1 "en") in
  let s_pre := fold_left (assign_one same_second notify_ok) (pending_queries s) s1 in
  let s2 := assign_pending_queries same_second notify_ok s1 in
  let s3 := snd (resolve_query same_second s2 id "done") in
  ((forall q', In q' (escalated_queries s) -> q_id q' <> id)
   /\ option_map q_status (escalated_queries s2 !! n) = Some "assigned")
  /\ exists ai agent,
       find_best_agent s_pre (escalated same_second s "customer_1"
                                "my bike is not working" CUSTOMER_COMPLAINT 1)
       = Some (ai, agent)
       /\ s2 = snd (assign_query_to_agent same_second notify_ok s_pre n ai)
       /\ map current_chats (agents s2)
          = <[ai := current_chats agent + 1]> (map current_chats (agents s_pre))
       /\ fst (resolve_query same_second s2 id "done") = true
       /\ option_map q_status (escalated_queries s3 !! n) = Some "resolved"
       /\ map current_chats (agents s3) = map current_chats (agents s_pre)
       /\ (pending_queries s = [] ->
           map current_chats (agents s3) = map current_chats (agents s)).
Proof.
  intros s n id s1 s_pre s2 s3.
  assert (Hfresh : forall q', In q' (escalated_queries s) -> q_id q' <> id)
    by (intros q' []).
  assert (Hassigned : option_map q_status (escalated_queries s2 !! n)
                      = Some "assigned") by (vm_compute; reflexivity).
  split; [split; assumption|].
  exact (X26_round_trip_restores_load same_second notify_ok [] "customer_1"
           "my bike is not working" CUSTOMER_COMPLAINT 1 "en" "done"
           Hfresh Hassigned).
Defined.

(** C9 fails on the code: two escalations whose readings of the clock
    fall in the same second (at different microseconds) get the same id;
    the queue then holds two items with that id, and [resolve_query] and
    [get_agent_response] reach the first of them only, however often they
    are called: the second item stays assigned to its agent. *)
Theorem C9_same_second_same_id :
  let r1 := escalate_query same_second fresh "customer_1"
                           "my bike is not working" CUSTOMER_COMPLAINT 1 "en" in
  let r2 := escalate_query same_second (snd r1) "customer_2"
                           "the brake is broken" CUSTOMER_COMPLAINT 1 "hi" in
  let s3 := assign_pending_queries same_second notify_ok (snd r2) in
  let s4 := snd (resolve_query same_second s3 the_id "fixed") in
  let s5 := snd (resolve_query same_second s4 the_id "fixed too") in
  same_second (clock_reads fresh) <> same_second (clock_reads (snd r1))
  /\ query_id (fst r1) = Some the_id
  /\ query_id (fst r2) = Some the_id
  /\ map customer_id (escalated_queries (snd r2)) = ["customer_1"; "customer_2"]
  /\ map q_id (escalated_queries (snd r2)) = [the_id; the_id]
  /\ map q_status (escalated_queries s3) = ["assigned"; "assigned"]
  /\ map agent_id (escalated_queries s3) = ["agent_3"; "agent_1"]
  /\ map q_status (escalated_queries s4) = ["resolved"; "assigned"]
  /\ map q_status (escalated_queries s5) = ["resolved"; "assigned"]
  /\ option_map agent_name (get_agent_response s5 the_id) = Some "Amit Patel".
Proof.
  repeat split; try (vm_compute; reflexivity). vm_compute. discriminate.
Qed.

(** C7 as stated fails: after agent_1 has gone offline and 49 items were
    escalated, 3 agents are available and 49 items are pending; base is
    490 / 3 and base * 1.5 is 245, a whole number, so the range of the claim
    ends at 245 however it is rounded, and the estimator answers
    "163-244 minutes". *)
Lemma C7_counterexample :
  let s := run same_second notify_ok
               (UpdateStatus "agent_1" OFFLINE :: repeat complaint 49) fresh in
  available_count s = 3%nat /\ pending_count s = 49%nat
  /\ (spec_base 49 3 * (3 # 2) == 245)%Q
  /\ get_estimated_wait_time s = Some "163-244 minutes"
  /\ ~ (exists answer,
          get_estimated_wait_time s = Some answer
          /\ spec_linear_estimate (pending_count s) (available_count s) answer).
Proof.
  cbv zeta.
  set (s := run same_second notify_ok
                (UpdateStatus "agent_1" OFFLINE :: repeat complaint 49) fresh).
  assert (Ha : available_count s = 3%nat) by (vm_compute; reflexivity).
  assert (Hp : pending_count s = 49%nat) by (vm_compute; reflexivity).
  assert (He : get_estimated_wait_time s = Some "163-244 minutes")
    by (vm_compute; reflexivity).
  split; [exact Ha|]. split; [exact Hp|]. split; [reflexivity|].
  split; [exact He|].
  intros (answer & Hanswer & lo & hi & Hlo & Hhi & E).
  rewrite He in Hanswer. injection Hanswer as <-.
  rewrite Ha, Hp in Hlo, Hhi.
  assert (Hhi' : hi = 245).
  { destruct Hhi as [H1 H2]. unfold spec_base, Qlt in H1, H2.
    simpl in H1, H2. lia. }
  assert (Hlo' : lo = 163 \/ lo = 164).
  { destruct Hlo as [H1 H2]. unfold spec_base, Qlt in H1, H2.
    simpl in H1, H2. lia. }
  subst hi. destruct Hlo' as [-> | ->]; vm_compute in E; discriminate.
Qed.

(** C7 on three states: the whole roster offline with two pending items,
    a new instance, and a new instance with one pending item. *)
Lemma C7_witness :
  (let s := run same_second notify_ok
                (all_offline ++ [complaint; second_complaint]) fresh in
   get_estimated_wait_time s = Some "15-30 minutes")
  /\ get_estimated_wait_time fresh = Some "2-5 minutes"
  /\ (let s := run same_second notify_ok [complaint] fresh in
      get_estimated_wait_time s = Some "2-3 minutes").
Proof.
  split; [|split].
  - apply C7_wait_time_policy.
    intros a Ha. vm_compute in Ha.
    repeat (destruct Ha as [<- | Ha]; [reflexivity|]). destruct Ha.
  - apply C7_wait_time_policy.
    + exists third_agent. split; [right; right; left|]; reflexivity.
    + intros q [].
  - intros s. destruct (C7_wait_time_policy s) as (_ & _ & H).
    destruct H as (lo & hi & Hlo & Hhi & E).
    + exists third_agent. vm_compute.
      split; [right; right; left|]; reflexivity.
    + exists (escalated same_second fresh "customer_1" "my bike is not working"
                        CUSTOMER_COMPLAINT 1).
      vm_compute. split; [left|]; reflexivity.
    + vm_compute. reflexivity.
    + vm_compute. reflexivity.
    + rewrite E. vm_compute in Hlo, Hhi.
      injection Hlo as <-. injection Hhi as <-. reflexivity.
Defined.

(** C8 on the initial roster and a price-negotiation item: the third
    agent, who alone scores 3 (six free chats), is returned. *)
Lemma C8_witness :
  find_best_agent fresh negotiation_item = Some (2%nat, third_agent)
  /\ forall j b,
       In (j, b) (available_agents fresh) ->
       (agent_score negotiation_item b
        <= agent_score negotiation_item third_agent)%Q
       /\ ((j < 2)%nat ->
           (agent_score negotiation_item b
            < agent_score negotiation_item third_agent)%Q).
Proof.
  assert (H : find_best_agent fresh negotiation_item = Some (2%nat, third_agent))
    by (vm_compute; reflexivity).
  split; [exact H|].
  apply (proj2 (C8_find_best_agent_first_highest fresh negotiation_item)
               2%nat third_agent H).
Defined.

(** X2 on a new instance, with priority 5. *)
Lemma X2_witness :
  let r := escalate_query same_second fresh "customer_1"
                          "my bike is not working" CUSTOMER_COMPLAINT 5 "en" in
  Z.of_nat (List.length (escalated_queries fresh)) + 1 < 2 ^ 53
  /\ success (fst r) = true
  /\ query_id (fst r) = Some the_id
  /\ exists item,
       escalated_queries (snd r) = [item]
       /\ q_status item = "pending" /\ complexity item = CRITICAL.
Proof.
  intros r.
  assert (Hlen : Z.of_nat (List.length (escalated_queries fresh)) + 1 < 2 ^ 53)
    by reflexivity.
  split; [exact Hlen|].
  destruct (X2_escalate_query_appends_pending same_second notify_ok []
              "customer_1" "my bike is not working" CUSTOMER_COMPLAINT 5 "en"
              Hlen)
    as (item & Hq & _ & Hid & Hst & _ & _ & Hc & Hsucc & Hqid & _).
  split; [exact Hsucc|].
  split; [transitivity (Some (q_id item)); [exact Hqid | now rewrite Hid]|].
  exists item. split; [exact Hq|]. split; [exact Hst | exact Hc].
Defined.

(** X3 on the item of one escalation. *)
Lemma X3_witness :
  let s := run same_second notify_ok [complaint] fresh in
  let item := escalated same_second fresh "customer_1" "my bike is not working"
                        CUSTOMER_COMPLAINT 1 in
  In item (escalated_queries s)
  /\ ((q_status item = "pending" /\ agent_id item = "")
      \/ q_status item = "assigned" \/ q_status item = "resolved").
Proof.
  intros s item.
  assert (Hin : In item (escalated_queries s))
    by (vm_compute; left; reflexivity).
  split; [exact Hin|].
  exact (X3_status_values same_second notify_ok [complaint] item Hin).
Defined.

(** X1 at the text "tissue paper": the complaint keyword "issue" is found
    inside the word "tissue". *)
Lemma X1_witness :
  In "issue" escalation_keywords
  /\ should_escalate_to_human default_thresholds ("t" ++ "issue" ++ " paper") ""
                              (F64.of_int 1) F64.lit_0_0
     = (true, Some CUSTOMER_COMPLAINT).
Proof.
  assert (H : In "issue" escalation_keywords) by (simpl; auto 20).
  split; [exact H|].
  exact (X1_complaint_keyword_anywhere default_thresholds "issue" "t" " paper" ""
           (F64.of_int 1) F64.lit_0_0 H).
Defined.

(** X7 at the defaults: a confidence of 0.0 against the threshold of 0.7. *)
Lemma X7_witness :
  F64.ltb F64.lit_0_0 (confidence_threshold default_thresholds) = true
  /\ exists why,
       should_escalate_to_human default_thresholds "what are your opening hours"
                                "" F64.lit_0_0 F64.lit_0_0
       = (true, Some why)
       /\ why <> EMERGENCY /\ why <> LANGUAGE_BARRIER.
Proof.
  assert (H : F64.ltb F64.lit_0_0 (confidence_threshold default_thresholds) = true)
    by (vm_compute; reflexivity).
  split; [exact H|].
  exact (X7_low_confidence_escalates_every_query default_thresholds
           "what are your opening hours" "" F64.lit_0_0 F64.lit_0_0 H).
Defined.

(** X15 on a new instance whose third agent went offline: a complaint is
    escalated, assigned and resolved, and another agent changes status. *)
Lemma X15_witness :
  let s := run same_second notify_ok [UpdateStatus "agent_3" OFFLINE] fresh in
  let agent := set_status OFFLINE (same_second 4) third_agent in
  let ops := [complaint; Tick; Resolve the_id "done"; UpdateStatus "agent_1" BUSY] in
  agents s !! 2%nat = Some agent
  /\ a_status agent <> AVAILABLE
  /\ forallb (fun op => negb (updates_status_of (a_id agent) op)) ops = true
  /\ exists agent',
       agents (run same_second notify_ok ops s) !! 2%nat = Some agent'
       /\ idle_agent agent agent'.
Proof.
  cbv zeta.
  assert (H1 : agents (run same_second notify_ok
                           [UpdateStatus "agent_3" OFFLINE] fresh) !! 2%nat
               = Some (set_status OFFLINE (same_second 4) third_agent))
    by (vm_compute; reflexivity).
  assert (H2 : a_status (set_status OFFLINE (same_second 4) third_agent)
               <> AVAILABLE) by (vm_compute; discriminate).
  assert (H3 : forallb
                 (fun op => negb (updates_status_of
                                    (a_id (set_status OFFLINE (same_second 4)
                                                      third_agent)) op))
                 [complaint; Tick; Resolve the_id "done";
                  UpdateStatus "agent_1" BUSY] = true)
    by (vm_compute; reflexivity).
  split; [exact H1|]. split; [exact H2|]. split; [exact H3|].
  exact (X15_unavailable_agent_takes_no_chat same_second notify_ok _ _ _ _
           H1 H2 H3).
Defined.

(** X17 on two items of one id, both assigned: the response names the
    agent of the first of them. *)
Lemma X17_witness :
  let s := run same_second notify_ok [complaint; Tick; second_complaint; Tick]
               fresh in
  let r := resolve_query same_second s the_id "the chain was replaced" in
  In the_id (map q_id (escalated_queries s))
  /\ fst r = true
  /\ exists i q,
       escalated_queries s !! i = Some q /\ q_id q = the_id
       /\ (forall j q', (j < i)%nat -> escalated_queries s !! j = Some q' ->
                        q_id q' <> the_id)
       /\ get_agent_response (snd r) the_id
          = Some (mk_response the_id "Response from human agent"
                              (agent_name_of (agent_id q) (agents s))
                              (Py.isoformat (same_second (clock_reads s)))).
Proof.
  cbv zeta.
  assert (H : In the_id
                (map q_id (escalated_queries
                             (run same_second notify_ok
                                  [complaint; Tick; second_complaint; Tick]
                                  fresh))))
    by (vm_compute; left; reflexivity).
  split; [exact H|].
  exact (X17_response_after_resolve same_second _ the_id
           "the chain was replaced" H).
Defined.

(** X19 on the two agents of the matcher scenario: the item at priority 2
    and at priority 5. *)
Lemma X19_witness :
  let urgent := new_query "ESC_20240115103045" "customer"
                          "can we talk about the price" CRITICAL
                          PRICE_NEGOTIATION 5 (same_second 0) in
  reason urgent = reason negotiation_item
  /\ q_language urgent = q_language negotiation_item
  /\ find_best_agent two_agents urgent
     = find_best_agent two_agents negotiation_item.
Proof.
  cbv zeta. split; [reflexivity|]. split; [reflexivity|].
  exact (X19_priority_never_changes_the_choice two_agents negotiation_item
           _ eq_refl eq_refl).
Defined.

(** X21 on a new instance with one complaint: agent_3, with six spare
    chats, is chosen, ahead of agent_1 with five. *)
Lemma X21_witness :
  let s := run same_second notify_ok [complaint] fresh in
  let item := escalated same_second fresh "customer_1" "my bike is not working"
                        CUSTOMER_COMPLAINT 1 in
  let a := third_agent in
  let b := new_agent "agent_1" "Rajesh Kumar" "rajesh@everylingua.com"
                     "+91-9876543211" ["sales"; "test_rides"; "finance"]
                     ["hi"; "en"; "mr"] 5 (same_second 0) in
  In item (escalated_queries s)
  /\ reason item <> EMERGENCY
  /\ find_best_agent s item = Some (2%nat, a)
  /\ In (0%nat, b) (available_agents s)
  /\ spare_chats b <= spare_chats a
  /\ ((0 < 2)%nat -> spare_chats b < spare_chats a).
Proof.
  cbv zeta.
  set (s := run same_second notify_ok [complaint] fresh).
  set (item := escalated same_second fresh "customer_1" "my bike is not working"
                         CUSTOMER_COMPLAINT 1).
  set (b := new_agent "agent_1" "Rajesh Kumar" "rajesh@everylingua.com"
                      "+91-9876543211" ["sales"; "test_rides"; "finance"]
                      ["hi"; "en"; "mr"] 5 (same_second 0)).
  assert (H1 : In item (escalated_queries s))
    by (vm_compute; left; reflexivity).
  assert (H2 : reason item <> EMERGENCY) by (vm_compute; discriminate).
  assert (H3 : find_best_agent s item = Some (2%nat, third_agent))
    by (vm_compute; reflexivity).
  assert (H4 : In (0%nat, b) (available_agents s))
    by (vm_compute; left; reflexivity).
  split; [exact H1|]. split; [exact H2|]. split; [exact H3|]. split; [exact H4|].
  exact (X21_most_spare_chats_wins same_second notify_ok [complaint] item
           2%nat 0%nat third_agent b H1 H2 H3 H4).
Defined.

(** X22 on two escalations of one second: the two ids are the same. *)
Lemma X22_witness :
  let s := fresh in
  let s' := run same_second notify_ok [complaint] fresh in
  four_digit_year (same_second (clock_reads s))
  /\ four_digit_year (same_second (clock_reads s'))
  /\ (q_id (escalated same_second s "customer_1" "my bike is not working"
                      CUSTOMER_COMPLAINT 1)
      = q_id (escalated same_second s' "customer_2" "the brake is broken"
                        CUSTOMER_COMPLAINT 1)
      <-> in_same_second (same_second (clock_reads s))
                         (same_second (clock_reads s'))).
Proof.
  cbv zeta.
  assert (H : forall k, four_digit_year (same_second k)).
  { intros k. unfold four_digit_year. simpl. lia. }
  split; [apply H|]. split; [apply H|].
  exact (X22_ids_collide_exactly_within_a_second same_second _ _ _ _ _ _ _ _ _ _
           (H _) (H _)).
Defined.

(** X25 with two escalations: none is left pending and 17 chats stay
    free. *)
Lemma X25_witness :
  let escalations := [complaint; second_complaint] in
  let s := run same_second notify_ok (escalations ++ [Tick]) fresh in
  forallb is_escalate escalations = true
  /\ Z.of_nat (pending_count s) = Z.max 0 (2 - 19)
  /\ free_capacity s = Z.max 0 (19 - 2).
Proof.
  cbv zeta. split; [reflexivity|].
  exact (X25_fresh_instance_serves_19 same_second notify_ok
           [complaint; second_complaint] eq_refl).
Defined.
